(** * Teacher/student registry: e-mail utilities, student and teacher services

    A shallow embedding of the TypeScript services
    [EmailUtils] (email.utils.ts), [StudentService] (student.service.ts)
    and [TeacherService] (teacher.service.ts), together with the two
    regular expressions of [VALIDATION_RULES] (app.constants.ts).

    Modelling conventions.
    - A JavaScript string is a [string]: a sequence of UTF-16 code units,
      here restricted to code units below 256 (one [ascii] each, read as
      Latin-1).  White space, lower-casing and comparison are the
      ECMAScript ones on that range.
    - The relational store (TypeORM over MySQL) is an explicit value: a
      table of student rows, a table of teacher rows and the join table of
      the many-to-many relation.  Look-ups compare e-mail keys by string
      equality.
    - A rejected promise / thrown exception is the [Err] branch of
      [result]; mutating operations thread the store explicitly. *)

From Stdlib Require Import List String Ascii Bool Arith NArith Lia.
From Stdlib Require Import Permutation Sorted.
Import ListNotations.
Local Open Scope string_scope.
Local Open Scope list_scope.

(* ================================================================== *)
(** ** JavaScript strings *)

Module JsString.

(** Code unit of a character. *)
Definition code (c : ascii) : N := N_of_ascii c.

(** ECMAScript [WhiteSpace] and [LineTerminator] code points below 256:
    TAB, LF, VT, FF, CR, SP and NBSP.  This is both what [\s] matches
    and what [String.prototype.trim] strips. *)
Definition isWhiteSpace (c : ascii) : bool :=
  existsb (N.eqb (code c)) [9; 10; 11; 12; 13; 32; 160]%N.

(** Simple lower-case mapping on code units below 256: A-Z and the
    Latin-1 capitals U+00C0..U+00DE (U+00D7, the multiplication sign,
    excepted) move up by 32. *)
Definition toLowerChar (c : ascii) : ascii :=
  let n := code c in
  if ((65 <=? n) && (n <=? 90))%N
     || ((192 <=? n) && (n <=? 222) && negb (n =? 215))%N
  then ascii_of_N (n + 32)
  else c.

Fixpoint dropWhile (p : ascii -> bool) (l : list ascii) : list ascii :=
  match l with
  | [] => []
  | c :: l' => if p c then dropWhile p l' else l
  end.

(** Trailing white space removed: a character is dropped when it is
    white space and nothing is kept after it. *)
Definition dropEnd (l : list ascii) : list ascii :=
  fold_right
    (fun c kept =>
       match kept with
       | [] => if isWhiteSpace c then [] else [c]
       | _ :: _ => c :: kept
       end)
    [] l.

Definition trimList (l : list ascii) : list ascii :=
  dropEnd (dropWhile isWhiteSpace l).

(** [s.trim()] *)
Definition trim (s : string) : string :=
  string_of_list_ascii (trimList (list_ascii_of_string s)).

(** [s.toLowerCase()] *)
Definition toLowerCase (s : string) : string :=
  string_of_list_ascii (map toLowerChar (list_ascii_of_string s)).

(** [s.substring(i, j)] on the list of code units, for [i <= j]. *)
Definition slice (i j : nat) (l : list ascii) : list ascii :=
  firstn (j - i) (skipn i l).

End JsString.

(* ================================================================== *)
(** ** Regular expressions

    The fragment of ECMAScript regular expressions used by
    [VALIDATION_RULES]: a sequence of literal characters, greedy [+] over a
    character class, the assertions [^] and [$] (no [m] flag) and one
    level of capturing parentheses.  Matching is the backtracking
    semantics of the language: a greedy [+] first takes the longest run
    and gives characters back one at a time. *)

Module RegExp.

Inductive atom : Type :=
| Char (c : ascii)                 (* a literal character *)
| Plus (cls : ascii -> bool)       (* [cls]+, greedy *)
| AssertStart                      (* ^ *)
| AssertEnd                        (* $ *)
| GroupOpen                        (* ( *)
| GroupClose.                      (* ) *)

Definition regexp : Type := list atom.

(** Length of the longest prefix of [l] inside the class. *)
Fixpoint run (cls : ascii -> bool) (l : list ascii) : nat :=
  match l with
  | [] => 0
  | c :: l' => if cls c then S (run cls l') else 0
  end.

(** The give-back loop of a greedy [+]: try the continuation [k] with
    [n] characters taken, then [n - 1], ... down to one. *)
Fixpoint giveBack {R : Type} (k : nat -> option R) (n : nat) : option R :=
  match n with
  | 0 => None
  | S m =>
      match k n with
      | Some res => Some res
      | None => giveBack k m
      end
  end.

(** [exec r pos rest marks]: match [r] at index [pos], [rest] being the
    input from [pos] on.  Returns the end index and the indices at which
    the parentheses were crossed (most recent first). *)
Fixpoint exec (r : regexp) (pos : nat) (rest : list ascii)
         (marks : list nat) {struct r} : option (nat * list nat) :=
  match r with
  | [] => Some (pos, marks)
  | Char c :: r' =>
      match rest with
      | x :: rest' =>
          if Ascii.eqb x c then exec r' (S pos) rest' marks else None
      | [] => None
      end
  | Plus cls :: r' =>
      giveBack (fun n => exec r' (pos + n) (skipn n rest) marks)
               (run cls rest)
  | AssertStart :: r' =>
      if Nat.eqb pos 0 then exec r' pos rest marks else None
  | AssertEnd :: r' =>
      match rest with
      | [] => exec r' pos rest marks
      | _ :: _ => None
      end
  | GroupOpen :: r' => exec r' pos rest (pos :: marks)
  | GroupClose :: r' => exec r' pos rest (pos :: marks)
  end.

(** A match: its start index, its end index and the parenthesis marks. *)
Record hit : Type := mkHit { index : nat; lastIndex : nat; marks : list nat }.

(** First match starting at or after [pos]. *)
Fixpoint search (r : regexp) (pos : nat) (rest : list ascii) : option hit :=
  match exec r pos rest [] with
  | Some (e, ms) => Some (mkHit pos e ms)
  | None =>
      match rest with
      | [] => None
      | _ :: rest' => search r (S pos) rest'
      end
  end.

(** [r.test(s)] for a regular expression without the [g] flag. *)
Definition test (r : regexp) (s : string) : bool :=
  match search r 0 (list_ascii_of_string s) with
  | Some _ => true
  | None => false
  end.

(** All matches of a [g] regular expression, left to right.  After a
    match ending at [e] the next search starts at [e] (at [e + 1] after
    an empty match); [skip] counts the start positions still to pass
    over. *)
Fixpoint scan (r : regexp) (pos : nat) (rest : list ascii) (skip : nat)
  : list hit :=
  match rest with
  | [] =>
      match skip, exec r pos [] [] with
      | 0, Some (e, ms) => [mkHit pos e ms]
      | _, _ => []
      end
  | _ :: rest' =>
      match skip with
      | S k => scan r (S pos) rest' k
      | 0 =>
          match exec r pos rest [] with
          | Some (e, ms) =>
              mkHit pos e ms :: scan r (S pos) rest' (pred (e - pos))
          | None => scan r (S pos) rest' 0
          end
      end
  end.

(** The match array of a hit: element 0 is the matched text, element 1
    the text of the first capturing group (when there is one). *)
Definition whole (input : list ascii) (h : hit) : string :=
  string_of_list_ascii (JsString.slice (index h) (lastIndex h) input).

Definition group1 (input : list ascii) (h : hit) : option string :=
  match rev (marks h) with
  | o :: c :: _ => Some (string_of_list_ascii (JsString.slice o c input))
  | _ => None
  end.

(** [s.matchAll(r)], each match given as (element 0, element 1). *)
Definition matchAll (r : regexp) (s : string)
  : list (string * option string) :=
  let input := list_ascii_of_string s in
  map (fun h => (whole input h, group1 input h)) (scan r 0 input 0).

End RegExp.

(* ================================================================== *)
(** ** app.constants.ts *)

Module ERROR_MESSAGES.
Definition STUDENT_NOT_FOUND := "Student not found".
Definition TEACHER_NOT_FOUND := "Teacher not found".
Definition INVALID_EMAIL_FORMAT := "Invalid email format".
Definition EMPTY_TEACHER_LIST := "Teacher list cannot be empty".
Definition EMPTY_STUDENT_LIST := "Student list cannot be empty".
Definition DATABASE_ERROR := "Database operation failed".
End ERROR_MESSAGES.

Module VALIDATION_RULES.
Import RegExp.

(** The class [[^\s@]]. *)
Definition notSpaceNorAt (c : ascii) : bool :=
  negb (JsString.isWhiteSpace c) && negb (Ascii.eqb c "@").

(** [/^[^\s@]+@[^\s@]+\.[^\s@]+$/] *)
Definition EMAIL_REGEX : regexp :=
  [AssertStart; Plus notSpaceNorAt; Char "@"; Plus notSpaceNorAt;
   Char "."; Plus notSpaceNorAt; AssertEnd].

(** [/@([^\s@]+@[^\s@]+\.[^\s@]+)/g] *)
Definition MENTION_REGEX : regexp :=
  [Char "@"; GroupOpen; Plus notSpaceNorAt; Char "@"; Plus notSpaceNorAt;
   Char "."; Plus notSpaceNorAt; GroupClose].
End VALIDATION_RULES.

(* ================================================================== *)
(** ** email.utils.ts *)

(** [new Set(xs)] followed by spreading it back into an array: a [Set]
    keeps its elements in insertion order and ignores the insertion of a
    value it already holds. *)
Module JsSet.
Definition has (x : string) (s : list string) : bool :=
  existsb (String.eqb x) s.

Definition add (s : list string) (x : string) : list string :=
  if has x s then s else s ++ [x].

Definition ofArray (xs : list string) : list string :=
  fold_left add xs [].
End JsSet.

Module EmailUtils.

Definition isValidEmail (email : string) : bool :=
  RegExp.test VALIDATION_RULES.EMAIL_REGEX email.

Definition removeDuplicateEmails (emails : list string) : list string :=
  JsSet.ofArray emails.

Definition filterValidEmails (emails : list string) : list string :=
  let uniqueEmails := removeDuplicateEmails emails in
  filter (fun email => isValidEmail email) uniqueEmails.

(** In the loop, [match[1] && isValidEmail(match[1])]: an absent or
    empty capture is falsy. *)
Definition extractMentionedEmails (notification : string) : list string :=
  if String.eqb notification "" then []
  else
    let matches := RegExp.matchAll VALIDATION_RULES.MENTION_REGEX notification in
    let mentionedEmails :=
      flat_map
        (fun m =>
           match snd m with
           | Some g =>
               if negb (String.eqb g "") && isValidEmail g then [g] else []
           | None => []
           end)
        matches in
    removeDuplicateEmails mentionedEmails.

Definition normalizeEmail (email : string) : string :=
  JsString.toLowerCase (JsString.trim email).

Definition normalizeEmails (emails : list string) : list string :=
  removeDuplicateEmails (map (fun email => normalizeEmail email) emails).

End EmailUtils.

(* ================================================================== *)
(** ** Arrays *)

Module JsArray.

(** Ordered insertion by a string key, under code-unit order. *)
Fixpoint insertBy {A : Type} (key : A -> string) (x : A) (l : list A)
  : list A :=
  match l with
  | [] => [x]
  | y :: l' =>
      if String.leb (key x) (key y) then x :: l else y :: insertBy key x l'
  end.

Definition sortBy {A : Type} (key : A -> string) (l : list A) : list A :=
  fold_right (insertBy key) [] l.

(** [xs.sort()] on an array of strings: ascending code-unit order. *)
Definition sort (l : list string) : list string := sortBy (fun s => s) l.

(** [new Set(ids).has(i)] for numbers. *)
Definition hasNumber (i : nat) (ids : list nat) : bool :=
  existsb (Nat.eqb i) ids.

(** Truthiness of an optional number, as in [if (limit)]: [undefined]
    and [0] are falsy. *)
Definition truthy (n : option nat) : bool :=
  match n with
  | Some (S _) => true
  | _ => false
  end.

End JsArray.

(* ================================================================== *)
(** ** Entities, exceptions and the store *)

Module Student.
(** student.entity.ts *)
Record t : Type := mk { id : nat; email : string; suspended : bool }.
End Student.

Module Teacher.
(** The entity [Teacher] (teacher.entity.ts, kept in the sources as the
    second document of src/src/modules/teacher.module.ts): a generated
    numeric [id] ([@PrimaryGeneratedColumn()]), an [email] column that is
    unique ([@Column({ unique: true })]) and the many-to-many relation
    [students] through the join table [teacher_students].  [row] is a row
    of the teachers table. *)
Record row : Type := mkRow { rowId : nat; rowEmail : string }.
(** A teacher entity loaded with [relations: ['students']]. *)
Record t : Type := mk { id : nat; email : string; students : list Student.t }.
End Teacher.

Inductive exception : Type :=
| BadRequestException (message : string)
| NotFoundException (message : string)
| Error (message : string)
| TypeError (message : string).

Inductive result (A : Type) : Type :=
| Ok (value : A)
| Err (e : exception).
Arguments Ok {A} value.
Arguments Err {A} e.

Definition bind {A B : Type} (m : result A) (k : A -> result B) : result B :=
  match m with
  | Ok a => k a
  | Err e => Err e
  end.

(** [p.catch(() => fallback)] *)
Definition catch {A : Type} (m : result A) (fallback : A) : result A :=
  match m with
  | Ok a => Ok a
  | Err _ => Ok fallback
  end.

Notation "x <- m ;; k" := (bind m (fun x => k))
  (at level 61, m at next level, right associativity).

Record Store : Type := mkStore {
  studentTable : list Student.t;
  teacherTable : list Teacher.row;
  (** join table of the many-to-many relation: (teacher id, student id) *)
  teacherStudents : list (nat * nat)
}.

(** The TypeORM repositories, as far as the services call them. *)
Module StudentRepository.

(** [find({ where: { email: In(emails) } })] *)
Definition findByEmailIn (emails : list string) (st : Store)
  : list Student.t :=
  filter (fun s => JsSet.has (Student.email s) emails) (studentTable st).

(** Next value of the auto-increment primary key. *)
Definition nextId (st : Store) : nat :=
  S (list_max (map Student.id (studentTable st))).

(** The rows a batch insert stores for [emails]: consecutive keys from
    [first] on, not suspended. *)
Definition newRows (first : nat) (emails : list string) : list Student.t :=
  map (fun ie => Student.mk (first + fst ie) (snd ie) false)
      (combine (seq 0 (List.length emails)) emails).

(** [save(emails.map(email => create({ email, suspended: false })))]:
    one batch insert, which either stores every row or, when the storage
    layer rejects it ([insertFails]), stores none. *)
Definition saveNew (insertFails : bool) (emails : list string) (st : Store)
  : result (list Student.t) * Store :=
  if insertFails then (Err (Error "QueryFailedError"), st)
  else
    let rows := newRows (nextId st) emails in
    (Ok rows,
     mkStore (studentTable st ++ rows) (teacherTable st) (teacherStudents st)).

(** [update({ email }, { suspended: true })]; [affected] counts the rows
    matched by the criteria. *)
Definition suspendByEmail (email : string) (st : Store) : nat * Store :=
  let hit := fun s => String.eqb (Student.email s) email in
  (List.length (filter hit (studentTable st)),
   mkStore
     (map (fun s =>
             if hit s then Student.mk (Student.id s) (Student.email s) true
             else s)
          (studentTable st))
     (teacherTable st) (teacherStudents st)).

(** The query builder of [getStudentsByEmails]:
    [email IN (...)], optionally [suspended = false], [ORDER BY email]. *)
Definition queryByEmails (emails : list string) (includeSuspended : bool)
           (st : Store) : list Student.t :=
  JsArray.sortBy Student.email
    (filter
       (fun s =>
          JsSet.has (Student.email s) emails
          && (includeSuspended || negb (Student.suspended s)))
       (studentTable st)).

(** [findOne({ where: { email } })] *)
Definition findOneByEmail (email : string) (st : Store) : option Student.t :=
  find (fun s => String.eqb (Student.email s) email) (studentTable st).

(** [LIMIT]/[OFFSET] of a query, each applied only when it was set on
    the builder: the offset is skipped first, then the limit is taken. *)
Definition window {A : Type} (limit offset : option nat) (rows : list A)
  : list A :=
  let rows := match offset with Some m => skipn m rows | None => rows end in
  match limit with Some n => firstn n rows | None => rows end.

(** The query builder of [getActiveStudents]:
    [suspended = false], [ORDER BY email ASC], then the window. *)
Definition queryActive (limit offset : option nat) (st : Store)
  : list Student.t :=
  window limit offset
    (JsArray.sortBy Student.email
       (filter (fun s => negb (Student.suspended s)) (studentTable st))).

(** [getCount()], with [where suspended = :suspended] when set. *)
Definition count (suspended : option bool) (st : Store) : nat :=
  match suspended with
  | Some b =>
      List.length
        (filter (fun s => Bool.eqb (Student.suspended s) b) (studentTable st))
  | None => List.length (studentTable st)
  end.

End StudentRepository.

Module TeacherRepository.

Definition hasEdge (edges : list (nat * nat)) (tid sid : nat) : bool :=
  existsb (fun e => Nat.eqb (fst e) tid && Nat.eqb (snd e) sid) edges.

(** Loading a row with its students: the join over the join table. *)
Definition load (st : Store) (r : Teacher.row) : Teacher.t :=
  Teacher.mk (Teacher.rowId r) (Teacher.rowEmail r)
    (filter (fun s => hasEdge (teacherStudents st) (Teacher.rowId r) (Student.id s))
            (studentTable st)).

(** [findOne({ where: { email }, relations: ['students'] })] *)
Definition findOneByEmail (email : string) (st : Store) : option Teacher.t :=
  option_map (load st)
    (find (fun r => String.eqb (Teacher.rowEmail r) email) (teacherTable st)).

(** [find({ where: { email: In(emails) }, relations: ['students'] })] *)
Definition findByEmailIn (emails : list string) (st : Store)
  : list Teacher.t :=
  map (load st)
      (filter (fun r => JsSet.has (Teacher.rowEmail r) emails)
              (teacherTable st)).

Definition addEdge (edges : list (nat * nat)) (e : nat * nat)
  : list (nat * nat) :=
  if hasEdge edges (fst e) (snd e) then edges else edges ++ [e].

(** [save(teacher)] for a teacher whose own columns are unchanged: the
    join table is brought in line with [teacher.students] (edges to
    students no longer listed are removed, edges to newly listed
    students are inserted). *)
Definition save (t : Teacher.t) (st : Store) : Store :=
  let ids := map Student.id (Teacher.students t) in
  let kept :=
    filter (fun e => negb (Nat.eqb (fst e) (Teacher.id t))
                     || JsArray.hasNumber (snd e) ids)
           (teacherStudents st) in
  mkStore (studentTable st) (teacherTable st)
          (fold_left addEdge (map (fun i => (Teacher.id t, i)) ids) kept).

(** Next value of the auto-increment primary key of teachers. *)
Definition nextId (st : Store) : nat :=
  S (list_max (map Teacher.rowId (teacherTable st))).

(** [save(create({ email }))] inserts one row under the next generated
    key.  The [email] column of the entity is unique
    ([@Column({ unique: true })]): a row with the same e-mail makes the
    insert fail with a duplicate-key error and nothing is stored. *)
Definition insert (email : string) (st : Store) : result Teacher.row * Store :=
  if existsb (fun r => String.eqb (Teacher.rowEmail r) email) (teacherTable st)
  then (Err (Error "QueryFailedError"), st)
  else
    let row := Teacher.mkRow (nextId st) email in
    (Ok row,
     mkStore (studentTable st) (teacherTable st ++ [row]) (teacherStudents st)).

End TeacherRepository.

(* ================================================================== *)
(** ** student.service.ts *)

Record IBatchOperationResult : Type := mkBatch {
  successful : list Student.t;
  (** each entry: the item and its error message *)
  failed : list (string * string);
  totalProcessed : nat
}.

Module StudentService.
Import EmailUtils.

Definition findStudentsByEmails (emails : list string) (st : Store)
  : list Student.t :=
  if Nat.eqb (List.length emails) 0 then []
  else
    let validEmails := filterValidEmails emails in
    if Nat.eqb (List.length validEmails) 0 then []
    else
      let normalizedEmails := normalizeEmails validEmails in
      StudentRepository.findByEmailIn normalizedEmails st.

(** [insertFails] says whether the storage layer rejects the batch insert
    of this call (the creation step fails as a whole).  The [try] block
    covers the look-up of existing rows and the insert; the [catch] block
    runs when the insert is rejected. *)
Definition bulkCreateStudents (insertFails : bool) (emails : list string)
           (st : Store) : IBatchOperationResult * Store :=
  let total := List.length emails in
  if Nat.eqb (List.length emails) 0 then (mkBatch [] [] total, st)
  else
    let validEmails := filterValidEmails emails in
    let invalidEmails := filter (fun email => negb (isValidEmail email)) emails in
    let failed0 :=
      map (fun email => (email, ERROR_MESSAGES.INVALID_EMAIL_FORMAT))
          invalidEmails in
    if Nat.eqb (List.length validEmails) 0 then (mkBatch [] failed0 total, st)
    else
      let normalizedEmails := normalizeEmails validEmails in
      let existingStudents := findStudentsByEmails normalizedEmails st in
      let existingEmailsSet :=
        JsSet.ofArray (map Student.email existingStudents) in
      let newEmails :=
        filter (fun email => negb (JsSet.has email existingEmailsSet))
               normalizedEmails in
      if Nat.ltb 0 (List.length newEmails) then
        match StudentRepository.saveNew insertFails newEmails st with
        | (Ok savedStudents, st') =>
            (mkBatch (existingStudents ++ savedStudents) failed0 total, st')
        | (Err _, st') =>
            (mkBatch existingStudents
               (failed0
                ++ map (fun email => (email, ERROR_MESSAGES.DATABASE_ERROR))
                       normalizedEmails)
               total,
             st')
        end
      else (mkBatch existingStudents failed0 total, st).

Definition suspendStudent (email : string) (st : Store)
  : result unit * Store :=
  let normalizedEmail := normalizeEmail email in
  if negb (isValidEmail normalizedEmail) then
    (Err (Error ERROR_MESSAGES.INVALID_EMAIL_FORMAT), st)
  else
    let '(affected, st') :=
      StudentRepository.suspendByEmail normalizedEmail st in
    if Nat.eqb affected 0 then
      (Err (NotFoundException ERROR_MESSAGES.STUDENT_NOT_FOUND), st')
    else (Ok tt, st').

Definition getStudentsByEmails (emails : list string)
           (includeSuspended : bool) (st : Store) : list Student.t :=
  if Nat.eqb (List.length emails) 0 then []
  else
    let validEmails := filterValidEmails emails in
    if Nat.eqb (List.length validEmails) 0 then []
    else
      let normalizedEmails := normalizeEmails validEmails in
      StudentRepository.queryByEmails normalizedEmails includeSuspended st.

Definition findStudentByEmail (email : string) (st : Store)
  : result (option Student.t) :=
  let normalizedEmail := normalizeEmail email in
  if negb (isValidEmail normalizedEmail) then
    Err (Error ERROR_MESSAGES.INVALID_EMAIL_FORMAT)
  else Ok (StudentRepository.findOneByEmail normalizedEmail st).

(** [if (limit) query.limit(limit); if (offset) query.offset(offset)] *)
Definition getActiveStudents (limit offset : option nat) (st : Store)
  : list Student.t :=
  StudentRepository.queryActive
    (if JsArray.truthy limit then limit else None)
    (if JsArray.truthy offset then offset else None)
    st.

(** [suspended !== undefined] decides whether the filter is set. *)
Definition countStudents (suspended : option bool) (st : Store) : nat :=
  StudentRepository.count suspended st.

End StudentService.

(* ================================================================== *)
(** ** teacher.service.ts *)

Module TeacherService.
Import EmailUtils.

Definition findTeacherByEmail (email : string) (st : Store)
  : result (option Teacher.t) :=
  let normalizedEmail := normalizeEmail email in
  if negb (isValidEmail normalizedEmail) then
    Err (BadRequestException ERROR_MESSAGES.INVALID_EMAIL_FORMAT)
  else Ok (TeacherRepository.findOneByEmail normalizedEmail st).

Definition registerStudentsToTeacher (insertFails : bool)
           (teacherEmail : string) (studentEmails : list string)
           (st : Store) : result unit * Store :=
  if Nat.eqb (List.length studentEmails) 0 then
    (Err (BadRequestException ERROR_MESSAGES.EMPTY_STUDENT_LIST), st)
  else
    let normalizedTeacherEmail := normalizeEmail teacherEmail in
    match findTeacherByEmail normalizedTeacherEmail st with
    | Err e => (Err e, st)
    | Ok None => (Err (NotFoundException ERROR_MESSAGES.TEACHER_NOT_FOUND), st)
    | Ok (Some teacher) =>
        let validStudentEmails := filterValidEmails studentEmails in
        if Nat.eqb (List.length validStudentEmails) 0 then
          (Err (BadRequestException ERROR_MESSAGES.INVALID_EMAIL_FORMAT), st)
        else
          let '(studentsResult, st1) :=
            StudentService.bulkCreateStudents insertFails validStudentEmails st in
          let students := successful studentsResult in
          if Nat.eqb (List.length students) 0 then (Ok tt, st1)
          else
            let existingStudentIds :=
              map Student.id (Teacher.students teacher) in
            let newStudents :=
              filter (fun student =>
                        negb (JsArray.hasNumber (Student.id student)
                                                existingStudentIds))
                     students in
            if Nat.eqb (List.length newStudents) 0 then (Ok tt, st1)
            else
              let updatedTeacher :=
                Teacher.mk (Teacher.id teacher) (Teacher.email teacher)
                           (Teacher.students teacher ++ newStudents) in
              (Ok tt, TeacherRepository.save updatedTeacher st1)
    end.

(** The e-mails of a teacher's students that are not suspended. *)
Definition activeEmails (t : Teacher.t) : list string :=
  map Student.email
      (filter (fun student => negb (Student.suspended student))
              (Teacher.students t)).

Definition getTeacherStudents (teacherEmail : string) (st : Store)
  : result (list string) :=
  teacher <- findTeacherByEmail teacherEmail st ;;
  match teacher with
  | None => Err (NotFoundException ERROR_MESSAGES.TEACHER_NOT_FOUND)
  | Some teacher => Ok (JsArray.sort (activeEmails teacher))
  end.

Definition getCommonStudents (teacherEmails : list string) (st : Store)
  : result (list string) :=
  if Nat.eqb (List.length teacherEmails) 0 then
    Err (BadRequestException ERROR_MESSAGES.EMPTY_TEACHER_LIST)
  else
    let validTeacherEmails := filterValidEmails teacherEmails in
    if Nat.eqb (List.length validTeacherEmails) 0 then
      Err (BadRequestException ERROR_MESSAGES.INVALID_EMAIL_FORMAT)
    else
      let normalizedTeacherEmails := normalizeEmails validTeacherEmails in
      let teachers :=
        TeacherRepository.findByEmailIn normalizedTeacherEmails st in
      if negb (Nat.eqb (List.length teachers)
                       (List.length normalizedTeacherEmails))
      then Ok []
      else if Nat.eqb (List.length teachers) 1 then
        match teachers with
        | teacher0 :: _ => Ok (JsArray.sort (activeEmails teacher0))
        | [] => Err (TypeError "teachers[0] is undefined")
        end
      else
        let studentEmailSets :=
          map (fun teacher => JsSet.ofArray (activeEmails teacher)) teachers in
        match studentEmailSets with
        | firstSet :: others =>
            let commonStudentEmails :=
              filter (fun email =>
                        forallb (fun set => JsSet.has email set) others)
                     firstSet in
            Ok (JsArray.sort commonStudentEmails)
        | [] => Err (TypeError "firstSet is not iterable")
        end.

Definition getNotificationRecipients (teacherEmail notification : string)
           (st : Store) : result (list string) :=
  let normalizedTeacherEmail := normalizeEmail teacherEmail in
  registeredStudents <-
    catch (getTeacherStudents normalizedTeacherEmail st) [] ;;
  let mentionedEmails := extractMentionedEmails notification in
  let mentionedActiveStudents :=
    if Nat.ltb 0 (List.length mentionedEmails) then
      map Student.email
          (StudentService.getStudentsByEmails mentionedEmails false st)
    else [] in
  let allRecipientsSet :=
    JsSet.ofArray (registeredStudents ++ mentionedActiveStudents) in
  Ok (JsArray.sort allRecipientsSet).

Definition suspendStudent (studentEmail : string) (st : Store)
  : result unit * Store :=
  StudentService.suspendStudent studentEmail st.

Definition createTeacher (email : string) (st : Store)
  : result Teacher.t * Store :=
  let normalizedEmail := normalizeEmail email in
  if negb (isValidEmail normalizedEmail) then
    (Err (BadRequestException ERROR_MESSAGES.INVALID_EMAIL_FORMAT), st)
  else
    match TeacherRepository.insert normalizedEmail st with
    | (Ok savedTeacher, st') =>
        (Ok (Teacher.mk (Teacher.rowId savedTeacher)
                        (Teacher.rowEmail savedTeacher) []),
         st')
    | (Err e, st') => (Err e, st')
    end.

End TeacherService.

(* ================================================================== *)
(** ** Vocabulary of the statements *)

(** De-duplication keeping the first occurrence of every value: the
    reference reading of `first-seen order preserved'. *)
Fixpoint firstSeen (xs : list string) : list string :=
  match xs with
  | [] => []
  | x :: xs' => x :: filter (fun y => negb (String.eqb y x)) (firstSeen xs')
  end.

(** A character map that keeps every literal and every class of [r]. *)
Definition respects (f : ascii -> ascii) (a : RegExp.atom) : Prop :=
  match a with
  | RegExp.Char c => forall x, Ascii.eqb (f x) c = Ascii.eqb x c
  | RegExp.Plus cls => forall x, cls (f x) = cls x
  | _ => True
  end.

(** The characters an atom can consume. *)
Definition consumes (a : RegExp.atom) (c : ascii) : Prop :=
  match a with
  | RegExp.Char d => c = d
  | RegExp.Plus cls => cls c = true
  | _ => False
  end.

Definition accepts (r : RegExp.regexp) (c : ascii) : Prop :=
  exists a, In a r /\ consumes a c.

(** The canonical keys of a batch: validated, normalized, distinct. *)
Definition canonical (l : list string) : list string :=
  EmailUtils.normalizeEmails (EmailUtils.filterValidEmails l).

(** A student row, resp. a teacher row, is stored under the e-mail [e]. *)
Definition hasStudent (st : Store) (e : string) : Prop :=
  exists s, In s (studentTable st) /\ Student.email s = e.

Definition hasTeacher (st : Store) (e : string) : Prop :=
  exists r, In r (teacherTable st) /\ Teacher.rowEmail r = e.

(** The unique constraints of the schema on the two e-mail columns
    ([@Column({ unique: true })] on [email] in the entities [Student] and
    [Teacher]). *)
Definition uniqueStudentEmails (st : Store) : Prop :=
  NoDup (map Student.email (studentTable st)).

Definition uniqueTeacherEmails (st : Store) : Prop :=
  NoDup (map Teacher.rowEmail (teacherTable st)).

(** The keys of [keys] under which no student row is stored. *)
Definition missingEmails (keys : list string) (st : Store) : list string :=
  filter (fun e => negb (JsSet.has e (map Student.email (studentTable st))))
         keys.

(** The [failed] entries of a batch for the raw entries that do not pass
    the validator, resp. for [keys] after a storage failure. *)
Definition invalidFailures (emails : list string) : list (string * string) :=
  map (fun email => (email, ERROR_MESSAGES.INVALID_EMAIL_FORMAT))
      (filter (fun email => negb (EmailUtils.isValidEmail email)) emails).

Definition storageFailures (keys : list string) : list (string * string) :=
  map (fun email => (email, ERROR_MESSAGES.DATABASE_ERROR)) keys.

(** The body of [registerStudentsToTeacher] from the point where the
    teacher has been loaded. *)
Definition registerFound (insertFails : bool) (teacher : Teacher.t)
           (studentEmails : list string) (st : Store) : result unit * Store :=
  let validStudentEmails := EmailUtils.filterValidEmails studentEmails in
  if Nat.eqb (List.length validStudentEmails) 0 then
    (Err (BadRequestException ERROR_MESSAGES.INVALID_EMAIL_FORMAT), st)
  else
    let '(studentsResult, st1) :=
      StudentService.bulkCreateStudents insertFails validStudentEmails st in
    let students := successful studentsResult in
    if Nat.eqb (List.length students) 0 then (Ok tt, st1)
    else
      let existingStudentIds := map Student.id (Teacher.students teacher) in
      let newStudents :=
        filter (fun student =>
                  negb (JsArray.hasNumber (Student.id student)
                                          existingStudentIds))
               students in
      if Nat.eqb (List.length newStudents) 0 then (Ok tt, st1)
      else
        let updatedTeacher :=
          Teacher.mk (Teacher.id teacher) (Teacher.email teacher)
                     (Teacher.students teacher ++ newStudents) in
        (Ok tt, TeacherRepository.save updatedTeacher st1).

(** The students a teacher is registered with, as stored. *)
Definition membership (teacherEmail : string) (st : Store)
  : option (list Student.t) :=
  option_map Teacher.students
    (TeacherRepository.findOneByEmail
       (EmailUtils.normalizeEmail teacherEmail) st).

(** [e] is the e-mail of a stored student that is not suspended. *)
Definition activeEmail (st : Store) (e : string) : Prop :=
  exists s, In s (studentTable st)
            /\ Student.suspended s = false /\ Student.email s = e.

(** The e-mails of the stored, not suspended students that a notification
    text mentions. *)
Definition mentionedActive (notification : string) (st : Store)
  : list string :=
  map Student.email
      (StudentService.getStudentsByEmails
         (EmailUtils.extractMentionedEmails notification) false st).

(** Ascending code-unit order of a string key. *)
Definition ascending {A : Type} (key : A -> string) (a b : A) : Prop :=
  String.leb (key a) (key b) = true.

(** The primary key of students is unique. *)
Definition uniqueStudentIds (st : Store) : Prop :=
  NoDup (map Student.id (studentTable st)).

(** [e] is the normalized form of an entry of [l] that passes the
    validator as it stands. *)
Definition requestedKey (l : list string) (e : string) : Prop :=
  exists y, In y l /\ EmailUtils.isValidEmail y = true
            /\ EmailUtils.normalizeEmail y = e.

(** [e] is the e-mail of a stored student that is not suspended and that
    the join table links to the teacher with key [tid]. *)
Definition registeredActive (st : Store) (tid : nat) (e : string) : Prop :=
  exists s, In s (studentTable st)
            /\ In (tid, Student.id s) (teacherStudents st)
            /\ Student.suspended s = false /\ Student.email s = e.

(** The shape [EMAIL_REGEX] describes: a local part, [@], a domain, a
    dot and a last label, each part non-empty and free of white space and
    of [@] (the domain and the last label may hold further dots). *)
Definition addressShape (s : string) : Prop :=
  exists localPart domain label : list ascii,
    list_ascii_of_string s
    = localPart ++ "@"%char :: domain ++ "."%char :: label
    /\ localPart <> [] /\ domain <> [] /\ label <> []
    /\ Forall (fun c => VALIDATION_RULES.notSpaceNorAt c = true)
              (localPart ++ domain ++ label).

(** Stores used to exercise the statements: the class of the
    specification's scenarios. *)
Module Scenario.

Definition school : Store :=
  mkStore
    [Student.mk 1 "studentjon@gmail.com" false;
     Student.mk 2 "studenthon@gmail.com" false;
     Student.mk 3 "studentagnes@gmail.com" false;
     Student.mk 4 "studentmary@gmail.com" true]
    [Teacher.mkRow 1 "teacherken@gmail.com";
     Teacher.mkRow 2 "teacherjoe@gmail.com"]
    [(1, 1); (1, 2); (1, 4); (2, 2); (2, 3); (2, 4)].

End Scenario.

(* ================================================================== *)
(** * Properties *)

(** ** Characters and strings *)

Section StringFacts.
Import JsString.

Lemma toLowerChar_isWhiteSpace (c : ascii) :
  isWhiteSpace (toLowerChar c) = isWhiteSpace c.
Proof. destruct c as [[] [] [] [] [] [] [] []]; reflexivity. Qed.

Lemma toLowerChar_idem (c : ascii) :
  toLowerChar (toLowerChar c) = toLowerChar c.
Proof. destruct c as [[] [] [] [] [] [] [] []]; reflexivity. Qed.

Lemma toLowerChar_eqb_at (c : ascii) :
  Ascii.eqb (toLowerChar c) "@" = Ascii.eqb c "@".
Proof. destruct c as [[] [] [] [] [] [] [] []]; reflexivity. Qed.

Lemma toLowerChar_eqb_dot (c : ascii) :
  Ascii.eqb (toLowerChar c) "." = Ascii.eqb c ".".
Proof. destruct c as [[] [] [] [] [] [] [] []]; reflexivity. Qed.

Lemma dropWhile_map (f : ascii -> ascii) (p : ascii -> bool) l :
  (forall c, p (f c) = p c) ->
  dropWhile p (map f l) = map f (dropWhile p l).
Proof.
  intros Hf; induction l as [|c l IH]; simpl; [reflexivity|].
  rewrite Hf; destruct (p c); [exact IH | reflexivity].
Qed.

Lemma dropWhile_idem (p : ascii -> bool) l :
  dropWhile p (dropWhile p l) = dropWhile p l.
Proof.
  induction l as [|c l IH]; simpl; [reflexivity|].
  destruct (p c) eqn:E; [exact IH | simpl; rewrite E; reflexivity].
Qed.

Lemma dropWhile_none (p : ascii -> bool) l :
  Forall (fun c => p c = false) l -> dropWhile p l = l.
Proof. intros H; destruct H as [|c l Hc _]; simpl; [|rewrite Hc]; reflexivity. Qed.

Lemma dropEnd_cons c l :
  dropEnd (c :: l) =
  match dropEnd l with
  | [] => if isWhiteSpace c then [] else [c]
  | _ :: _ => c :: dropEnd l
  end.
Proof. reflexivity. Qed.

Lemma dropEnd_map (f : ascii -> ascii) l :
  (forall c, isWhiteSpace (f c) = isWhiteSpace c) ->
  dropEnd (map f l) = map f (dropEnd l).
Proof.
  intros Hf; induction l as [|c l IH]; [reflexivity|].
  simpl map; rewrite !dropEnd_cons, IH, Hf.
  destruct (dropEnd l); simpl; [destruct (isWhiteSpace c)|]; reflexivity.
Qed.

Lemma dropEnd_idem l : dropEnd (dropEnd l) = dropEnd l.
Proof.
  induction l as [|c l IH]; [reflexivity|].
  rewrite dropEnd_cons.
  destruct (dropEnd l) as [|d k] eqn:E.
  - destruct (isWhiteSpace c) eqn:W; [reflexivity|].
    rewrite dropEnd_cons; simpl; rewrite W; reflexivity.
  - rewrite dropEnd_cons, IH; reflexivity.
Qed.

Lemma dropEnd_none l :
  Forall (fun c => isWhiteSpace c = false) l -> dropEnd l = l.
Proof.
  induction 1 as [|c l Hc _ IH]; [reflexivity|].
  rewrite dropEnd_cons, IH, Hc; destruct l; reflexivity.
Qed.

(** Trimming the end never uncovers leading white space. *)
Lemma dropWhile_dropEnd l :
  dropWhile isWhiteSpace (dropEnd (dropWhile isWhiteSpace l))
  = dropEnd (dropWhile isWhiteSpace l).
Proof.
  induction l as [|c l IH]; [reflexivity|].
  simpl dropWhile at 2 3.
  destruct (isWhiteSpace c) eqn:W; [exact IH|].
  rewrite dropEnd_cons; destruct (dropEnd l); rewrite ?W; simpl; rewrite W;
    reflexivity.
Qed.

Lemma trimList_idem l : trimList (trimList l) = trimList l.
Proof.
  unfold trimList; rewrite dropWhile_dropEnd; apply dropEnd_idem.
Qed.

Lemma trimList_map_toLowerChar l :
  trimList (map toLowerChar l) = map toLowerChar (trimList l).
Proof.
  unfold trimList.
  rewrite dropWhile_map by apply toLowerChar_isWhiteSpace.
  apply dropEnd_map, toLowerChar_isWhiteSpace.
Qed.

Lemma trimList_none l :
  Forall (fun c => isWhiteSpace c = false) l -> trimList l = l.
Proof.
  intros H; unfold trimList; rewrite (dropWhile_none _ _ H).
  apply dropEnd_none, H.
Qed.

Lemma trim_idem s : trim (trim s) = trim s.
Proof.
  unfold trim; rewrite list_ascii_of_string_of_list_ascii, trimList_idem.
  reflexivity.
Qed.

Lemma toLowerCase_idem s : toLowerCase (toLowerCase s) = toLowerCase s.
Proof.
  unfold toLowerCase; rewrite list_ascii_of_string_of_list_ascii, map_map.
  f_equal; apply map_ext, toLowerChar_idem.
Qed.

Lemma trim_toLowerCase s : trim (toLowerCase s) = toLowerCase (trim s).
Proof.
  unfold trim, toLowerCase.
  rewrite !list_ascii_of_string_of_list_ascii, trimList_map_toLowerChar.
  reflexivity.
Qed.

Lemma trim_none s :
  Forall (fun c => isWhiteSpace c = false) (list_ascii_of_string s) ->
  trim s = s.
Proof.
  intros H; unfold trim; rewrite (trimList_none _ H).
  apply string_of_list_ascii_of_string.
Qed.

End StringFacts.

(** ** Lists *)

Section ListFacts.
Context {A : Type}.

Lemma filter_filter (p q : A -> bool) (l : list A) :
  filter p (filter q l) = filter (fun x => q x && p x) l.
Proof.
  induction l as [|x l IH]; simpl; [reflexivity|].
  destruct (q x); simpl; [destruct (p x)|]; rewrite IH; reflexivity.
Qed.

Lemma filter_true (p : A -> bool) (l : list A) :
  (forall x, In x l -> p x = true) -> filter p l = l.
Proof.
  induction l as [|x l IH]; intros H; simpl; [reflexivity|].
  rewrite (H x (or_introl eq_refl)), IH; [reflexivity|].
  intros y Hy; apply H; right; exact Hy.
Qed.

Lemma filter_false (p : A -> bool) (l : list A) :
  (forall x, In x l -> p x = false) -> filter p l = [].
Proof.
  induction l as [|x l IH]; intros H; simpl; [reflexivity|].
  rewrite (H x (or_introl eq_refl)); apply IH.
  intros y Hy; apply H; right; exact Hy.
Qed.

Lemma length_zero_eqb (l : list A) :
  Nat.eqb (List.length l) 0 = true <-> l = [].
Proof. destruct l; simpl; split; congruence. Qed.

End ListFacts.

(** ** Insertion-ordered sets *)

Section SetFacts.
Import JsSet.

Lemma has_true_iff x s : has x s = true <-> In x s.
Proof.
  unfold has; rewrite existsb_exists; split.
  - intros (y & Hy & E); apply String.eqb_eq in E; subst; exact Hy.
  - intros H; exists x; split; [exact H | apply String.eqb_refl].
Qed.

Lemma has_false_iff x s : has x s = false <-> ~ In x s.
Proof.
  rewrite <- has_true_iff; destruct (has x s); split; intros; congruence.
Qed.

Lemma has_ext x s s' :
  (forall y, In y s <-> In y s') -> has x s = has x s'.
Proof.
  intros H; destruct (has x s') eqn:E.
  - apply has_true_iff, H, has_true_iff, E.
  - apply has_false_iff; intros Hin; apply H, has_true_iff in Hin; congruence.
Qed.

Lemma fold_add_spec xs : forall acc,
  fold_left add xs acc
  = acc ++ filter (fun y => negb (has y acc)) (firstSeen xs).
Proof.
  induction xs as [|x xs IH]; intros acc; simpl.
  - symmetry; apply app_nil_r.
  - rewrite IH; unfold add; destruct (has x acc) eqn:E; simpl.
    + f_equal; rewrite filter_filter; apply filter_ext.
      intros y; destruct (String.eqb_spec y x) as [->|]; simpl;
        [rewrite E|]; reflexivity.
    + rewrite <- app_assoc; simpl; do 2 f_equal.
      rewrite filter_filter; apply filter_ext; intros y.
      unfold has; rewrite existsb_app; simpl.
      rewrite orb_false_r, negb_orb; apply andb_comm.
Qed.

(** [[...new Set(xs)]] keeps the first occurrence of every value. *)
Lemma ofArray_firstSeen xs : ofArray xs = firstSeen xs.
Proof.
  unfold ofArray; rewrite fold_add_spec; simpl.
  apply filter_true; reflexivity.
Qed.

End SetFacts.

Section FirstSeenFacts.

Lemma firstSeen_In x xs : In x (firstSeen xs) <-> In x xs.
Proof.
  induction xs as [|y xs IH]; simpl; [tauto|].
  rewrite filter_In, IH, negb_true_iff, String.eqb_neq.
  destruct (string_dec y x) as [->|]; [tauto|].
  split; [tauto|]; intros [?|?]; [tauto|]; right; split; congruence.
Qed.

Lemma firstSeen_NoDup xs : NoDup (firstSeen xs).
Proof.
  induction xs as [|y xs IH]; simpl; constructor.
  - rewrite filter_In, String.eqb_refl; simpl; intros []; discriminate.
  - apply NoDup_filter, IH.
Qed.

Lemma firstSeen_length xs : List.length (firstSeen xs) <= List.length xs.
Proof.
  induction xs as [|y xs IH]; simpl; [lia|].
  pose proof (filter_length_le (fun z => negb (String.eqb z y)) (firstSeen xs)).
  lia.
Qed.

Lemma firstSeen_fixed xs : NoDup xs -> firstSeen xs = xs.
Proof.
  induction 1 as [|y xs Hy _ IH]; simpl; [reflexivity|].
  rewrite IH; f_equal; apply filter_true.
  intros z Hz; apply negb_true_iff, String.eqb_neq; congruence.
Qed.

Lemma firstSeen_filter (p : string -> bool) xs :
  firstSeen (filter p xs) = filter p (firstSeen xs).
Proof.
  induction xs as [|y xs IH]; simpl; [reflexivity|].
  destruct (p y) eqn:E; simpl; rewrite IH, !filter_filter.
  - f_equal; apply filter_ext; intros z; apply andb_comm.
  - apply filter_ext_in; intros z _.
    destruct (String.eqb_spec z y) as [->|]; simpl;
      [rewrite E; reflexivity | reflexivity].
Qed.

End FirstSeenFacts.

(** ** Regular expressions *)

Section RegExpFacts.
Import RegExp.

Lemma giveBack_ext {R : Type} (k k' : nat -> option R) n :
  (forall m, k m = k' m) -> giveBack k n = giveBack k' n.
Proof.
  intros H; induction n as [|n IH]; simpl; [reflexivity|].
  rewrite H, IH; reflexivity.
Qed.

Lemma giveBack_Some {R : Type} (k : nat -> option R) n res :
  giveBack k n = Some res -> exists m, 1 <= m <= n /\ k m = Some res.
Proof.
  induction n as [|n IH]; simpl; [discriminate|].
  destruct (k (S n)) eqn:E.
  - intros [= <-]; exists (S n); split; [lia | exact E].
  - intros H; destruct (IH H) as (m & ? & ?); exists m; split; [lia | assumption].
Qed.

Lemma run_map (f : ascii -> ascii) cls l :
  (forall c, cls (f c) = cls c) -> run cls (map f l) = run cls l.
Proof.
  intros H; induction l as [|c l IH]; simpl; [reflexivity|].
  rewrite H, IH; reflexivity.
Qed.

Lemma run_firstn cls l m :
  m <= run cls l -> Forall (fun c => cls c = true) (firstn m l).
Proof.
  revert m; induction l as [|c l IH]; intros m Hm; simpl in *.
  - rewrite firstn_nil; constructor.
  - destruct m as [|m]; [constructor|]; simpl.
    destruct (cls c) eqn:E; [|lia].
    constructor; [exact E | apply IH; lia].
Qed.

Lemma exec_map f r :
  Forall (respects f) r ->
  forall pos rest ms, exec r pos (map f rest) ms = exec r pos rest ms.
Proof.
  induction 1 as [|a r Ha _ IH]; intros pos rest ms; [reflexivity|].
  destruct a; simpl in *.
  - destruct rest as [|x rest]; simpl; [reflexivity|].
    rewrite Ha; destruct (Ascii.eqb x c); [apply IH | reflexivity].
  - rewrite (run_map _ _ _ Ha); apply giveBack_ext; intros m.
    rewrite skipn_map; apply IH.
  - destruct (Nat.eqb pos 0); [apply IH | reflexivity].
  - destruct rest; simpl; [apply (IH pos []) | reflexivity].
  - apply IH.
  - apply IH.
Qed.

Lemma search_map f r :
  Forall (respects f) r ->
  forall rest pos, search r pos (map f rest) = search r pos rest.
Proof.
  intros H; induction rest as [|x rest IH]; intros pos.
  - reflexivity.
  - pose proof (exec_map f r H pos (x :: rest) []) as E.
    simpl in *; rewrite E, IH; reflexivity.
Qed.

Lemma accepts_cons a r c : accepts r c -> accepts (a :: r) c.
Proof. intros (b & ? & ?); exists b; split; [right|]; assumption. Qed.

(** A match that passes [$] has consumed the whole rest of the input,
    character by character through the atoms. *)
Lemma exec_to_end r :
  In AssertEnd r ->
  forall pos rest ms res,
    exec r pos rest ms = Some res -> Forall (accepts r) rest.
Proof.
  induction r as [|a r IH]; intros Hend pos rest ms res; [destruct Hend|].
  assert (Htail : a <> AssertEnd ->
                  forall pos rest ms res,
                    exec r pos rest ms = Some res ->
                    Forall (accepts (a :: r)) rest).
  { intros Ha p l m0 r0 E.
    destruct Hend as [->|Hend]; [congruence|].
    eapply Forall_impl; [apply accepts_cons | eapply IH; eassumption]. }
  destruct a; simpl.
  - destruct rest as [|x rest]; [discriminate|].
    destruct (Ascii.eqb_spec x c) as [->|]; [|discriminate].
    intros E; constructor.
    + exists (Char c); split; [left|]; reflexivity.
    + eapply Htail; [discriminate | exact E].
  - intros E; apply giveBack_Some in E; destruct E as (m & Hm & E).
    rewrite <- (firstn_skipn m rest); apply Forall_app; split.
    + eapply Forall_impl; [|apply (run_firstn cls rest m); lia].
      intros c Hc; exists (Plus cls); split; [left; reflexivity | exact Hc].
    + eapply Htail; [discriminate | exact E].
  - destruct (Nat.eqb pos 0); [|discriminate].
    apply Htail; discriminate.
  - destruct rest; [constructor | discriminate].
  - apply Htail; discriminate.
  - apply Htail; discriminate.
Qed.

(** A regular expression that starts with [^] matches at index 0 only. *)
Lemma search_anchored r rest : forall pos,
  search (AssertStart :: r) (S pos) rest = None.
Proof.
  induction rest as [|x rest IH]; intros pos; simpl; [reflexivity|].
  apply IH.
Qed.

End RegExpFacts.

(** ** E-mail utilities *)

Section EmailFacts.
Import JsString RegExp VALIDATION_RULES EmailUtils.

Lemma toLowerChar_respects_EMAIL_REGEX :
  Forall (respects toLowerChar) EMAIL_REGEX.
Proof.
  repeat constructor; intros x; unfold notSpaceNorAt;
    rewrite ?toLowerChar_isWhiteSpace, ?toLowerChar_eqb_at,
      ?toLowerChar_eqb_dot; reflexivity.
Qed.

(** Validity does not depend on letter case. *)
Lemma isValidEmail_toLowerCase s :
  isValidEmail (toLowerCase s) = isValidEmail s.
Proof.
  unfold isValidEmail, test, toLowerCase.
  rewrite list_ascii_of_string_of_list_ascii.
  rewrite (search_map _ _ toLowerChar_respects_EMAIL_REGEX); reflexivity.
Qed.

(** A valid address holds no white space at all. *)
Lemma isValidEmail_no_space s :
  isValidEmail s = true ->
  Forall (fun c => isWhiteSpace c = false) (list_ascii_of_string s).
Proof.
  unfold isValidEmail, test.
  set (l := list_ascii_of_string s).
  destruct (search EMAIL_REGEX 0 l) as [h|] eqn:E; [intros _|discriminate].
  assert (Hex : exists res, exec EMAIL_REGEX 0 l [] = Some res).
  { destruct l as [|x l']; cbn [search] in E.
    - destruct (exec EMAIL_REGEX 0 [] []) as [res|]; [eauto|discriminate].
    - destruct (exec EMAIL_REGEX 0 (x :: l') []) as [res|]; [eauto|].
      unfold EMAIL_REGEX in E; rewrite search_anchored in E; discriminate. }
  destruct Hex as (res & Hex).
  eapply Forall_impl; [|eapply exec_to_end; [|exact Hex]].
  - intros c (a & Ha & Hc).
    unfold EMAIL_REGEX in Ha; simpl in Ha.
    repeat (destruct Ha as [<-|Ha]; simpl in Hc;
            [first [ contradiction
                   | subst c; reflexivity
                   | unfold notSpaceNorAt in Hc;
                     apply andb_true_iff in Hc; destruct Hc as [Hc _];
                     apply negb_true_iff in Hc; exact Hc ] |]).
    destruct Ha.
  - unfold EMAIL_REGEX; simpl; tauto.
Qed.

Lemma isValidEmail_trim s : isValidEmail s = true -> trim s = s.
Proof. intros H; apply trim_none, isValidEmail_no_space, H. Qed.

Lemma normalizeEmail_valid s :
  isValidEmail s = true -> normalizeEmail s = toLowerCase s.
Proof. intros H; unfold normalizeEmail; rewrite isValidEmail_trim; auto. Qed.

Lemma isValidEmail_normalizeEmail s :
  isValidEmail s = true -> isValidEmail (normalizeEmail s) = true.
Proof.
  intros H; rewrite normalizeEmail_valid, isValidEmail_toLowerCase; exact H.
Qed.

Lemma normalizeEmail_idem s :
  normalizeEmail (normalizeEmail s) = normalizeEmail s.
Proof.
  unfold normalizeEmail.
  rewrite trim_toLowerCase, trim_idem; apply toLowerCase_idem.
Qed.

Lemma normalizeEmail_case a b :
  toLowerCase a = toLowerCase b -> normalizeEmail a = normalizeEmail b.
Proof.
  intros H; unfold normalizeEmail; rewrite <- !trim_toLowerCase, H.
  reflexivity.
Qed.

Lemma isValidEmail_case a b :
  toLowerCase a = toLowerCase b -> isValidEmail a = isValidEmail b.
Proof.
  intros H.
  rewrite <- (isValidEmail_toLowerCase a), <- (isValidEmail_toLowerCase b), H.
  reflexivity.
Qed.

Lemma removeDuplicateEmails_In x l :
  In x (removeDuplicateEmails l) <-> In x l.
Proof.
  unfold removeDuplicateEmails; rewrite ofArray_firstSeen.
  apply firstSeen_In.
Qed.

Lemma removeDuplicateEmails_NoDup l : NoDup (removeDuplicateEmails l).
Proof.
  unfold removeDuplicateEmails; rewrite ofArray_firstSeen.
  apply firstSeen_NoDup.
Qed.

Lemma removeDuplicateEmails_length l :
  List.length (removeDuplicateEmails l) <= List.length l.
Proof.
  unfold removeDuplicateEmails; rewrite ofArray_firstSeen.
  apply firstSeen_length.
Qed.

Lemma removeDuplicateEmails_fixed l :
  NoDup l -> removeDuplicateEmails l = l.
Proof.
  unfold removeDuplicateEmails; rewrite ofArray_firstSeen.
  apply firstSeen_fixed.
Qed.

Lemma filterValidEmails_In x l :
  In x (filterValidEmails l) <-> In x l /\ isValidEmail x = true.
Proof.
  unfold filterValidEmails; rewrite filter_In, removeDuplicateEmails_In.
  reflexivity.
Qed.

Lemma filterValidEmails_NoDup l : NoDup (filterValidEmails l).
Proof. apply NoDup_filter, removeDuplicateEmails_NoDup. Qed.

Lemma filterValidEmails_length l :
  List.length (filterValidEmails l) <= List.length l.
Proof.
  unfold filterValidEmails.
  etransitivity; [apply filter_length_le | apply removeDuplicateEmails_length].
Qed.

Lemma filterValidEmails_fixed l :
  NoDup l -> (forall x, In x l -> isValidEmail x = true) ->
  filterValidEmails l = l.
Proof.
  intros Hnd Hv; unfold filterValidEmails.
  rewrite (removeDuplicateEmails_fixed _ Hnd); apply filter_true, Hv.
Qed.

Lemma normalizeEmails_In x l :
  In x (normalizeEmails l) <-> exists y, In y l /\ normalizeEmail y = x.
Proof.
  unfold normalizeEmails; rewrite removeDuplicateEmails_In, in_map_iff.
  split; intros (y & ? & ?); exists y; tauto.
Qed.

Lemma normalizeEmails_NoDup l : NoDup (normalizeEmails l).
Proof. apply removeDuplicateEmails_NoDup. Qed.

Lemma normalizeEmails_length l :
  List.length (normalizeEmails l) <= List.length l.
Proof.
  unfold normalizeEmails.
  etransitivity; [apply removeDuplicateEmails_length|].
  rewrite length_map; reflexivity.
Qed.

Lemma normalizeEmails_normalized x l :
  In x (normalizeEmails l) -> normalizeEmail x = x.
Proof.
  rewrite normalizeEmails_In; intros (y & _ & <-); apply normalizeEmail_idem.
Qed.

Lemma normalizeEmails_fixed l :
  NoDup l -> (forall x, In x l -> normalizeEmail x = x) ->
  normalizeEmails l = l.
Proof.
  intros Hnd Hn; unfold normalizeEmails.
  rewrite (map_ext_in _ (fun x => x) l) by exact Hn.
  rewrite map_id.
  apply removeDuplicateEmails_fixed, Hnd.
Qed.

Lemma canonical_In x l :
  In x (canonical l) <->
  exists y, In y l /\ isValidEmail y = true /\ normalizeEmail y = x.
Proof.
  unfold canonical; rewrite normalizeEmails_In; split.
  - intros (y & Hy & E); apply filterValidEmails_In in Hy.
    exists y; tauto.
  - intros (y & Hy & Hv & E); exists y; split; [|exact E].
    apply filterValidEmails_In; tauto.
Qed.

Lemma canonical_valid x l : In x (canonical l) -> isValidEmail x = true.
Proof.
  rewrite canonical_In; intros (y & _ & Hv & <-).
  apply isValidEmail_normalizeEmail, Hv.
Qed.

(** Running the pipeline again on its own output changes nothing. *)
Lemma filterValidEmails_canonical l :
  filterValidEmails (canonical l) = canonical l.
Proof.
  apply filterValidEmails_fixed; [apply normalizeEmails_NoDup|].
  intros x; apply canonical_valid.
Qed.

Lemma normalizeEmails_canonical l :
  normalizeEmails (canonical l) = canonical l.
Proof.
  apply normalizeEmails_fixed; [apply normalizeEmails_NoDup|].
  intros x; apply normalizeEmails_normalized.
Qed.

Lemma canonical_idem l : canonical (canonical l) = canonical l.
Proof.
  unfold canonical at 1.
  rewrite filterValidEmails_canonical; apply normalizeEmails_canonical.
Qed.

Lemma canonical_nil_iff l : canonical l = [] <-> filterValidEmails l = [].
Proof.
  split; intros H.
  - destruct (filterValidEmails l) as [|y k] eqn:E; [reflexivity|].
    assert (Hin : In (normalizeEmail y) (canonical l)).
    { unfold canonical; rewrite E; apply normalizeEmails_In.
      exists y; split; [left|]; reflexivity. }
    rewrite H in Hin; destruct Hin.
  - unfold canonical; rewrite H; reflexivity.
Qed.

End EmailFacts.

(* ================================================================== *)
(** * The e-mail utilities against their specification *)

Section EmailClaims.
Import EmailUtils.

(** Every address returned by the mention extractor passes the validator,
    and no address is returned twice. *)
Lemma extractMentionedEmails_valid_NoDup text :
  NoDup (extractMentionedEmails text) /\
  forall e, In e (extractMentionedEmails text) -> isValidEmail e = true.
Proof.
  unfold extractMentionedEmails.
  destruct (String.eqb text ""); [split; [constructor | intros e []]|].
  split; [apply removeDuplicateEmails_NoDup|].
  intros e He; apply removeDuplicateEmails_In, in_flat_map in He.
  destruct He as ((w & [g|]) & _ & He); simpl in He; [|destruct He].
  destruct (negb (String.eqb g "") && isValidEmail g) eqn:E; [|destruct He].
  destruct He as [<-|[]]; apply andb_true_iff in E; tauto.
Qed.

(** C2 (the code departs from the claim): on two mentions separated only
    by a comma, [extractMentionedEmails] does return two addresses, but
    the comma belongs to the class [[^\s@]] and stays inside the first
    one; likewise the [!] that ends the notification of the service's own
    test stays inside the last address.  Punctuation does not terminate a
    match. *)
Theorem extractMentionedEmails_keeps_punctuation :
  extractMentionedEmails "@a@b.c,@d@e.f" = ["a@b.c,"; "d@e.f"] /\
  extractMentionedEmails "Hello @student1@test.com and @student2@test.com!"
  = ["student1@test.com"; "student2@test.com!"].
Proof. split; vm_compute; reflexivity. Qed.

(** C3, as stated, fails: two spellings of one address that differ in
    letter case both survive [filterValidEmails], and they are equal after
    normalization. *)
Lemma filterValidEmails_keeps_case_variants :
  ~ (List.length (filterValidEmails ["Student@Test.com"; "student@test.com"]) <= 2
     /\ NoDup (map normalizeEmail
                   (filterValidEmails ["Student@Test.com"; "student@test.com"]))
     /\ List.length (normalizeEmails ["Student@Test.com"; "student@test.com"]) <= 2
     /\ NoDup (map normalizeEmail
                   (normalizeEmails ["Student@Test.com"; "student@test.com"]))).
Proof.
  intros (_ & H & _).
  vm_compute in H.
  inversion H as [|x l Hx _]; subst.
  apply Hx; left; reflexivity.
Qed.

(** C3 (amended): neither [filterValidEmails] nor [normalizeEmails] grows
    its input; the output of [normalizeEmails] holds no two entries equal
    after normalization; the output of [filterValidEmails] holds no two
    identical strings (it compares the raw strings). *)
Theorem filterValidEmails_normalizeEmails_bounds (l : list string) :
  List.length (filterValidEmails l) <= List.length l
  /\ NoDup (filterValidEmails l)
  /\ List.length (normalizeEmails l) <= List.length l
  /\ NoDup (map normalizeEmail (normalizeEmails l)).
Proof.
  split; [apply filterValidEmails_length|].
  split; [apply filterValidEmails_NoDup|].
  split; [apply normalizeEmails_length|].
  rewrite (map_ext_in normalizeEmail (fun x => x)).
  - rewrite map_id; apply normalizeEmails_NoDup.
  - intros x; apply normalizeEmails_normalized.
Qed.

(** C4, as stated, fails: an entry that is valid once trimmed is not kept,
    because the validator sees the raw entry. *)
Lemma filterValidEmails_drops_padded_entry :
  isValidEmail (normalizeEmail " a@b.c ") = true
  /\ ~ In " a@b.c " (filterValidEmails [" a@b.c "]).
Proof. split; [vm_compute; reflexivity | vm_compute; tauto]. Qed.

(** C4 (amended): [filterValidEmails] removes repeated strings keeping
    first-seen order, then keeps exactly the entries that pass
    [isValidEmail] as they stand; nothing is trimmed or lower-cased, so
    whatever is kept is free of surrounding white space already. *)
Theorem filterValidEmails_spec (l : list string) :
  filterValidEmails l = filter isValidEmail (firstSeen l)
  /\ filterValidEmails l = firstSeen (filter isValidEmail l)
  /\ (forall x, In x (filterValidEmails l) <-> In x l /\ isValidEmail x = true)
  /\ (forall x, In x (filterValidEmails l) -> JsString.trim x = x).
Proof.
  assert (E : filterValidEmails l = filter isValidEmail (firstSeen l)).
  { unfold filterValidEmails, removeDuplicateEmails.
    rewrite ofArray_firstSeen; reflexivity. }
  split; [exact E|].
  split; [rewrite firstSeen_filter; exact E|].
  split; [intros x; apply filterValidEmails_In|].
  intros x Hx; apply isValidEmail_trim.
  apply filterValidEmails_In in Hx; tauto.
Qed.

End EmailClaims.

(* ================================================================== *)
(** * The student service *)

Section StudentFacts.
Import EmailUtils StudentService.

Lemma suspendByEmail_affected email st :
  fst (StudentRepository.suspendByEmail email st) = 0 <-> ~ hasStudent st email.
Proof.
  unfold StudentRepository.suspendByEmail, hasStudent; simpl.
  rewrite List.length_zero_iff_nil; split.
  - intros E (s & Hs & He).
    assert (Hin : In s (filter (fun s => String.eqb (Student.email s) email)
                               (studentTable st))).
    { apply filter_In; split; [exact Hs | apply String.eqb_eq, He]. }
    rewrite E in Hin; destruct Hin.
  - intros H; apply filter_false; intros s Hs.
    apply String.eqb_neq; intros He; apply H; exists s; tauto.
Qed.

Lemma suspendByEmail_hasStudent email e st :
  hasStudent (snd (StudentRepository.suspendByEmail email st)) e
  <-> hasStudent st e.
Proof.
  unfold StudentRepository.suspendByEmail, hasStudent; simpl; split.
  - intros (s & Hs & He); apply in_map_iff in Hs.
    destruct Hs as (s0 & E & Hs0); exists s0; split; [exact Hs0|].
    destruct (String.eqb (Student.email s0) email); subst; reflexivity.
  - intros (s & Hs & He).
    eexists; split; [apply in_map_iff; exists s; split; [reflexivity|exact Hs]|].
    destruct (String.eqb (Student.email s) email); simpl; exact He.
Qed.

Lemma suspendByEmail_suspended email st s :
  In s (studentTable (snd (StudentRepository.suspendByEmail email st))) ->
  Student.email s = email -> Student.suspended s = true.
Proof.
  unfold StudentRepository.suspendByEmail; simpl; intros Hs He.
  apply in_map_iff in Hs; destruct Hs as (s0 & E & _).
  destruct (String.eqb_spec (Student.email s0) email) as [|N]; subst;
    [reflexivity | contradiction].
Qed.

(** Suspending twice stores what suspending once stores. *)
Lemma suspendByEmail_idem email st :
  snd (StudentRepository.suspendByEmail email
         (snd (StudentRepository.suspendByEmail email st)))
  = snd (StudentRepository.suspendByEmail email st).
Proof.
  unfold StudentRepository.suspendByEmail; simpl; f_equal.
  rewrite map_map; apply map_ext; intros s.
  destruct (String.eqb (Student.email s) email) eqn:E; simpl; rewrite E;
    reflexivity.
Qed.

(** The teacher service hands suspension over unchanged. *)
Lemma TeacherService_suspendStudent_delegates email st :
  TeacherService.suspendStudent email st = suspendStudent email st.
Proof. reflexivity. Qed.

(** A malformed address is rejected before the store is consulted. *)
Lemma suspendStudent_invalid email st :
  isValidEmail (normalizeEmail email) = false ->
  suspendStudent email st
  = (Err (Error ERROR_MESSAGES.INVALID_EMAIL_FORMAT), st).
Proof. intros Hv; unfold suspendStudent; rewrite Hv; reflexivity. Qed.

(** C5: for a well-formed address, [suspendStudent] fails with
    [NotFoundException] exactly when no student row is stored under the
    normalized address; when one is, the call succeeds, a second call
    succeeds as well and leaves the store as the first call left it, the
    student being suspended. *)
Theorem suspendStudent_NotFound_iff_and_repeatable (email : string) (st : Store) :
  isValidEmail (normalizeEmail email) = true ->
  (fst (suspendStudent email st)
   = Err (NotFoundException ERROR_MESSAGES.STUDENT_NOT_FOUND)
   <-> ~ hasStudent st (normalizeEmail email))
  /\ (hasStudent st (normalizeEmail email) ->
      let st1 := snd (suspendStudent email st) in
      fst (suspendStudent email st) = Ok tt
      /\ fst (suspendStudent email st1) = Ok tt
      /\ snd (suspendStudent email st1) = st1
      /\ forall s, In s (studentTable st1) ->
                   Student.email s = normalizeEmail email ->
                   Student.suspended s = true).
Proof.
  intros Hv.
  unfold suspendStudent; rewrite Hv; simpl negb.
  cbv iota.
  pose proof (suspendByEmail_affected (normalizeEmail email) st) as Haff.
  pose proof (suspendByEmail_hasStudent (normalizeEmail email)
                (normalizeEmail email) st) as Hkeep.
  pose proof (suspendByEmail_idem (normalizeEmail email) st) as Hidem.
  pose proof (suspendByEmail_suspended (normalizeEmail email) st) as Hsus.
  destruct (StudentRepository.suspendByEmail (normalizeEmail email) st)
    as [affected st1] eqn:E1; cbn [fst snd] in *.
  split.
  - rewrite <- Haff.
    destruct affected; cbn [Nat.eqb fst]; split; intros H; congruence.
  - intros Hex.
    destruct affected as [|n]; [exfalso; apply (proj1 Haff); auto|].
    cbn [Nat.eqb fst snd].
    pose proof (suspendByEmail_affected (normalizeEmail email) st1) as Haff1.
    destruct (StudentRepository.suspendByEmail (normalizeEmail email) st1)
      as [affected1 st2] eqn:E2; cbn [fst snd] in *.
    destruct affected1 as [|m];
      [exfalso; apply (proj1 Haff1); [reflexivity | apply Hkeep, Hex]|].
    cbn [Nat.eqb fst snd]; repeat split; auto.
Qed.

Lemma suspendStudent_NotFound_iff_and_repeatable_witness :
  isValidEmail (normalizeEmail " StudentJon@gmail.com") = true
  /\ hasStudent Scenario.school (normalizeEmail " StudentJon@gmail.com")
  /\ fst (suspendStudent " StudentJon@gmail.com"
            (snd (suspendStudent " StudentJon@gmail.com" Scenario.school)))
     = Ok tt.
Proof.
  assert (Hv : isValidEmail (normalizeEmail " StudentJon@gmail.com") = true)
    by (vm_compute; reflexivity).
  assert (Hs : hasStudent Scenario.school (normalizeEmail " StudentJon@gmail.com")).
  { exists (Student.mk 1 "studentjon@gmail.com" false); split;
      [left; reflexivity | vm_compute; reflexivity]. }
  split; [exact Hv|]; split; [exact Hs|].
  exact (proj1 (proj2 (proj2 (suspendStudent_NotFound_iff_and_repeatable
                                " StudentJon@gmail.com" Scenario.school Hv) Hs))).
Defined.

End StudentFacts.

Section BulkCreateFacts.
Import EmailUtils StudentService.

Lemma newRows_emails first emails :
  map Student.email (StudentRepository.newRows first emails) = emails.
Proof.
  unfold StudentRepository.newRows; rewrite map_map; simpl.
  generalize 0 as k; induction emails as [|e emails IH]; intros k; simpl;
    [reflexivity | rewrite IH; reflexivity].
Qed.

Lemma newRows_nil_iff first emails :
  StudentRepository.newRows first emails = [] <-> emails = [].
Proof.
  split; intros H.
  - rewrite <- (newRows_emails first emails), H; reflexivity.
  - subst; reflexivity.
Qed.

Lemma findByEmailIn_nil st : StudentRepository.findByEmailIn [] st = [].
Proof. apply filter_false; reflexivity. Qed.

Lemma findStudentsByEmails_canonical l st :
  findStudentsByEmails (canonical l) st
  = StudentRepository.findByEmailIn (canonical l) st.
Proof.
  unfold findStudentsByEmails.
  rewrite filterValidEmails_canonical, normalizeEmails_canonical.
  destruct (canonical l); simpl; [symmetry; apply findByEmailIn_nil | reflexivity].
Qed.

Lemma newEmails_missing keys st :
  filter (fun email =>
            negb (JsSet.has email
                    (JsSet.ofArray
                       (map Student.email
                            (StudentRepository.findByEmailIn keys st)))))
         keys
  = missingEmails keys st.
Proof.
  unfold missingEmails; apply filter_ext_in; intros e He; f_equal.
  apply Bool.eq_true_iff_eq.
  rewrite !has_true_iff, ofArray_firstSeen, firstSeen_In, !in_map_iff.
  unfold StudentRepository.findByEmailIn; split.
  - intros (s & E & Hs); apply filter_In in Hs; exists s; tauto.
  - intros (s & E & Hs); exists s; split; [exact E|].
    apply filter_In; split; [exact Hs|].
    apply has_true_iff; rewrite E; exact He.
Qed.

(** What [bulkCreateStudents] does once some entry is valid: nothing to
    insert, an insert that is rejected, or an insert that goes through. *)
Lemma bulkCreateStudents_cases insertFails l st :
  filterValidEmails l <> [] ->
  bulkCreateStudents insertFails l st
  = let keys := canonical l in
    let existing := StudentRepository.findByEmailIn keys st in
    let rows :=
      StudentRepository.newRows (StudentRepository.nextId st)
                                (missingEmails keys st) in
    match missingEmails keys st with
    | [] => (mkBatch existing (invalidFailures l) (List.length l), st)
    | _ :: _ =>
        if insertFails then
          (mkBatch existing (invalidFailures l ++ storageFailures keys)
                   (List.length l), st)
        else
          (mkBatch (existing ++ rows) (invalidFailures l) (List.length l),
           mkStore (studentTable st ++ rows) (teacherTable st)
                   (teacherStudents st))
    end.
Proof.
  intros Hv; unfold bulkCreateStudents.
  assert (Hl : l <> []) by (intros ->; apply Hv; reflexivity).
  destruct (Nat.eqb (List.length l) 0) eqn:E0;
    [apply length_zero_eqb in E0; contradiction|].
  destruct (Nat.eqb (List.length (filterValidEmails l)) 0) eqn:E1;
    [apply length_zero_eqb in E1; contradiction|].
  fold (canonical l); rewrite findStudentsByEmails_canonical, newEmails_missing.
  cbv zeta; fold (invalidFailures l); fold (storageFailures (canonical l)).
  destruct (missingEmails (canonical l) st) as [|e m] eqn:Em; [reflexivity|].
  cbn [List.length Nat.ltb Nat.leb].
  unfold StudentRepository.saveNew; destruct insertFails; reflexivity.
Qed.

Lemma missingEmails_after_insert keys st first tt j :
  missingEmails keys
    (mkStore (studentTable st
              ++ StudentRepository.newRows first (missingEmails keys st))
             tt j)
  = [].
Proof.
  unfold missingEmails at 1; cbn [studentTable].
  apply filter_false; intros e He.
  apply negb_false_iff, has_true_iff.
  rewrite map_app, newRows_emails, in_app_iff.
  destruct (JsSet.has e (map Student.email (studentTable st))) eqn:E.
  - left; apply has_true_iff, E.
  - right; apply filter_In; split; [exact He | rewrite E; reflexivity].
Qed.

Lemma findByEmailIn_after_insert keys st first tt j :
  StudentRepository.findByEmailIn keys
    (mkStore (studentTable st
              ++ StudentRepository.newRows first (missingEmails keys st))
             tt j)
  = StudentRepository.findByEmailIn keys st
    ++ StudentRepository.newRows first (missingEmails keys st).
Proof.
  unfold StudentRepository.findByEmailIn; cbn [studentTable].
  rewrite filter_app; f_equal.
  apply filter_true; intros s Hs; apply has_true_iff.
  assert (Hin : In (Student.email s) (missingEmails keys st)).
  { rewrite <- (newRows_emails first (missingEmails keys st)).
    apply in_map, Hs. }
  apply filter_In in Hin; tauto.
Qed.

(** [bulkCreateStudents] reads and writes the student table only. *)
Lemma bulkCreateStudents_frame insertFails l st tt j :
  bulkCreateStudents insertFails l (mkStore (studentTable st) tt j)
  = (fst (bulkCreateStudents insertFails l st),
     mkStore (studentTable (snd (bulkCreateStudents insertFails l st))) tt j).
Proof.
  destruct (filterValidEmails l) as [|v vs] eqn:Ev.
  - unfold bulkCreateStudents; rewrite Ev; cbn [List.length Nat.eqb].
    destruct (Nat.eqb (List.length l) 0); reflexivity.
  - rewrite !bulkCreateStudents_cases by (rewrite Ev; discriminate).
    cbv zeta.
    change (missingEmails (canonical l) (mkStore (studentTable st) tt j))
      with (missingEmails (canonical l) st).
    change (StudentRepository.findByEmailIn (canonical l)
              (mkStore (studentTable st) tt j))
      with (StudentRepository.findByEmailIn (canonical l) st).
    change (StudentRepository.nextId (mkStore (studentTable st) tt j))
      with (StudentRepository.nextId st).
    destruct (missingEmails (canonical l) st); [reflexivity|].
    destruct insertFails; reflexivity.
Qed.

(** The batch of a second call equals the batch of the first, and the
    second call stores nothing, provided the insert fares the same in
    both calls or went through in the first. *)
Lemma bulkCreateStudents_again fails1 fails2 l st :
  fails1 = false \/ fails2 = fails1 ->
  bulkCreateStudents fails2 l (snd (bulkCreateStudents fails1 l st))
  = bulkCreateStudents fails1 l st.
Proof.
  intros Hd; destruct (filterValidEmails l) as [|v vs] eqn:Ev.
  - unfold bulkCreateStudents; rewrite Ev; cbn [List.length Nat.eqb].
    destruct (Nat.eqb (List.length l) 0); reflexivity.
  - assert (Hv : filterValidEmails l <> []) by (rewrite Ev; discriminate).
    rewrite (bulkCreateStudents_cases fails1 l st Hv); cbv zeta.
    destruct (missingEmails (canonical l) st) as [|e m] eqn:Em.
    + cbn [snd]; rewrite (bulkCreateStudents_cases fails2 l st Hv).
      cbv zeta; rewrite Em; reflexivity.
    + destruct fails1; cbn [snd].
      * destruct Hd as [Hd|Hd]; [discriminate|subst fails2].
        rewrite (bulkCreateStudents_cases true l st Hv).
        cbv zeta; rewrite Em; reflexivity.
      * rewrite (bulkCreateStudents_cases fails2 l _ Hv); cbv zeta.
        rewrite <- Em, missingEmails_after_insert, findByEmailIn_after_insert.
        reflexivity.
Qed.

Lemma bulkCreateStudents_successful_stored insertFails l st :
  incl (successful (fst (bulkCreateStudents insertFails l st)))
       (studentTable (snd (bulkCreateStudents insertFails l st))).
Proof.
  destruct (filterValidEmails l) as [|v vs] eqn:Ev.
  - unfold bulkCreateStudents; rewrite Ev; cbn [List.length Nat.eqb].
    destruct (Nat.eqb (List.length l) 0); intros s [].
  - rewrite bulkCreateStudents_cases by (rewrite Ev; discriminate).
    cbv zeta.
    destruct (missingEmails (canonical l) st); [|destruct insertFails];
      cbn [fst snd successful studentTable];
      try apply incl_app; try apply incl_appr, incl_refl;
      try (apply incl_appl); apply incl_filter.
Qed.

Lemma bulkCreateStudents_table_grows insertFails l st :
  exists rows,
    studentTable (snd (bulkCreateStudents insertFails l st))
    = studentTable st ++ rows
    /\ teacherTable (snd (bulkCreateStudents insertFails l st)) = teacherTable st
    /\ teacherStudents (snd (bulkCreateStudents insertFails l st))
       = teacherStudents st.
Proof.
  destruct (filterValidEmails l) as [|v vs] eqn:Ev.
  - exists []; unfold bulkCreateStudents; rewrite Ev; cbn [List.length Nat.eqb].
    destruct (Nat.eqb (List.length l) 0); rewrite app_nil_r; auto.
  - rewrite bulkCreateStudents_cases by (rewrite Ev; discriminate).
    cbv zeta.
    destruct (missingEmails (canonical l) st); [|destruct insertFails];
      cbn [snd studentTable teacherTable teacherStudents];
      try (exists []; rewrite app_nil_r; auto; fail).
    eexists; split; [reflexivity | auto].
Qed.

End BulkCreateFacts.

(** C1 (the code departs from the claim): when the batch insert is
    rejected, the [catch] block reports every canonical key of the batch
    with [DATABASE_ERROR], not only the keys without a row; the rows found
    before the failure stay in [successful] and are reported in [failed]
    as well.  Nothing is stored. *)
Theorem bulkCreateStudents_storage_failure_reports_every_key
        (l : list string) (st : Store) :
  EmailUtils.filterValidEmails l <> [] ->
  missingEmails (canonical l) st <> [] ->
  let r := fst (StudentService.bulkCreateStudents true l st) in
  successful r = StudentRepository.findByEmailIn (canonical l) st
  /\ failed r = invalidFailures l ++ storageFailures (canonical l)
  /\ snd (StudentService.bulkCreateStudents true l st) = st
  /\ forall s, In s (successful r) ->
               In (Student.email s, ERROR_MESSAGES.DATABASE_ERROR) (failed r).
Proof.
  intros Hv Hm; rewrite (bulkCreateStudents_cases true l st Hv); cbv zeta.
  destruct (missingEmails (canonical l) st) as [|e m]; [contradiction|].
  cbn [fst snd successful failed]; repeat split.
  intros s Hs; apply in_or_app; right.
  unfold storageFailures.
  apply (in_map (fun email => (email, ERROR_MESSAGES.DATABASE_ERROR))).
  apply filter_In in Hs; apply has_true_iff; tauto.
Qed.

Lemma bulkCreateStudents_storage_failure_reports_every_key_witness :
  EmailUtils.filterValidEmails ["studentjon@gmail.com"; "studentnew@gmail.com"]
  <> []
  /\ missingEmails
       (canonical ["studentjon@gmail.com"; "studentnew@gmail.com"])
       Scenario.school <> []
  /\ successful
       (fst (StudentService.bulkCreateStudents true
               ["studentjon@gmail.com"; "studentnew@gmail.com"]
               Scenario.school))
     = [Student.mk 1 "studentjon@gmail.com" false]
  /\ failed
       (fst (StudentService.bulkCreateStudents true
               ["studentjon@gmail.com"; "studentnew@gmail.com"]
               Scenario.school))
     = [("studentjon@gmail.com", ERROR_MESSAGES.DATABASE_ERROR);
        ("studentnew@gmail.com", ERROR_MESSAGES.DATABASE_ERROR)].
Proof.
  assert (Hv : EmailUtils.filterValidEmails
                 ["studentjon@gmail.com"; "studentnew@gmail.com"] <> [])
    by (vm_compute; discriminate).
  assert (Hm : missingEmails
                 (canonical ["studentjon@gmail.com"; "studentnew@gmail.com"])
                 Scenario.school <> [])
    by (vm_compute; discriminate).
  split; [exact Hv|]; split; [exact Hm|].
  destruct (bulkCreateStudents_storage_failure_reports_every_key
              ["studentjon@gmail.com"; "studentnew@gmail.com"]
              Scenario.school Hv Hm) as (Hs & Hf & _).
  split; [rewrite Hs | rewrite Hf]; vm_compute; reflexivity.
Defined.

(* ================================================================== *)
(** * The teacher service: registration *)

Section RegisterFacts.
Import EmailUtils TeacherService.

Lemma hasNumber_true_iff i ids : JsArray.hasNumber i ids = true <-> In i ids.
Proof.
  unfold JsArray.hasNumber; rewrite existsb_exists; split.
  - intros (j & Hj & E); apply Nat.eqb_eq in E; subst; exact Hj.
  - intros H; exists i; split; [exact H | apply Nat.eqb_refl].
Qed.

Lemma hasEdge_true_iff edges tid sid :
  TeacherRepository.hasEdge edges tid sid = true <-> In (tid, sid) edges.
Proof.
  unfold TeacherRepository.hasEdge; rewrite existsb_exists; split.
  - intros ((a, b) & Hin & E); simpl in E.
    apply andb_true_iff in E; destruct E as [Ea Eb].
    apply Nat.eqb_eq in Ea, Eb; subst; exact Hin.
  - intros H; exists (tid, sid); split; [exact H|]; simpl.
    rewrite !Nat.eqb_refl; reflexivity.
Qed.

Lemma fold_addEdge_In e es : forall acc,
  In e (fold_left TeacherRepository.addEdge es acc) <-> In e acc \/ In e es.
Proof.
  induction es as [|x es IH]; intros acc; simpl; [tauto|].
  rewrite IH; unfold TeacherRepository.addEdge.
  destruct (TeacherRepository.hasEdge acc (fst x) (snd x)) eqn:E.
  - apply hasEdge_true_iff in E; rewrite <- surjective_pairing in E.
    split; [tauto|]; intros [?|[<-|?]]; tauto.
  - rewrite in_app_iff; simpl; tauto.
Qed.

(** After [save], the teacher's edges are exactly the listed students. *)
Lemma save_hasEdge t st sid :
  TeacherRepository.hasEdge (teacherStudents (TeacherRepository.save t st))
                            (Teacher.id t) sid = true
  <-> In sid (map Student.id (Teacher.students t)).
Proof.
  unfold TeacherRepository.save; cbn [teacherStudents].
  rewrite hasEdge_true_iff, fold_addEdge_In, filter_In, in_map_iff.
  cbn [fst snd]; rewrite Nat.eqb_refl; cbn [negb orb].
  rewrite hasNumber_true_iff; split.
  - intros [[_ H]|(i & [= <-] & H)]; exact H.
  - intros H; right; exists sid; split; [reflexivity | exact H].
Qed.

Lemma registerStudentsToTeacher_found insertFails teacherEmail l st :
  registerStudentsToTeacher insertFails teacherEmail l st
  = if Nat.eqb (List.length l) 0 then
      (Err (BadRequestException ERROR_MESSAGES.EMPTY_STUDENT_LIST), st)
    else if negb (isValidEmail (normalizeEmail (normalizeEmail teacherEmail)))
    then (Err (BadRequestException ERROR_MESSAGES.INVALID_EMAIL_FORMAT), st)
    else
      match find (fun r => String.eqb (Teacher.rowEmail r)
                             (normalizeEmail (normalizeEmail teacherEmail)))
                 (teacherTable st) with
      | None => (Err (NotFoundException ERROR_MESSAGES.TEACHER_NOT_FOUND), st)
      | Some row => registerFound insertFails (TeacherRepository.load st row) l st
      end.
Proof.
  unfold registerStudentsToTeacher, findTeacherByEmail,
    TeacherRepository.findOneByEmail, registerFound.
  destruct (Nat.eqb (List.length l) 0); [reflexivity|].
  destruct (negb (isValidEmail (normalizeEmail (normalizeEmail teacherEmail))));
    [reflexivity|].
  destruct (find _ (teacherTable st)); reflexivity.
Qed.

Lemma registerFound_teacherTable insertFails teacher l st :
  teacherTable (snd (registerFound insertFails teacher l st)) = teacherTable st.
Proof.
  unfold registerFound.
  destruct (Nat.eqb (List.length (filterValidEmails l)) 0); [reflexivity|].
  destruct (bulkCreateStudents_table_grows insertFails (filterValidEmails l) st)
    as (rows & _ & Ht & _).
  destruct (StudentService.bulkCreateStudents insertFails (filterValidEmails l) st)
    as [r st1]; cbn [snd] in *.
  destruct (Nat.eqb (List.length (successful r)) 0); [exact Ht|].
  destruct (Nat.eqb (List.length (filter _ (successful r))) 0); exact Ht.
Qed.

(** Once the teacher's row is fixed, a second run finds every resolved
    student among the members and stores nothing. *)
Lemma registerFound_again fails1 fails2 row l st :
  fails1 = false \/ fails2 = fails1 ->
  let st1 := snd (registerFound fails1 (TeacherRepository.load st row) l st) in
  registerFound fails2 (TeacherRepository.load st1 row) l st1
  = (fst (registerFound fails1 (TeacherRepository.load st row) l st), st1).
Proof.
  intros Hd; unfold registerFound.
  destruct (Nat.eqb (List.length (filterValidEmails l)) 0); [reflexivity|].
  pose proof (bulkCreateStudents_again fails1 fails2 (filterValidEmails l) st Hd)
    as Hidem.
  pose proof (bulkCreateStudents_successful_stored fails1
                (filterValidEmails l) st) as Hin.
  destruct (bulkCreateStudents_table_grows fails1 (filterValidEmails l) st)
    as (rows & Hrows & Htt & Hj).
  pose proof (fun tt j => bulkCreateStudents_frame fails2 (filterValidEmails l)
                (snd (StudentService.bulkCreateStudents fails1
                        (filterValidEmails l) st)) tt j) as Hframe.
  destruct (StudentService.bulkCreateStudents fails1 (filterValidEmails l) st)
    as [r stb]; cbn [fst snd] in *.
  rewrite Hidem in Hframe; cbn [fst snd] in Hframe.
  destruct (Nat.eqb (List.length (successful r)) 0) eqn:Es.
  { cbn [fst snd]; rewrite Hidem, Es; reflexivity. }
  set (old := Teacher.students (TeacherRepository.load st row)).
  destruct (Nat.eqb (List.length
                       (filter (fun student =>
                                  negb (JsArray.hasNumber (Student.id student)
                                          (map Student.id old)))
                               (successful r))) 0) eqn:En.
  - (* every resolved student was a member already *)
    cbn [fst snd]; rewrite Hidem, Es.
    apply length_zero_eqb in En.
    rewrite (filter_false _ (successful r)); [reflexivity|].
    intros s Hs; apply negb_false_iff, hasNumber_true_iff.
    assert (Hold : In (Student.id s) (map Student.id old)).
    { apply hasNumber_true_iff.
      destruct (JsArray.hasNumber (Student.id s) (map Student.id old)) eqn:E;
        [reflexivity|].
      assert (Hf : In s (filter (fun student =>
                                   negb (JsArray.hasNumber (Student.id student)
                                           (map Student.id old)))
                                (successful r)))
        by (apply filter_In; rewrite E; auto).
      rewrite En in Hf; destruct Hf. }
    apply in_map_iff in Hold; destruct Hold as (s' & Eid & Hs').
    apply in_map_iff; exists s'; split; [exact Eid|].
    unfold old, TeacherRepository.load in Hs'; cbn [Teacher.students] in Hs'.
    apply filter_In in Hs'; destruct Hs' as [Hs' He].
    unfold TeacherRepository.load; cbn [Teacher.students].
    apply filter_In; split; [rewrite Hrows; apply in_or_app; auto|].
    rewrite Hj; exact He.
  - (* new members were stored by the first run *)
    cbn [fst snd].
    set (upd := Teacher.mk (Teacher.id (TeacherRepository.load st row))
                           (Teacher.email (TeacherRepository.load st row))
                           (old ++ filter _ (successful r))).
    assert (Hb : StudentService.bulkCreateStudents fails2
                   (filterValidEmails l) (TeacherRepository.save upd stb)
                 = (r, TeacherRepository.save upd stb))
      by exact (Hframe (teacherTable stb)
                       (teacherStudents (TeacherRepository.save upd stb))).
    rewrite Hb, Es.
    rewrite (filter_false _ (successful r)); [reflexivity|].
    intros s Hs; apply negb_false_iff, hasNumber_true_iff.
    apply in_map; unfold TeacherRepository.load; cbn [Teacher.students].
    apply filter_In; split; [apply Hin, Hs|].
    change (Teacher.rowId row) with (Teacher.id upd).
    apply save_hasEdge; cbn [Teacher.students upd].
    rewrite map_app, in_app_iff.
    destruct (JsArray.hasNumber (Student.id s) (map Student.id old)) eqn:E.
    + left; apply hasNumber_true_iff, E.
    + right; apply in_map, filter_In; rewrite E; auto.
Qed.

Lemma registerStudentsToTeacher_again fails1 fails2 teacherEmail l st :
  fails1 = false \/ fails2 = fails1 ->
  registerStudentsToTeacher fails2 teacherEmail l
    (snd (registerStudentsToTeacher fails1 teacherEmail l st))
  = registerStudentsToTeacher fails1 teacherEmail l st.
Proof.
  intros Hd.
  rewrite (registerStudentsToTeacher_found fails1 teacherEmail l st).
  destruct (Nat.eqb (List.length l) 0) eqn:E0;
    [cbn [snd]; rewrite registerStudentsToTeacher_found, E0; reflexivity|].
  destruct (negb (isValidEmail (normalizeEmail (normalizeEmail teacherEmail))))
    eqn:Ev;
    [cbn [snd]; rewrite registerStudentsToTeacher_found, E0, Ev; reflexivity|].
  destruct (find _ (teacherTable st)) as [row|] eqn:Ef;
    [|cbn [snd]; rewrite registerStudentsToTeacher_found, E0, Ev, Ef;
      reflexivity].
  rewrite registerStudentsToTeacher_found, E0, Ev.
  rewrite registerFound_teacherTable, Ef.
  rewrite (registerFound_again fails1 fails2 row l st Hd).
  symmetry; apply surjective_pairing.
Qed.

End RegisterFacts.

(** C6, as stated, fails: when the insert of the new student row is
    rejected in the first run, the run still succeeds (the failure is
    logged and nothing is registered for that student); a second run with
    the same teacher and the same list whose insert is accepted creates
    the student and adds it to the teacher's members. *)
Lemma registerStudentsToTeacher_retry_after_rejected_insert :
  let once :=
    TeacherService.registerStudentsToTeacher true "teacherken@gmail.com"
      ["studentnew@gmail.com"] Scenario.school in
  let again :=
    TeacherService.registerStudentsToTeacher false "teacherken@gmail.com"
      ["studentnew@gmail.com"] (snd once) in
  fst once = Ok tt
  /\ fst again = Ok tt
  /\ option_map (map Student.email)
                (membership "teacherken@gmail.com" (snd once))
     = Some ["studentjon@gmail.com"; "studenthon@gmail.com";
             "studentmary@gmail.com"]
  /\ option_map (map Student.email)
                (membership "teacherken@gmail.com" (snd again))
     = Some ["studentjon@gmail.com"; "studenthon@gmail.com";
             "studentmary@gmail.com"; "studentnew@gmail.com"]
  /\ ~ (membership "teacherken@gmail.com" (snd again)
        = membership "teacherken@gmail.com" (snd once)).
Proof.
  cbv zeta; split; [reflexivity|]; split; [reflexivity|].
  split; [vm_compute; reflexivity|]; split; [vm_compute; reflexivity|].
  intros H; vm_compute in H; discriminate H.
Qed.

(** C6 (amended): registering the same list with the same teacher a
    second time stores nothing, provided the insert of new student rows
    fares the same in both runs, or went through in the first run
    (however it fares in the second): the store after two runs is then
    the store after one run, the second run ends as the first did, and
    the teacher's members are the same. *)
Theorem registerStudentsToTeacher_twice_same_membership
        (teacherEmail : string) (l : list string) (st : Store) :
  (forall insertFails,
      let once :=
        snd (TeacherService.registerStudentsToTeacher insertFails teacherEmail l st) in
      let again :=
        TeacherService.registerStudentsToTeacher insertFails teacherEmail l once in
      snd again = once
      /\ fst again
         = fst (TeacherService.registerStudentsToTeacher insertFails teacherEmail l st)
      /\ membership teacherEmail (snd again) = membership teacherEmail once)
  /\ (forall insertFails,
         let once :=
           snd (TeacherService.registerStudentsToTeacher false teacherEmail l st) in
         let again :=
           TeacherService.registerStudentsToTeacher insertFails teacherEmail l once in
         snd again = once
         /\ membership teacherEmail (snd again) = membership teacherEmail once).
Proof.
  split; intros insertFails; cbv zeta.
  - rewrite registerStudentsToTeacher_again by (right; reflexivity); auto.
  - rewrite registerStudentsToTeacher_again by (left; reflexivity); auto.
Qed.

(** A registration in the style of the specification's scenario: two
    students, one of them not stored yet, are registered with an existing
    teacher (one new row, two new edges), and registering one of them
    again changes nothing. *)
Example register_scenario :
  let st1 :=
    snd (TeacherService.registerStudentsToTeacher false "teacherken@gmail.com"
           ["studentagnes@gmail.com"; "StudentNew@gmail.com"] Scenario.school) in
  option_map (map Student.email) (membership "teacherken@gmail.com" st1)
  = Some ["studentjon@gmail.com"; "studenthon@gmail.com";
          "studentagnes@gmail.com"; "studentmary@gmail.com";
          "studentnew@gmail.com"]
  /\ snd (TeacherService.registerStudentsToTeacher false "teacherken@gmail.com"
            ["studentagnes@gmail.com"] st1) = st1.
Proof. split; vm_compute; reflexivity. Qed.

(* ================================================================== *)
(** * The teacher service: queries *)

Section SortFacts.
Context {A : Type} (key : A -> string).

Lemma insertBy_In x y l :
  In x (JsArray.insertBy key y l) <-> x = y \/ In x l.
Proof.
  induction l as [|z l IH]; simpl; [intuition congruence|].
  destruct (String.leb (key y) (key z)); simpl; [intuition congruence|].
  rewrite IH; intuition congruence.
Qed.

Lemma sortBy_In x l : In x (JsArray.sortBy key l) <-> In x l.
Proof.
  induction l as [|y l IH]; simpl; [tauto|].
  rewrite insertBy_In, IH; intuition congruence.
Qed.

Lemma insertBy_Permutation y l :
  Permutation (JsArray.insertBy key y l) (y :: l).
Proof.
  induction l as [|z l IH]; simpl; [reflexivity|].
  destruct (String.leb (key y) (key z)); [reflexivity|].
  rewrite IH; apply perm_swap.
Qed.

Lemma sortBy_Permutation l : Permutation (JsArray.sortBy key l) l.
Proof.
  induction l as [|y l IH]; simpl; [reflexivity|].
  rewrite insertBy_Permutation; apply perm_skip, IH.
Qed.

Lemma insertBy_Sorted y l :
  Sorted (ascending key) l -> Sorted (ascending key) (JsArray.insertBy key y l).
Proof.
  induction 1 as [|z l Hs IH Hhd]; simpl; [repeat constructor|].
  destruct (String.leb (key y) (key z)) eqn:E.
  - constructor; [constructor; assumption | constructor; exact E].
  - constructor; [exact IH|].
    assert (Hzy : ascending key z y).
    { destruct (String.leb_total (key y) (key z)) as [H|H]; [congruence|exact H]. }
    destruct Hhd as [|w l Hzw]; simpl; [constructor; exact Hzy|].
    destruct (String.leb (key y) (key w)); constructor; assumption.
Qed.

Lemma sortBy_Sorted l : Sorted (ascending key) (JsArray.sortBy key l).
Proof.
  induction l as [|y l IH]; simpl; [constructor | apply insertBy_Sorted, IH].
Qed.

End SortFacts.

Section QueryFacts.
Import EmailUtils TeacherService.

Lemma sort_In x l : In x (JsArray.sort l) <-> In x l.
Proof. apply sortBy_In. Qed.

Lemma NoDup_map_injective {A B : Type} (f : A -> B) (l : list A) x y :
  NoDup (map f l) -> In x l -> In y l -> f x = f y -> x = y.
Proof.
  induction l as [|a l IH]; simpl; intros Hnd Hx Hy E; [destruct Hx|].
  inversion Hnd as [|? ? Ha Hnd']; subst.
  destruct Hx as [->|Hx], Hy as [->|Hy]; auto.
  - exfalso; apply Ha; rewrite E; apply in_map, Hy.
  - exfalso; apply Ha; rewrite <- E; apply in_map, Hx.
Qed.

(** Selecting rows keeps a key column free of repetitions. *)
Lemma NoDup_map_filter {Row Key : Type} (key : Row -> Key)
      (keep : Row -> bool) (rows : list Row) :
  NoDup (map key rows) -> NoDup (map key (filter keep rows)).
Proof.
  intros Hnd; induction rows as [|a rows IH]; simpl in *; [constructor|].
  inversion Hnd as [|? ? Ha Hnd']; subst.
  destruct (keep a); simpl; [constructor|]; auto.
  intros Hin; apply Ha; apply in_map_iff in Hin.
  destruct Hin as (b & E & Hb); apply filter_In in Hb.
  rewrite <- E; apply in_map; tauto.
Qed.

(** Under the unique constraint, the e-mail of a suspended student is not
    the e-mail of an active one. *)
Lemma suspended_not_active st s :
  uniqueStudentEmails st ->
  In s (studentTable st) -> Student.suspended s = true ->
  ~ activeEmail st (Student.email s).
Proof.
  intros Hu Hs Hsus (s' & Hs' & Hact & E).
  assert (s' = s) by (eapply NoDup_map_injective; eauto).
  subst; congruence.
Qed.

Lemma activeEmails_load st row e :
  In e (activeEmails (TeacherRepository.load st row)) -> activeEmail st e.
Proof.
  unfold activeEmails, TeacherRepository.load; cbn [Teacher.students].
  rewrite in_map_iff; intros (s & E & Hs).
  apply filter_In in Hs; destruct Hs as [Hs Hact].
  apply filter_In in Hs; destruct Hs as [Hs _].
  exists s; repeat split; [exact Hs | apply negb_true_iff, Hact | exact E].
Qed.

Lemma getTeacherStudents_active teacherEmail st out e :
  getTeacherStudents teacherEmail st = Ok out -> In e out -> activeEmail st e.
Proof.
  unfold getTeacherStudents, findTeacherByEmail, TeacherRepository.findOneByEmail.
  destruct (negb (isValidEmail (normalizeEmail teacherEmail))); [discriminate|].
  cbn [bind]; destruct (find _ (teacherTable st)) as [row|]; [|discriminate].
  cbn [option_map]; intros [= <-] He.
  apply -> sort_In in He; eapply activeEmails_load, He.
Qed.

Lemma getCommonStudents_active l st out e :
  getCommonStudents l st = Ok out -> In e out -> activeEmail st e.
Proof.
  unfold getCommonStudents.
  destruct (Nat.eqb (List.length l) 0); [discriminate|].
  destruct (Nat.eqb (List.length (filterValidEmails l)) 0); [discriminate|].
  unfold TeacherRepository.findByEmailIn.
  destruct (filter _ (teacherTable st)) as [|row rows]; cbn [map].
  - destruct (negb _); [intros [= <-] []|].
    cbn [List.length Nat.eqb]; discriminate.
  - destruct (negb _); [intros [= <-] []|].
    destruct (Nat.eqb _ 1).
    + intros [= <-] He; apply -> sort_In in He; eapply activeEmails_load, He.
    + intros [= <-] He; apply -> sort_In in He.
      apply filter_In in He; destruct He as [He _].
      rewrite ofArray_firstSeen in He; apply -> firstSeen_In in He.
      eapply activeEmails_load, He.
Qed.

Lemma mentionedActive_active notification st e :
  In e (mentionedActive notification st) -> activeEmail st e.
Proof.
  unfold mentionedActive, StudentService.getStudentsByEmails.
  destruct (Nat.eqb (List.length (extractMentionedEmails notification)) 0);
    [intros []|].
  destruct (Nat.eqb _ 0); [intros []|].
  unfold StudentRepository.queryByEmails.
  rewrite in_map_iff; intros (s & E & Hs).
  apply (proj1 (sortBy_In Student.email s _)) in Hs.
  apply filter_In in Hs; destruct Hs as [Hs Hc].
  apply andb_true_iff in Hc; destruct Hc as [_ Hact]; simpl in Hact.
  exists s; repeat split; [exact Hs | apply negb_true_iff, Hact | exact E].
Qed.

(** The recipients, whatever the outcome of the teacher look-up. *)
Lemma getNotificationRecipients_unfold teacherEmail notification st :
  getNotificationRecipients teacherEmail notification st
  = Ok (JsArray.sort
          (JsSet.ofArray
             (match getTeacherStudents (normalizeEmail teacherEmail) st with
              | Ok registered => registered
              | Err _ => []
              end ++ mentionedActive notification st))).
Proof.
  unfold getNotificationRecipients, mentionedActive.
  assert (Hm : (if Nat.ltb 0 (List.length (extractMentionedEmails notification))
                then map Student.email
                       (StudentService.getStudentsByEmails
                          (extractMentionedEmails notification) false st)
                else [])
               = map Student.email
                   (StudentService.getStudentsByEmails
                      (extractMentionedEmails notification) false st)).
  { destruct (extractMentionedEmails notification); reflexivity. }
  rewrite Hm.
  destruct (getTeacherStudents (normalizeEmail teacherEmail) st); reflexivity.
Qed.

Lemma getNotificationRecipients_active teacherEmail notification st out e :
  getNotificationRecipients teacherEmail notification st = Ok out ->
  In e out -> activeEmail st e.
Proof.
  rewrite getNotificationRecipients_unfold; intros [= <-] He.
  apply -> sort_In in He; rewrite ofArray_firstSeen in He.
  apply -> firstSeen_In in He; apply in_app_or in He; destruct He as [He|He].
  - destruct (getTeacherStudents (normalizeEmail teacherEmail) st) eqn:E;
      [|destruct He].
    eapply getTeacherStudents_active; eassumption.
  - eapply mentionedActive_active, He.
Qed.

End QueryFacts.

Ltac concrete_NoDup :=
  repeat (constructor; [simpl; intuition discriminate|]); constructor.

Section QueryClaims.
Import EmailUtils TeacherService.

(** C8: under the unique constraint on student e-mails, the e-mail of a
    suspended student is in no list returned by [getTeacherStudents],
    [getCommonStudents] or [getNotificationRecipients], whatever the
    teachers asked for and whatever the notification text mentions. *)
Theorem suspended_student_never_listed (st : Store) (s : Student.t) :
  uniqueStudentEmails st ->
  In s (studentTable st) ->
  Student.suspended s = true ->
  (forall teacherEmail out,
      getTeacherStudents teacherEmail st = Ok out ->
      ~ In (Student.email s) out)
  /\ (forall teacherEmails out,
         getCommonStudents teacherEmails st = Ok out ->
         ~ In (Student.email s) out)
  /\ (forall teacherEmail notification out,
         getNotificationRecipients teacherEmail notification st = Ok out ->
         ~ In (Student.email s) out).
Proof.
  intros Hu Hs Hsus.
  pose proof (suspended_not_active st s Hu Hs Hsus) as Hna.
  repeat split; intros; intros Hin; apply Hna.
  - eapply getTeacherStudents_active; eassumption.
  - eapply getCommonStudents_active; eassumption.
  - eapply getNotificationRecipients_active; eassumption.
Qed.

Lemma suspended_student_never_listed_witness :
  uniqueStudentEmails Scenario.school
  /\ In (Student.mk 4 "studentmary@gmail.com" true) (studentTable Scenario.school)
  /\ getNotificationRecipients "teacherken@gmail.com"
       "Hello @studentmary@gmail.com @studentagnes@gmail.com" Scenario.school
     = Ok ["studentagnes@gmail.com"; "studenthon@gmail.com";
           "studentjon@gmail.com"]
  /\ ~ In "studentmary@gmail.com"
          ["studentagnes@gmail.com"; "studenthon@gmail.com";
           "studentjon@gmail.com"].
Proof.
  assert (Hu : uniqueStudentEmails Scenario.school)
    by (unfold uniqueStudentEmails; simpl; concrete_NoDup).
  assert (Hs : In (Student.mk 4 "studentmary@gmail.com" true)
                  (studentTable Scenario.school))
    by (simpl; tauto).
  assert (Hr : getNotificationRecipients "teacherken@gmail.com"
                 "Hello @studentmary@gmail.com @studentagnes@gmail.com"
                 Scenario.school
               = Ok ["studentagnes@gmail.com"; "studenthon@gmail.com";
                     "studentjon@gmail.com"])
    by (vm_compute; reflexivity).
  split; [exact Hu|]; split; [exact Hs|]; split; [exact Hr|].
  exact (proj2 (proj2 (suspended_student_never_listed Scenario.school
                         (Student.mk 4 "studentmary@gmail.com" true)
                         Hu Hs eq_refl))
               _ _ _ Hr).
Defined.

Lemma findOneByEmail_None e st :
  ~ hasTeacher st e -> TeacherRepository.findOneByEmail e st = None.
Proof.
  intros Hno; unfold TeacherRepository.findOneByEmail.
  destruct (find _ (teacherTable st)) as [row|] eqn:Ef; [|reflexivity].
  apply find_some in Ef; destruct Ef as [Hin E].
  exfalso; apply Hno; exists row; split; [exact Hin | apply String.eqb_eq, E].
Qed.

(** C10: [getNotificationRecipients] returns a list for every teacher
    e-mail.  A malformed teacher e-mail makes the look-up of the
    registered students fail with [BadRequestException], an unknown one
    with [NotFoundException]; either failure is swallowed, and the
    recipients are then the mentioned active students alone. *)
Theorem getNotificationRecipients_never_fails
        (teacherEmail notification : string) (st : Store) :
  (exists recipients,
      getNotificationRecipients teacherEmail notification st = Ok recipients)
  /\ (isValidEmail (normalizeEmail teacherEmail) = false ->
      getTeacherStudents (normalizeEmail teacherEmail) st
      = Err (BadRequestException ERROR_MESSAGES.INVALID_EMAIL_FORMAT))
  /\ (isValidEmail (normalizeEmail teacherEmail) = true ->
      ~ hasTeacher st (normalizeEmail teacherEmail) ->
      getTeacherStudents (normalizeEmail teacherEmail) st
      = Err (NotFoundException ERROR_MESSAGES.TEACHER_NOT_FOUND))
  /\ (forall e,
         getTeacherStudents (normalizeEmail teacherEmail) st = Err e ->
         getNotificationRecipients teacherEmail notification st
         = Ok (JsArray.sort (JsSet.ofArray (mentionedActive notification st)))).
Proof.
  split; [rewrite getNotificationRecipients_unfold; eauto|].
  split; [|split].
  - intros Hv; unfold getTeacherStudents, findTeacherByEmail.
    rewrite normalizeEmail_idem, Hv; reflexivity.
  - intros Hv Hno; unfold getTeacherStudents, findTeacherByEmail.
    rewrite normalizeEmail_idem, Hv; cbn [negb bind].
    rewrite (findOneByEmail_None _ _ Hno); reflexivity.
  - intros e He; rewrite getNotificationRecipients_unfold, He; reflexivity.
Qed.

(** The notification scenario of the specification, and the same text
    sent under a malformed and under an unknown teacher e-mail. *)
Example notification_scenario :
  getNotificationRecipients "teacherken@gmail.com"
    "Hello! @studentagnes@gmail.com @studentmiche@gmail.com" Scenario.school
  = Ok ["studentagnes@gmail.com"; "studenthon@gmail.com"; "studentjon@gmail.com"]
  /\ getNotificationRecipients "not an address"
       "Hello! @studentagnes@gmail.com @studentmiche@gmail.com" Scenario.school
     = Ok ["studentagnes@gmail.com"]
  /\ getNotificationRecipients "nobody@gmail.com"
       "Hello! @studentagnes@gmail.com @studentmiche@gmail.com" Scenario.school
     = Ok ["studentagnes@gmail.com"].
Proof. repeat split; vm_compute; reflexivity. Qed.

Lemma findByEmailIn_length_lt keys st e :
  uniqueTeacherEmails st -> In e keys -> ~ hasTeacher st e ->
  List.length (TeacherRepository.findByEmailIn keys st) < List.length keys.
Proof.
  intros Hu He Hno; unfold TeacherRepository.findByEmailIn.
  rewrite length_map.
  set (rows := filter (fun r => JsSet.has (Teacher.rowEmail r) keys)
                      (teacherTable st)).
  rewrite <- (length_map Teacher.rowEmail rows).
  apply Nat.le_lt_trans with (List.length (remove string_dec e keys));
    [|apply remove_length_lt, He].
  apply NoDup_incl_length; [apply NoDup_map_filter, Hu|].
  intros x Hx; apply in_map_iff in Hx; destruct Hx as (r & <- & Hr).
  apply filter_In in Hr; destruct Hr as [Hr Hk].
  apply in_in_remove; [|apply has_true_iff, Hk].
  intros E; apply Hno; exists r; tauto.
Qed.

(** C7: under the unique constraint on teacher e-mails, when some valid
    entry of the request names no stored teacher, [getCommonStudents]
    returns the empty list and does not fail. *)
Theorem getCommonStudents_missing_teacher_empty
        (teacherEmails : list string) (st : Store) :
  uniqueTeacherEmails st ->
  (exists x, In x teacherEmails /\ isValidEmail x = true
             /\ ~ hasTeacher st (normalizeEmail x)) ->
  getCommonStudents teacherEmails st = Ok [].
Proof.
  intros Hu (x & Hx & Hv & Hno); unfold getCommonStudents.
  destruct (Nat.eqb (List.length teacherEmails) 0) eqn:E0;
    [apply length_zero_eqb in E0; subst; destruct Hx|].
  assert (Hxv : In x (filterValidEmails teacherEmails))
    by (apply filterValidEmails_In; tauto).
  destruct (Nat.eqb (List.length (filterValidEmails teacherEmails)) 0) eqn:E1;
    [apply length_zero_eqb in E1; rewrite E1 in Hxv; destruct Hxv|].
  assert (Hlt : List.length
                  (TeacherRepository.findByEmailIn
                     (normalizeEmails (filterValidEmails teacherEmails)) st)
                < List.length (normalizeEmails (filterValidEmails teacherEmails))).
  { apply findByEmailIn_length_lt with (normalizeEmail x); [exact Hu| |exact Hno].
    apply normalizeEmails_In; exists x; tauto. }
  apply Nat.lt_neq, Nat.eqb_neq in Hlt; rewrite Hlt; reflexivity.
Qed.

Lemma getCommonStudents_missing_teacher_empty_witness :
  uniqueTeacherEmails Scenario.school
  /\ ~ hasTeacher Scenario.school (normalizeEmail "TeacherAnn@gmail.com")
  /\ getCommonStudents ["teacherken@gmail.com"; "TeacherAnn@gmail.com"]
                       Scenario.school
     = Ok [].
Proof.
  assert (Hu : uniqueTeacherEmails Scenario.school)
    by (unfold uniqueTeacherEmails; simpl; concrete_NoDup).
  assert (Hno : ~ hasTeacher Scenario.school (normalizeEmail "TeacherAnn@gmail.com")).
  { intros (r & Hr & E); simpl in Hr.
    destruct Hr as [<-|[<-|[]]]; vm_compute in E; discriminate. }
  split; [exact Hu|]; split; [exact Hno|].
  apply (getCommonStudents_missing_teacher_empty
           ["teacherken@gmail.com"; "TeacherAnn@gmail.com"] Scenario.school Hu).
  exists "TeacherAnn@gmail.com"; split; [simpl; tauto|].
  split; [vm_compute; reflexivity | exact Hno].
Defined.

End QueryClaims.

Section CommonStudentsFacts.
Import EmailUtils TeacherService.

(** Two spellings that agree up to letter case give the same key. *)
Lemma canonical_incl_variants l l' :
  (forall a, In a l ->
             exists b, In b l' /\ JsString.toLowerCase a = JsString.toLowerCase b) ->
  incl (canonical l) (canonical l').
Proof.
  intros H x Hx; apply canonical_In in Hx.
  destruct Hx as (y & Hy & Hv & E).
  destruct (H y Hy) as (b & Hb & Hc).
  apply canonical_In; exists b; split; [exact Hb|].
  rewrite <- (isValidEmail_case y b Hc), <- (normalizeEmail_case y b Hc); auto.
Qed.

(** [getCommonStudents] depends on its input through the set of canonical
    keys only (and on whether the input is empty). *)
Lemma getCommonStudents_same_keys l l' st :
  (l = [] <-> l' = []) ->
  incl (canonical l) (canonical l') ->
  incl (canonical l') (canonical l) ->
  getCommonStudents l st = getCommonStudents l' st.
Proof.
  intros Hnil H12 H21.
  assert (H0 : Nat.eqb (List.length l) 0 = Nat.eqb (List.length l') 0).
  { apply Bool.eq_true_iff_eq; rewrite !length_zero_eqb; exact Hnil. }
  assert (H1 : Nat.eqb (List.length (filterValidEmails l)) 0
               = Nat.eqb (List.length (filterValidEmails l')) 0).
  { apply Bool.eq_true_iff_eq.
    rewrite !length_zero_eqb, <- !canonical_nil_iff; split; intros E.
    - destruct (canonical l') as [|x k]; [reflexivity|].
      specialize (H21 x (or_introl eq_refl)); rewrite E in H21; destruct H21.
    - destruct (canonical l) as [|x k]; [reflexivity|].
      specialize (H12 x (or_introl eq_refl)); rewrite E in H12; destruct H12. }
  assert (H2 : List.length (canonical l) = List.length (canonical l')).
  { apply Nat.le_antisymm; apply NoDup_incl_length;
      solve [assumption | apply normalizeEmails_NoDup]. }
  assert (H3 : TeacherRepository.findByEmailIn (canonical l) st
               = TeacherRepository.findByEmailIn (canonical l') st).
  { unfold TeacherRepository.findByEmailIn; f_equal.
    apply filter_ext; intros r; apply has_ext; intros y; split; auto. }
  unfold getCommonStudents.
  fold (canonical l); fold (canonical l').
  rewrite H0, H1, H2, H3; reflexivity.
Qed.

(** C9: [getCommonStudents] gives the same answer (list or failure) for
    every permutation of its input, and for every input obtained by
    mixing in further entries each of which repeats an entry already
    present, in the same or in a different letter case. *)
Theorem getCommonStudents_order_case_duplicates
        (teacherEmails : list string) (st : Store) :
  (forall permuted,
      Permutation teacherEmails permuted ->
      getCommonStudents permuted st = getCommonStudents teacherEmails st)
  /\ (forall copies extended,
         (forall c, In c copies ->
                    exists a, In a teacherEmails
                              /\ JsString.toLowerCase c = JsString.toLowerCase a) ->
         Permutation extended (teacherEmails ++ copies) ->
         getCommonStudents extended st = getCommonStudents teacherEmails st).
Proof.
  split.
  - intros l' Hp; apply getCommonStudents_same_keys.
    + split; intros ->;
        [apply Permutation_nil, Permutation_sym, Hp | apply Permutation_nil, Hp].
    + apply canonical_incl_variants; intros a Ha; exists a; split;
        [eapply Permutation_in; [apply Permutation_sym|]; eassumption
        | reflexivity].
    + apply canonical_incl_variants; intros a Ha; exists a; split;
        [eapply Permutation_in; eassumption | reflexivity].
  - intros copies l' Hc Hp; apply getCommonStudents_same_keys.
    + split; intros E.
      * subst; apply Permutation_nil in Hp.
        apply app_eq_nil in Hp; tauto.
      * subst; destruct copies as [|c k];
          [apply Permutation_nil, Permutation_sym, Hp|].
        destruct (Hc c (or_introl eq_refl)) as (a & [] & _).
    + apply canonical_incl_variants; intros a Ha.
      apply (Permutation_in _ Hp), in_app_or in Ha; destruct Ha as [Ha|Ha].
      * exists a; split; [exact Ha | reflexivity].
      * apply Hc, Ha.
    + apply canonical_incl_variants; intros a Ha; exists a; split;
        [|reflexivity].
      eapply Permutation_in; [apply Permutation_sym, Hp|].
      apply in_or_app; left; exact Ha.
Qed.

(** The common-students scenario of the specification and the service's
    own test for repeated teacher entries. *)
Example commonStudents_scenario :
  getCommonStudents ["teacherken@gmail.com"; "teacherjoe@gmail.com"]
                    Scenario.school
  = Ok ["studenthon@gmail.com"]
  /\ getCommonStudents
       ["TeacherJoe@gmail.com"; "teacherken@gmail.com"; "TEACHERKEN@GMAIL.COM";
        "teacherjoe@gmail.com"]
       Scenario.school
     = Ok ["studenthon@gmail.com"]
  /\ getCommonStudents ["teacherken@gmail.com"] Scenario.school
     = Ok ["studenthon@gmail.com"; "studentjon@gmail.com"].
Proof. repeat split; vm_compute; reflexivity. Qed.

End CommonStudentsFacts.

(* ================================================================== *)
(** * Further properties of the student service *)

Section StudentLookups.
Import EmailUtils StudentService.

Lemma requestedKey_canonical l e : requestedKey l e <-> In e (canonical l).
Proof. symmetry; apply canonical_In. Qed.

Lemma requestedKey_valid_entries l :
  filterValidEmails l = [] -> forall e, ~ requestedKey l e.
Proof.
  intros E e (y & Hy & Hv & _).
  assert (Hin : In y (filterValidEmails l)) by (apply filterValidEmails_In; tauto).
  rewrite E in Hin; destruct Hin.
Qed.

(** X1: [findStudentsByEmails] returns exactly the stored rows whose
    e-mail is the normalized form of a valid entry of the request;
    invalid entries are dropped without an error, and an empty or wholly
    invalid request returns nothing. *)
Theorem findStudentsByEmails_exact (l : list string) (st : Store) (s : Student.t) :
  In s (findStudentsByEmails l st)
  <-> In s (studentTable st) /\ requestedKey l (Student.email s).
Proof.
  unfold findStudentsByEmails.
  destruct (Nat.eqb (List.length l) 0) eqn:E0.
  { apply length_zero_eqb in E0; subst.
    split; [intros [] | intros (_ & y & [] & _)]. }
  destruct (Nat.eqb (List.length (filterValidEmails l)) 0) eqn:E1.
  { apply length_zero_eqb in E1.
    split; [intros [] | intros (_ & Hk)].
    exact (requestedKey_valid_entries l E1 _ Hk). }
  unfold StudentRepository.findByEmailIn.
  rewrite filter_In, has_true_iff, requestedKey_canonical; reflexivity.
Qed.

(** X2: [getStudentsByEmails] returns exactly the stored rows whose
    e-mail is a requested key and, unless [includeSuspended] is set, that
    are not suspended; the rows come in ascending order of e-mail. *)
Theorem getStudentsByEmails_exact (l : list string) (includeSuspended : bool)
        (st : Store) :
  (forall s,
      In s (getStudentsByEmails l includeSuspended st)
      <-> In s (studentTable st) /\ requestedKey l (Student.email s)
          /\ (includeSuspended = true \/ Student.suspended s = false))
  /\ Sorted (ascending Student.email) (getStudentsByEmails l includeSuspended st).
Proof.
  unfold getStudentsByEmails.
  destruct (Nat.eqb (List.length l) 0) eqn:E0.
  { apply length_zero_eqb in E0; subst.
    split; [|constructor].
    intros s; split; [intros [] | intros (_ & (y & [] & _) & _)]. }
  destruct (Nat.eqb (List.length (filterValidEmails l)) 0) eqn:E1.
  { apply length_zero_eqb in E1.
    split; [|constructor].
    intros s; split; [intros [] | intros (_ & Hk & _)].
    exact (requestedKey_valid_entries l E1 _ Hk). }
  unfold StudentRepository.queryByEmails; split; [|apply sortBy_Sorted].
  intros s; rewrite sortBy_In, filter_In, andb_true_iff, orb_true_iff.
  rewrite has_true_iff, negb_true_iff, requestedKey_canonical; tauto.
Qed.

Lemma findOneByEmail_hasStudent e st :
  hasStudent st e ->
  exists s, StudentRepository.findOneByEmail e st = Some s
            /\ In s (studentTable st) /\ Student.email s = e.
Proof.
  intros (s0 & Hs0 & E0); unfold StudentRepository.findOneByEmail.
  destruct (find _ (studentTable st)) as [s|] eqn:Ef.
  - apply find_some in Ef; destruct Ef as [Hs E].
    exists s; repeat split; [exact Hs | apply String.eqb_eq, E].
  - apply (find_none _ _ Ef) in Hs0.
    rewrite E0, String.eqb_refl in Hs0; discriminate.
Qed.

(** X3: [findStudentByEmail] rejects an address that is malformed after
    normalization; otherwise it answers with a stored row whose e-mail is
    the normalized address, and with no row exactly when none is stored
    under it (absence is not an error). *)
Theorem findStudentByEmail_lookup (email : string) (st : Store) :
  (isValidEmail (normalizeEmail email) = false ->
   findStudentByEmail email st = Err (Error ERROR_MESSAGES.INVALID_EMAIL_FORMAT))
  /\ (isValidEmail (normalizeEmail email) = true ->
      exists found,
        findStudentByEmail email st = Ok found
        /\ (forall s, found = Some s ->
                      In s (studentTable st)
                      /\ Student.email s = normalizeEmail email)
        /\ (found = None <-> ~ hasStudent st (normalizeEmail email))).
Proof.
  unfold findStudentByEmail; split; intros Hv; rewrite Hv; [reflexivity|].
  cbn [negb]; eexists; split; [reflexivity|].
  unfold StudentRepository.findOneByEmail.
  destruct (find _ (studentTable st)) as [s|] eqn:Ef; split.
  - intros s' [= <-]; apply find_some in Ef; destruct Ef as [Hs E].
    split; [exact Hs | apply String.eqb_eq, E].
  - split; [discriminate|]; intros Hno; exfalso; apply Hno.
    apply find_some in Ef; destruct Ef as [Hs E].
    exists s; split; [exact Hs | apply String.eqb_eq, E].
  - discriminate.
  - split; [|reflexivity]; intros _ (s & Hs & E).
    apply (find_none _ _ Ef) in Hs.
    rewrite E, String.eqb_refl in Hs; discriminate.
Qed.

End StudentLookups.

Section BulkCreateInvariants.
Import EmailUtils StudentService.

Lemma newRows_ids first emails :
  map Student.id (StudentRepository.newRows first emails)
  = seq first (List.length emails).
Proof.
  unfold StudentRepository.newRows; rewrite map_map.
  assert (H : forall k,
             map (fun ie : nat * string =>
                    Student.id (Student.mk (first + fst ie) (snd ie) false))
                 (combine (seq k (List.length emails)) emails)
             = seq (first + k) (List.length emails)).
  { induction emails as [|e emails IH]; intros k; [reflexivity|].
    simpl; f_equal; rewrite IH; f_equal; apply Nat.add_succ_r. }
  rewrite H, Nat.add_0_r; reflexivity.
Qed.

Lemma newRows_not_suspended first emails s :
  In s (StudentRepository.newRows first emails) -> Student.suspended s = false.
Proof.
  unfold StudentRepository.newRows; rewrite in_map_iff.
  intros (ie & <- & _); reflexivity.
Qed.

Lemma missingEmails_In keys st e :
  In e (missingEmails keys st) <-> In e keys /\ ~ hasStudent st e.
Proof.
  unfold missingEmails, hasStudent.
  rewrite filter_In, negb_true_iff, has_false_iff, in_map_iff.
  split; intros [Hk Hn]; (split; [exact Hk|]); intros (s & H1 & H2);
    apply Hn; exists s; tauto.
Qed.

Lemma key_stored_or_missing keys st e :
  In e keys -> hasStudent st e \/ In e (missingEmails keys st).
Proof.
  intros He.
  destruct (JsSet.has e (map Student.email (studentTable st))) eqn:E.
  - left; apply has_true_iff, in_map_iff in E.
    destruct E as (s & E & Hs); exists s; tauto.
  - right; apply filter_In; rewrite E; auto.
Qed.

(** The store after a batch: unchanged, or grown by the rows of the keys
    that were missing. *)
Lemma bulkCreateStudents_store insertFails l st :
  snd (bulkCreateStudents insertFails l st) = st
  \/ (insertFails = false
      /\ snd (bulkCreateStudents insertFails l st)
         = mkStore
             (studentTable st
              ++ StudentRepository.newRows (StudentRepository.nextId st)
                   (missingEmails (canonical l) st))
             (teacherTable st) (teacherStudents st)).
Proof.
  destruct (filterValidEmails l) as [|v vs] eqn:Ev.
  - left; unfold bulkCreateStudents; rewrite Ev; cbn [List.length Nat.eqb].
    destruct (Nat.eqb (List.length l) 0); reflexivity.
  - rewrite bulkCreateStudents_cases by (rewrite Ev; discriminate).
    cbv zeta.
    destruct (missingEmails (canonical l) st); [left; reflexivity|].
    destruct insertFails; [left; reflexivity | right; split; reflexivity].
Qed.

Lemma nextId_fresh st s :
  In s (studentTable st) -> Student.id s < StudentRepository.nextId st.
Proof.
  intros Hs; unfold StudentRepository.nextId.
  pose proof (proj1 (list_max_le (map Student.id (studentTable st)) _)
                    (Nat.le_refl _)) as Hall.
  rewrite Forall_forall in Hall.
  specialize (Hall (Student.id s) (in_map Student.id _ _ Hs)); lia.
Qed.

(** X4: [bulkCreateStudents] keeps the store well formed, whether the
    insert goes through or not: student e-mails and student ids stay
    unique, the rows that were stored are still there, unchanged and in
    place, every added row is an active student, and teachers and
    memberships are not touched. *)
Theorem bulkCreateStudents_keeps_store_well_formed
        (insertFails : bool) (l : list string) (st : Store) :
  uniqueStudentEmails st ->
  uniqueStudentIds st ->
  let st1 := snd (bulkCreateStudents insertFails l st) in
  uniqueStudentEmails st1
  /\ uniqueStudentIds st1
  /\ (exists rows,
         studentTable st1 = studentTable st ++ rows
         /\ forall s, In s rows -> Student.suspended s = false)
  /\ teacherTable st1 = teacherTable st
  /\ teacherStudents st1 = teacherStudents st.
Proof.
  intros Hue Hui; cbv zeta.
  destruct (bulkCreateStudents_store insertFails l st) as [->|[_ ->]].
  - repeat split; auto.
    exists []; rewrite app_nil_r; split; [reflexivity | intros s []].
  - unfold uniqueStudentEmails, uniqueStudentIds in *.
    cbn [studentTable teacherTable teacherStudents].
    rewrite !map_app, newRows_emails, newRows_ids.
    repeat split.
    + apply NoDup_app; [exact Hue | apply NoDup_filter, normalizeEmails_NoDup|].
      intros e He Hm; apply missingEmails_In in Hm; destruct Hm as [_ Hn].
      apply Hn; apply in_map_iff in He; destruct He as (s & E & Hs).
      exists s; tauto.
    + apply NoDup_app; [exact Hui | apply seq_NoDup|].
      intros i Hi Hseq; apply in_seq in Hseq.
      apply in_map_iff in Hi; destruct Hi as (s & <- & Hs).
      pose proof (nextId_fresh st s Hs); lia.
    + eexists; split; [reflexivity|].
      intros s; apply newRows_not_suspended.
Qed.

Lemma bulkCreateStudents_keeps_store_well_formed_witness :
  uniqueStudentEmails Scenario.school
  /\ uniqueStudentIds Scenario.school
  /\ uniqueStudentIds
       (snd (bulkCreateStudents false
               ["StudentNew@gmail.com"; "studentjon@gmail.com"; "oops"]
               Scenario.school)).
Proof.
  assert (Hue : uniqueStudentEmails Scenario.school)
    by (unfold uniqueStudentEmails; simpl; concrete_NoDup).
  assert (Hui : uniqueStudentIds Scenario.school)
    by (unfold uniqueStudentIds; simpl; concrete_NoDup).
  split; [exact Hue|]; split; [exact Hui|].
  exact (proj1 (proj2 (bulkCreateStudents_keeps_store_well_formed false
                         ["StudentNew@gmail.com"; "studentjon@gmail.com"; "oops"]
                         Scenario.school Hue Hui))).
Defined.

(** X5: when the insert goes through, [bulkCreateStudents] counts every
    raw entry in [totalProcessed], reports exactly the entries that fail
    the validator (each occurrence) in [failed], leaves a stored row for
    the normalized form of every valid entry, and, student e-mails being
    unique, returns in [successful] one stored row per distinct
    normalized valid entry. *)
Theorem bulkCreateStudents_success (l : list string) (st : Store) :
  uniqueStudentEmails st ->
  let r := fst (bulkCreateStudents false l st) in
  let st1 := snd (bulkCreateStudents false l st) in
  totalProcessed r = List.length l
  /\ failed r = invalidFailures l
  /\ (forall e, requestedKey l e -> hasStudent st1 e)
  /\ Permutation (map Student.email (successful r)) (canonical l)
  /\ incl (successful r) (studentTable st1).
Proof.
  intros Hue; cbv zeta.
  pose proof (bulkCreateStudents_successful_stored false l st) as Hincl.
  destruct (filterValidEmails l) as [|v vs] eqn:Ev.
  { assert (Hc : canonical l = []) by (apply canonical_nil_iff, Ev).
    revert Hincl; unfold bulkCreateStudents; rewrite Ev.
    cbn [List.length Nat.eqb]; fold (invalidFailures l).
    destruct (Nat.eqb (List.length l) 0) eqn:E0; intros Hincl;
      cbn [fst snd totalProcessed failed successful map];
      rewrite Hc; repeat split; auto;
      try (intros e He; exfalso;
           exact (requestedKey_valid_entries l Ev e He)).
    apply length_zero_eqb in E0; subst; reflexivity. }
  revert Hincl.
  rewrite bulkCreateStudents_cases by (rewrite Ev; discriminate); cbv zeta.
  set (keys := canonical l).
  assert (Hexisting :
            forall e, In e (map Student.email
                                (StudentRepository.findByEmailIn keys st))
                      <-> In e keys /\ hasStudent st e).
  { intros e; unfold StudentRepository.findByEmailIn, hasStudent.
    rewrite in_map_iff; split.
    - intros (s & E & Hs); apply filter_In in Hs; destruct Hs as [Hs Hk].
      apply has_true_iff in Hk; rewrite E in Hk.
      split; [exact Hk | exists s; tauto].
    - intros (Hk & s & Hs & E); exists s; split; [exact E|].
      apply filter_In; split; [exact Hs | apply has_true_iff; rewrite E; exact Hk]. }
  assert (Hnd : NoDup (map Student.email
                           (StudentRepository.findByEmailIn keys st)))
    by (apply NoDup_map_filter, Hue).
  destruct (missingEmails keys st) as [|m ms] eqn:Em; intros Hincl;
    cbn [fst snd totalProcessed failed successful studentTable] in *.
  - repeat split; auto.
    + intros e He; apply requestedKey_canonical in He.
      destruct (key_stored_or_missing keys st e He) as [H|H]; [exact H|].
      rewrite Em in H; destruct H.
    + apply NoDup_Permutation; [exact Hnd | apply normalizeEmails_NoDup|].
      intros e; rewrite Hexisting; split; [tauto|]; intros He; split; [exact He|].
      destruct (key_stored_or_missing keys st e He) as [H|H]; [exact H|].
      rewrite Em in H; destruct H.
  - rewrite <- Em in *; repeat split; auto.
    + intros e He; apply requestedKey_canonical in He.
      destruct (key_stored_or_missing keys st e He) as [(s & Hs & E)|H].
      * exists s; split; [apply in_or_app; left; exact Hs | exact E].
      * rewrite <- (newRows_emails (StudentRepository.nextId st)
                      (missingEmails keys st)) in H.
        apply in_map_iff in H; destruct H as (s & E & Hs).
        exists s; split; [apply in_or_app; right; exact Hs | exact E].
    + rewrite map_app, newRows_emails.
      apply NoDup_Permutation; [|apply normalizeEmails_NoDup|].
      * apply NoDup_app; [exact Hnd | apply NoDup_filter, normalizeEmails_NoDup|].
        intros e He Hm; apply Hexisting in He; apply missingEmails_In in Hm.
        tauto.
      * intros e; rewrite in_app_iff, Hexisting, missingEmails_In.
        split; [tauto|]; intros He.
        destruct (key_stored_or_missing keys st e He) as [H|H]; [tauto|].
        apply missingEmails_In in H; tauto.
Qed.

Lemma bulkCreateStudents_success_witness :
  uniqueStudentEmails Scenario.school
  /\ Permutation
       (map Student.email
            (successful
               (fst (bulkCreateStudents false
                       ["StudentNew@gmail.com"; "studentjon@gmail.com";
                        "oops"; "STUDENTNEW@gmail.com"]
                       Scenario.school))))
       (canonical ["StudentNew@gmail.com"; "studentjon@gmail.com";
                   "oops"; "STUDENTNEW@gmail.com"]).
Proof.
  assert (Hue : uniqueStudentEmails Scenario.school)
    by (unfold uniqueStudentEmails; simpl; concrete_NoDup).
  split; [exact Hue|].
  exact (proj1 (proj2 (proj2 (proj2 (bulkCreateStudents_success
                                       ["StudentNew@gmail.com";
                                        "studentjon@gmail.com";
                                        "oops"; "STUDENTNEW@gmail.com"]
                                       Scenario.school Hue))))).
Defined.

End BulkCreateInvariants.

Section StudentRoundTrips.
Import EmailUtils StudentService.

Lemma bulkCreateStudents_stores_keys l st e :
  requestedKey l e -> hasStudent (snd (bulkCreateStudents false l st)) e.
Proof.
  intros He.
  assert (Hv : filterValidEmails l <> []).
  { intros E; exact (requestedKey_valid_entries l E e He). }
  apply requestedKey_canonical in He.
  rewrite bulkCreateStudents_cases by exact Hv; cbv zeta.
  destruct (key_stored_or_missing (canonical l) st e He) as [(s & Hs & E)|H].
  - destruct (missingEmails (canonical l) st); cbn [snd];
      exists s; split; auto.
    cbn [studentTable]; apply in_or_app; left; exact Hs.
  - destruct (missingEmails (canonical l) st) as [|m ms] eqn:Em; [destruct H|].
    rewrite <- Em in *; cbn [snd].
    rewrite <- (newRows_emails (StudentRepository.nextId st)
                  (missingEmails (canonical l) st)) in H.
    apply in_map_iff in H; destruct H as (s & E & Hs).
    exists s; split; [cbn [studentTable]; apply in_or_app; right; exact Hs|exact E].
Qed.

(** X6: insert, then look up.  After a batch whose insert went through,
    [findStudentByEmail] finds a student for every valid entry of the
    batch, under the entry's normalized e-mail, however the entry was
    spelled. *)
Theorem bulkCreateStudents_then_findStudentByEmail
        (l : list string) (st : Store) (entry : string) :
  In entry l ->
  isValidEmail entry = true ->
  exists s,
    findStudentByEmail entry (snd (bulkCreateStudents false l st)) = Ok (Some s)
    /\ Student.email s = normalizeEmail entry.
Proof.
  intros Hin Hv.
  assert (Hk : requestedKey l (normalizeEmail entry))
    by (exists entry; auto).
  destruct (findOneByEmail_hasStudent _ _
              (bulkCreateStudents_stores_keys l st _ Hk)) as (s & Hf & _ & E).
  exists s; split; [|exact E].
  unfold findStudentByEmail.
  rewrite (isValidEmail_normalizeEmail _ Hv); cbn [negb]; rewrite Hf.
  reflexivity.
Qed.

Lemma bulkCreateStudents_then_findStudentByEmail_witness :
  In "StudentNew@Gmail.com" ["studentjon@gmail.com"; "StudentNew@Gmail.com"]
  /\ isValidEmail "StudentNew@Gmail.com" = true
  /\ exists s,
       findStudentByEmail "StudentNew@Gmail.com"
         (snd (bulkCreateStudents false
                 ["studentjon@gmail.com"; "StudentNew@Gmail.com"]
                 Scenario.school))
       = Ok (Some s)
       /\ Student.email s = normalizeEmail "StudentNew@Gmail.com".
Proof.
  assert (Hin : In "StudentNew@Gmail.com"
                   ["studentjon@gmail.com"; "StudentNew@Gmail.com"])
    by (simpl; tauto).
  assert (Hv : isValidEmail "StudentNew@Gmail.com" = true)
    by (vm_compute; reflexivity).
  split; [exact Hin|]; split; [exact Hv|].
  exact (bulkCreateStudents_then_findStudentByEmail
           ["studentjon@gmail.com"; "StudentNew@Gmail.com"]
           Scenario.school "StudentNew@Gmail.com" Hin Hv).
Defined.

Lemma map_if_same {A B : Type} (f : A -> B) (p : A -> bool) (g : A -> A)
      (l : list A) :
  (forall a, f (g a) = f a) ->
  map f (map (fun a => if p a then g a else a) l) = map f l.
Proof.
  intros H; rewrite map_map; apply map_ext; intros a.
  destruct (p a); [apply H | reflexivity].
Qed.

Lemma suspendStudent_frame_ids email st :
  map Student.id (studentTable (snd (suspendStudent email st)))
  = map Student.id (studentTable st).
Proof.
  unfold suspendStudent.
  destruct (negb (isValidEmail (normalizeEmail email))); [reflexivity|].
  unfold StudentRepository.suspendByEmail; cbn [fst snd].
  destruct (Nat.eqb _ 0); cbn [snd studentTable];
    apply map_if_same; reflexivity.
Qed.

(** X7: [suspendStudent] changes nothing but the flag of the rows stored
    under the normalized address: ids and e-mails of all rows, teachers
    and memberships are as before; a row under another e-mail and a row
    that was suspended already stay as they are; no row loses its
    suspension; and a call that fails leaves the store untouched. *)
Theorem suspendStudent_frame (email : string) (st : Store) :
  let st1 := snd (suspendStudent email st) in
  map Student.id (studentTable st1) = map Student.id (studentTable st)
  /\ map Student.email (studentTable st1) = map Student.email (studentTable st)
  /\ teacherTable st1 = teacherTable st
  /\ teacherStudents st1 = teacherStudents st
  /\ (forall s, In s (studentTable st) ->
                Student.email s <> normalizeEmail email \/ Student.suspended s = true ->
                In s (studentTable st1))
  /\ (forall e, fst (suspendStudent email st) = Err e -> st1 = st).
Proof.
  cbv zeta; unfold suspendStudent.
  destruct (negb (isValidEmail (normalizeEmail email)));
    [cbn [fst snd]; repeat split; auto|].
  pose proof (suspendByEmail_affected (normalizeEmail email) st) as Haff.
  unfold StudentRepository.suspendByEmail in *; cbn [fst snd] in *.
  set (hit := fun s => String.eqb (Student.email s) (normalizeEmail email)) in *.
  assert (Hkeep : forall s,
             In s (studentTable st) ->
             Student.email s <> normalizeEmail email \/ Student.suspended s = true ->
             In s (map (fun s => if hit s
                                 then Student.mk (Student.id s) (Student.email s) true
                                 else s)
                       (studentTable st))).
  { intros s Hs Hc; apply in_map_iff; exists s; split; [|exact Hs].
    unfold hit; destruct (String.eqb_spec (Student.email s) (normalizeEmail email))
      as [E|N]; [|reflexivity].
    destruct Hc as [Hc|Hc]; [contradiction|].
    destruct s as [i e su]; simpl in *; subst; reflexivity. }
  destruct (Nat.eqb (List.length (filter hit (studentTable st))) 0) eqn:E0;
    cbn [fst snd studentTable teacherTable teacherStudents];
    (split; [apply map_if_same; reflexivity|]);
    (split; [apply map_if_same; reflexivity|]);
    repeat split; auto; intros e He; [|discriminate He].
  clear e He; apply Nat.eqb_eq in E0.
  destruct st as [T tt j]; cbn [studentTable teacherTable teacherStudents] in *.
  f_equal; rewrite <- (map_id T) at 2; apply map_ext_in; intros s Hs.
  assert (Eh : hit s = false).
  { destruct (hit s) eqn:Eh; [|reflexivity].
    exfalso; apply (proj1 Haff E0).
    exists s; split; [exact Hs | apply String.eqb_eq, Eh]. }
  unfold hit in Eh; rewrite Eh; reflexivity.
Qed.

End StudentRoundTrips.

Section ListingFacts.
Context {A : Type} (R : A -> A -> Prop).

Lemma Sorted_tail_of x l : Sorted R (x :: l) -> Sorted R l.
Proof. intros H; inversion H; assumption. Qed.

Lemma Sorted_skipn n : forall l, Sorted R l -> Sorted R (skipn n l).
Proof.
  induction n as [|n IH]; intros l Hl; [exact Hl|].
  destruct l as [|x l]; [constructor|].
  simpl; apply IH; eapply Sorted_tail_of, Hl.
Qed.

Lemma Sorted_firstn n : forall l, Sorted R l -> Sorted R (firstn n l).
Proof.
  induction n as [|n IH]; intros l Hl; [constructor|].
  destruct l as [|x l]; [constructor|].
  simpl; inversion Hl as [|? ? Hs Hh]; subst.
  constructor; [apply IH, Hs|].
  destruct n; [constructor|].
  destruct Hh; simpl; constructor; assumption.
Qed.

Lemma firstn_twice n : forall l : list A,
  firstn n l ++ firstn n (skipn n l) = firstn (n + n) l.
Proof.
  intros l.
  rewrite <- (firstn_skipn n l) at 3.
  destruct (Nat.le_gt_cases (List.length l) n) as [Hle|Hgt].
  - rewrite (skipn_all2 l Hle), firstn_nil, !app_nil_r.
    rewrite firstn_firstn; f_equal; lia.
  - rewrite firstn_app, length_firstn, firstn_firstn.
    replace (Nat.min n (List.length l)) with n by lia.
    replace (Nat.min (n + n) n) with n by lia.
    replace (n + n - n) with n by lia; reflexivity.
Qed.

Lemma filter_partition_length (p : A -> bool) (l : list A) :
  List.length (filter p l) + List.length (filter (fun a => negb (p a)) l)
  = List.length l.
Proof.
  induction l as [|a l IH]; [reflexivity|].
  simpl; destruct (p a); simpl; lia.
Qed.

Lemma filter_map_length_le (p : A -> bool) (g : A -> A) (l : list A) :
  (forall a, p (g a) = true -> p a = true) ->
  List.length (filter p (map g l)) <= List.length (filter p l).
Proof.
  intros H; induction l as [|a l IH]; [reflexivity|].
  simpl; destruct (p (g a)) eqn:E.
  - rewrite (H a E); simpl; lia.
  - destruct (p a); simpl; lia.
Qed.

End ListingFacts.

Section ActiveStudents.
Import EmailUtils StudentService.

Lemma truthy_window limit :
  (if JsArray.truthy limit then limit else None)
  = match limit with Some (S n) => Some (S n) | _ => None end.
Proof. destruct limit as [[|n]|]; reflexivity. Qed.

(** X8: [getActiveStudents] lists students that are stored and not
    suspended, in ascending order of e-mail, whatever the window; without
    a window it lists every such student; and a positive limit bounds the
    number of rows. *)
Theorem getActiveStudents_listing
        (limit offset : option nat) (st : Store) :
  (forall s, In s (getActiveStudents limit offset st) ->
             In s (studentTable st) /\ Student.suspended s = false)
  /\ Sorted (ascending Student.email) (getActiveStudents limit offset st)
  /\ (forall s, In s (getActiveStudents None None st)
                <-> In s (studentTable st) /\ Student.suspended s = false)
  /\ (forall n, limit = Some (S n) ->
                List.length (getActiveStudents limit offset st) <= S n).
Proof.
  unfold getActiveStudents, StudentRepository.queryActive,
    StudentRepository.window.
  set (all := JsArray.sortBy Student.email
                (filter (fun s => negb (Student.suspended s)) (studentTable st))).
  assert (Hall : forall s, In s all
                           <-> In s (studentTable st) /\ Student.suspended s = false).
  { intros s; unfold all.
    rewrite sortBy_In, filter_In, negb_true_iff; reflexivity. }
  assert (Hsorted : Sorted (ascending Student.email) all)
    by apply sortBy_Sorted.
  set (skipped := match (if JsArray.truthy offset then offset else None) with
                  | Some m => skipn m all
                  | None => all
                  end).
  assert (Hskip_in : forall s, In s skipped -> In s all).
  { unfold skipped; destruct (if JsArray.truthy offset then offset else None);
      [|auto].
    intros s Hs; rewrite <- (firstn_skipn n all); apply in_or_app; auto. }
  assert (Hskip_sorted : Sorted (ascending Student.email) skipped).
  { unfold skipped; destruct (if JsArray.truthy offset then offset else None);
      [apply Sorted_skipn|]; exact Hsorted. }
  split; [|split; [|split]].
  - intros s Hs; apply Hall, Hskip_in.
    destruct (if JsArray.truthy limit then limit else None) as [n|];
      [|exact Hs].
    rewrite <- (firstn_skipn n skipped); apply in_or_app; auto.
  - destruct (if JsArray.truthy limit then limit else None);
      [apply Sorted_firstn|]; exact Hskip_sorted.
  - exact Hall.
  - intros n ->; cbn [JsArray.truthy]; apply firstn_le_length.
Qed.

(** X9: the window of [getActiveStudents].  A limit or an offset of [0]
    is ignored like a missing one, so a limit of [0] returns every row
    and not none; a positive limit with an offset returns that slice of
    the full listing; and two consecutive pages make the page of double
    size. *)
Theorem getActiveStudents_window (st : Store) :
  (forall offset,
      getActiveStudents (Some 0) offset st = getActiveStudents None offset st)
  /\ (forall limit,
         getActiveStudents limit (Some 0) st = getActiveStudents limit None st)
  /\ (forall n m,
         getActiveStudents (Some (S n)) (Some m) st
         = firstn (S n) (skipn m (getActiveStudents None None st)))
  /\ (forall n m,
         getActiveStudents (Some (S n)) (Some m) st
         ++ getActiveStudents (Some (S n)) (Some (m + S n)) st
         = getActiveStudents (Some (S n + S n)) (Some m) st).
Proof.
  assert (Hslice : forall n m,
             getActiveStudents (Some (S n)) (Some m) st
             = firstn (S n) (skipn m (getActiveStudents None None st))).
  { intros n m; unfold getActiveStudents, StudentRepository.queryActive,
      StudentRepository.window.
    destruct m; reflexivity. }
  repeat split; try reflexivity; [exact Hslice|].
  intros n m.
  change (S n + S n) with (S (n + S n)).
  rewrite !Hslice.
  replace (m + S n) with (S n + m) by lia.
  rewrite <- skipn_skipn.
  change (S (n + S n)) with (S n + S n).
  apply firstn_twice.
Qed.

(** X10: [countStudents].  The count without a filter is the sum of the
    counts of suspended and of active students; the count of active
    students is the length of the full active listing; and suspending a
    student never changes the total, never raises the number of active
    students and never lowers the number of suspended ones. *)
Theorem countStudents_partition (st : Store) :
  countStudents None st
  = countStudents (Some true) st + countStudents (Some false) st
  /\ countStudents (Some false) st
     = List.length (getActiveStudents None None st)
  /\ (forall email,
         let st1 := snd (suspendStudent email st) in
         countStudents None st1 = countStudents None st
         /\ countStudents (Some false) st1 <= countStudents (Some false) st
         /\ countStudents (Some true) st <= countStudents (Some true) st1).
Proof.
  unfold countStudents, StudentRepository.count.
  assert (Hsum : forall T : list Student.t,
             List.length T
             = List.length (filter (fun s => Bool.eqb (Student.suspended s) true) T)
               + List.length (filter (fun s => Bool.eqb (Student.suspended s) false) T)).
  { intros T.
    rewrite <- (filter_partition_length
                  (fun s => Bool.eqb (Student.suspended s) true) T) at 1.
    f_equal; f_equal; apply filter_ext; intros s.
    destruct (Student.suspended s); reflexivity. }
  split; [apply Hsum|]; split.
  - unfold getActiveStudents, StudentRepository.queryActive,
      StudentRepository.window; cbn [JsArray.truthy].
    now rewrite (Permutation_length (sortBy_Permutation Student.email _)).
  - intros email; cbv zeta.
    assert (Htotal : List.length (studentTable (snd (suspendStudent email st)))
                     = List.length (studentTable st)).
    { rewrite <- (length_map Student.id), <- (length_map Student.id (studentTable st)).
      f_equal; apply (suspendStudent_frame_ids email st). }
    assert (Hactive :
              List.length
                (filter (fun s => Bool.eqb (Student.suspended s) false)
                        (studentTable (snd (suspendStudent email st))))
              <= List.length
                   (filter (fun s => Bool.eqb (Student.suspended s) false)
                           (studentTable st))).
    { unfold suspendStudent.
      destruct (negb (isValidEmail (normalizeEmail email))); [reflexivity|].
      unfold StudentRepository.suspendByEmail; cbn [fst snd].
      destruct (Nat.eqb _ 0); cbn [snd studentTable];
        apply filter_map_length_le; intros s;
        destruct (String.eqb (Student.email s) (normalizeEmail email));
        simpl; congruence. }
    split; [exact Htotal|]; split; [exact Hactive|].
    pose proof (Hsum (studentTable st)).
    pose proof (Hsum (studentTable (snd (suspendStudent email st)))).
    lia.
Qed.

End ActiveStudents.

(* ================================================================== *)
(** * Further properties of the teacher service *)

Section RegistrationOutcome.
Import EmailUtils TeacherService.

Lemma find_hasTeacher e st :
  hasTeacher st e ->
  exists row, find (fun r => String.eqb (Teacher.rowEmail r) e) (teacherTable st)
              = Some row.
Proof.
  intros (r & Hr & E).
  destruct (find _ (teacherTable st)) as [row|] eqn:Ef; [eauto|].
  apply (find_none _ _ Ef) in Hr; rewrite E, String.eqb_refl in Hr.
  discriminate.
Qed.

Lemma find_no_teacher e st :
  ~ hasTeacher st e ->
  find (fun r => String.eqb (Teacher.rowEmail r) e) (teacherTable st) = None.
Proof.
  intros Hno; destruct (find _ (teacherTable st)) as [row|] eqn:Ef; [|reflexivity].
  apply find_some in Ef; destruct Ef as [Hr E].
  exfalso; apply Hno; exists row; split; [exact Hr | apply String.eqb_eq, E].
Qed.

Lemma registerFound_Ok insertFails teacher l st :
  filterValidEmails l <> [] ->
  fst (registerFound insertFails teacher l st) = Ok tt.
Proof.
  intros Hv; unfold registerFound.
  destruct (Nat.eqb (List.length (filterValidEmails l)) 0) eqn:E;
    [apply length_zero_eqb in E; contradiction|].
  destruct (StudentService.bulkCreateStudents insertFails (filterValidEmails l) st)
    as [r st1].
  destruct (Nat.eqb (List.length (successful r)) 0); [reflexivity|].
  destruct (Nat.eqb (List.length (filter _ (successful r))) 0); reflexivity.
Qed.

Lemma registerStudentsToTeacher_teacherTable insertFails teacherEmail l st :
  teacherTable (snd (registerStudentsToTeacher insertFails teacherEmail l st))
  = teacherTable st.
Proof.
  rewrite registerStudentsToTeacher_found.
  destruct (Nat.eqb (List.length l) 0); [reflexivity|].
  destruct (negb _); [reflexivity|].
  destruct (find _ (teacherTable st)); [|reflexivity].
  apply registerFound_teacherTable.
Qed.

(** X11: the outcome of [registerStudentsToTeacher], check by check.  An
    empty list is rejected first, then a malformed teacher address, then
    an unknown teacher ([NotFoundException]: no teacher is created), then
    a list without a valid entry; each rejection leaves the store as it
    was.  Otherwise the call succeeds, also when the insert of new
    students is rejected.  In no case does the teacher table change. *)
Theorem registerStudentsToTeacher_outcome
        (insertFails : bool) (teacherEmail : string) (l : list string)
        (st : Store) :
  (l = [] ->
   registerStudentsToTeacher insertFails teacherEmail l st
   = (Err (BadRequestException ERROR_MESSAGES.EMPTY_STUDENT_LIST), st))
  /\ (l <> [] ->
      isValidEmail (normalizeEmail teacherEmail) = false ->
      registerStudentsToTeacher insertFails teacherEmail l st
      = (Err (BadRequestException ERROR_MESSAGES.INVALID_EMAIL_FORMAT), st))
  /\ (l <> [] ->
      isValidEmail (normalizeEmail teacherEmail) = true ->
      ~ hasTeacher st (normalizeEmail teacherEmail) ->
      registerStudentsToTeacher insertFails teacherEmail l st
      = (Err (NotFoundException ERROR_MESSAGES.TEACHER_NOT_FOUND), st))
  /\ (l <> [] ->
      isValidEmail (normalizeEmail teacherEmail) = true ->
      hasTeacher st (normalizeEmail teacherEmail) ->
      filterValidEmails l = [] ->
      registerStudentsToTeacher insertFails teacherEmail l st
      = (Err (BadRequestException ERROR_MESSAGES.INVALID_EMAIL_FORMAT), st))
  /\ (l <> [] ->
      isValidEmail (normalizeEmail teacherEmail) = true ->
      hasTeacher st (normalizeEmail teacherEmail) ->
      filterValidEmails l <> [] ->
      fst (registerStudentsToTeacher insertFails teacherEmail l st) = Ok tt)
  /\ teacherTable (snd (registerStudentsToTeacher insertFails teacherEmail l st))
     = teacherTable st.
Proof.
  assert (Hne : l <> [] -> Nat.eqb (List.length l) 0 = false).
  { intros H; destruct (Nat.eqb (List.length l) 0) eqn:E; [|reflexivity].
    apply length_zero_eqb in E; contradiction. }
  split; [intros ->; reflexivity|].
  split; [|split; [|split; [|split]]].
  - intros Hl Hv; rewrite registerStudentsToTeacher_found, (Hne Hl).
    rewrite normalizeEmail_idem, Hv; reflexivity.
  - intros Hl Hv Hno; rewrite registerStudentsToTeacher_found, (Hne Hl).
    rewrite normalizeEmail_idem, Hv, (find_no_teacher _ _ Hno); reflexivity.
  - intros Hl Hv Hex E; rewrite registerStudentsToTeacher_found, (Hne Hl).
    rewrite normalizeEmail_idem, Hv; cbn [negb].
    destruct (find_hasTeacher _ _ Hex) as (row & ->).
    unfold registerFound; rewrite E; reflexivity.
  - intros Hl Hv Hex Hvalid; rewrite registerStudentsToTeacher_found, (Hne Hl).
    rewrite normalizeEmail_idem, Hv; cbn [negb].
    destruct (find_hasTeacher _ _ Hex) as (row & ->).
    apply registerFound_Ok, Hvalid.
  - apply registerStudentsToTeacher_teacherTable.
Qed.

End RegistrationOutcome.

Section RegistrationEffect.
Import EmailUtils StudentService TeacherService.

Lemma requestedKey_filterValidEmails l e :
  requestedKey (filterValidEmails l) e <-> requestedKey l e.
Proof.
  unfold requestedKey; split; intros (y & Hy & Hv & E); exists y.
  - apply filterValidEmails_In in Hy; tauto.
  - split; [apply filterValidEmails_In; tauto | tauto].
Qed.

Lemma bulkCreateStudents_successful_requested insertFails l st s :
  In s (successful (fst (bulkCreateStudents insertFails l st))) ->
  requestedKey l (Student.email s).
Proof.
  destruct (filterValidEmails l) as [|v vs] eqn:Ev.
  - unfold bulkCreateStudents; rewrite Ev; cbn [List.length Nat.eqb].
    destruct (Nat.eqb (List.length l) 0); intros [].
  - rewrite bulkCreateStudents_cases by (rewrite Ev; discriminate); cbv zeta.
    assert (Hex : forall s',
               In s' (StudentRepository.findByEmailIn (canonical l) st) ->
               requestedKey l (Student.email s')).
    { intros s' H; apply filter_In in H; destruct H as [_ H].
      apply has_true_iff in H; apply requestedKey_canonical, H. }
    assert (Hnew : forall s',
               In s' (StudentRepository.newRows (StudentRepository.nextId st)
                        (missingEmails (canonical l) st)) ->
               requestedKey l (Student.email s')).
    { intros s' H; apply (in_map Student.email) in H.
      rewrite newRows_emails in H; apply missingEmails_In in H.
      apply requestedKey_canonical; tauto. }
    destruct (missingEmails (canonical l) st) as [|m ms] eqn:Em;
      [cbn [fst successful]; apply Hex|].
    rewrite <- Em in *; destruct insertFails; cbn [fst successful];
      [apply Hex|].
    intros H; apply in_app_or in H; destruct H; auto.
Qed.

Lemma bulkCreateStudents_successful_covers l st e :
  requestedKey l e ->
  exists s, In s (successful (fst (bulkCreateStudents false l st)))
            /\ Student.email s = e.
Proof.
  intros He.
  assert (Hv : filterValidEmails l <> []).
  { intros E; exact (requestedKey_valid_entries l E e He). }
  apply requestedKey_canonical in He.
  rewrite bulkCreateStudents_cases by exact Hv; cbv zeta.
  assert (Hex : forall s, In s (studentTable st) -> Student.email s = e ->
                          In s (StudentRepository.findByEmailIn (canonical l) st)).
  { intros s Hs E; apply filter_In; split; [exact Hs|].
    apply has_true_iff; rewrite E; exact He. }
  destruct (key_stored_or_missing (canonical l) st e He) as [(s & Hs & E)|H].
  - exists s; split; [|exact E].
    destruct (missingEmails (canonical l) st); cbn [fst successful];
      [|apply in_or_app; left]; apply Hex; assumption.
  - destruct (missingEmails (canonical l) st) as [|m ms] eqn:Em; [destruct H|].
    rewrite <- Em in *; cbn [fst successful].
    rewrite <- (newRows_emails (StudentRepository.nextId st)
                  (missingEmails (canonical l) st)) in H.
    apply in_map_iff in H; destruct H as (s & E & Hs).
    exists s; split; [apply in_or_app; right; exact Hs | exact E].
Qed.

Lemma bulkCreateStudents_ids insertFails l st :
  uniqueStudentIds st ->
  uniqueStudentIds (snd (bulkCreateStudents insertFails l st)).
Proof.
  intros Hui.
  destruct (bulkCreateStudents_store insertFails l st) as [->|[_ ->]];
    [exact Hui|].
  unfold uniqueStudentIds in *; cbn [studentTable].
  rewrite map_app, newRows_ids.
  apply NoDup_app; [exact Hui | apply seq_NoDup|].
  intros i Hi Hseq; apply in_seq in Hseq.
  apply in_map_iff in Hi; destruct Hi as (s & <- & Hs).
  pose proof (nextId_fresh st s Hs); lia.
Qed.

Lemma load_students_In st row s :
  In s (Teacher.students (TeacherRepository.load st row))
  <-> In s (studentTable st)
      /\ In (Teacher.rowId row, Student.id s) (teacherStudents st).
Proof.
  unfold TeacherRepository.load; cbn [Teacher.students].
  rewrite filter_In, hasEdge_true_iff; reflexivity.
Qed.

Lemma save_edges t st tid sid :
  In (tid, sid) (teacherStudents (TeacherRepository.save t st))
  <-> (In (tid, sid) (teacherStudents st)
       /\ (tid <> Teacher.id t
           \/ In sid (map Student.id (Teacher.students t))))
      \/ (tid = Teacher.id t /\ In sid (map Student.id (Teacher.students t))).
Proof.
  unfold TeacherRepository.save; cbn [teacherStudents].
  rewrite fold_addEdge_In, filter_In, in_map_iff, orb_true_iff,
    negb_true_iff, Nat.eqb_neq, hasNumber_true_iff.
  cbn [fst snd]; split.
  - intros [H|(i & [= <- <-] & Hi)]; [left; exact H | right; auto].
  - intros [H|[-> Hi]]; [left; exact H | right; exists sid; auto].
Qed.

Lemma bulkCreateStudents_added_successful insertFails l st s :
  In s (studentTable (snd (bulkCreateStudents insertFails l st))) ->
  In s (studentTable st)
  \/ In s (successful (fst (bulkCreateStudents insertFails l st))).
Proof.
  destruct (filterValidEmails l) as [|v vs] eqn:Ev.
  - unfold bulkCreateStudents; rewrite Ev; cbn [List.length Nat.eqb].
    destruct (Nat.eqb (List.length l) 0); cbn [snd]; auto.
  - rewrite bulkCreateStudents_cases by (rewrite Ev; discriminate); cbv zeta.
    destruct (missingEmails (canonical l) st) as [|m ms] eqn:Em;
      [cbn [snd]; auto|].
    rewrite <- Em; destruct insertFails; cbn [fst snd successful studentTable];
      [auto|].
    intros H; apply in_app_or in H; destruct H as [H|H]; [left; exact H|].
    right; apply in_or_app; right; exact H.
Qed.

(** The effect of the registration on the store, from the point where the
    teacher has been loaded. *)
Lemma registerFound_effect l st row :
  uniqueStudentIds st ->
  let st2 := snd (registerFound false (TeacherRepository.load st row) l st) in
  (forall e, requestedKey l e ->
             exists s, In s (Teacher.students (TeacherRepository.load st2 row))
                       /\ Student.email s = e)
  /\ (forall s, In s (Teacher.students (TeacherRepository.load st row)) ->
                In s (Teacher.students (TeacherRepository.load st2 row)))
  /\ (forall s, In s (Teacher.students (TeacherRepository.load st2 row)) ->
                In s (Teacher.students (TeacherRepository.load st row))
                \/ requestedKey l (Student.email s))
  /\ (forall tid sid, tid <> Teacher.rowId row ->
        (In (tid, sid) (teacherStudents st2)
         <-> In (tid, sid) (teacherStudents st))).
Proof.
  intros Hui; cbv zeta; unfold registerFound.
  destruct (Nat.eqb (List.length (filterValidEmails l)) 0) eqn:E0.
  { apply length_zero_eqb in E0; cbn [snd].
    split; [|split; [|split]]; auto; try tauto.
    intros e He; exfalso; exact (requestedKey_valid_entries l E0 e He). }
  assert (Hreq : forall s,
             In s (successful (fst (bulkCreateStudents false
                                      (filterValidEmails l) st))) ->
             requestedKey l (Student.email s)).
  { intros s Hs; apply requestedKey_filterValidEmails.
    exact (bulkCreateStudents_successful_requested _ _ _ _ Hs). }
  assert (Hcov : forall e, requestedKey l e ->
             exists s,
               In s (successful (fst (bulkCreateStudents false
                                        (filterValidEmails l) st)))
               /\ Student.email s = e).
  { intros e He; apply bulkCreateStudents_successful_covers.
    apply requestedKey_filterValidEmails, He. }
  pose proof (bulkCreateStudents_successful_stored false
                (filterValidEmails l) st) as Hstored.
  pose proof (bulkCreateStudents_added_successful false
                (filterValidEmails l) st) as Hadded.
  pose proof (bulkCreateStudents_ids false (filterValidEmails l) st Hui)
    as Hui1.
  destruct (bulkCreateStudents_table_grows false (filterValidEmails l) st)
    as (rows & Htab & _ & Hjoin).
  destruct (bulkCreateStudents false (filterValidEmails l) st) as [r st1].
  cbn [fst snd] in *.
  set (old := Teacher.students (TeacherRepository.load st row)) in *.
  assert (Hold : forall s, In s old ->
                           In s (studentTable st1)
                           /\ In (Teacher.rowId row, Student.id s)
                                 (teacherStudents st1)).
  { intros s Hs; apply load_students_In in Hs; rewrite Htab, Hjoin.
    split; [apply in_or_app; left|]; tauto. }
  assert (Hfresh : forall s, In s (studentTable st1) ->
                             In (Student.id s) (map Student.id old) ->
                             In s old).
  { intros s Hs Hid; apply in_map_iff in Hid; destruct Hid as (s' & E & Hs').
    assert (s' = s); [|subst; exact Hs'].
    apply (NoDup_map_injective Student.id (studentTable st1)); auto.
    apply (Hold s' Hs'). }
  (* the store when nothing is saved *)
  assert (Hsame :
            (forall e, requestedKey l e ->
                       exists s, In s old /\ Student.email s = e) ->
            (forall e, requestedKey l e ->
               exists s, In s (Teacher.students (TeacherRepository.load st1 row))
                         /\ Student.email s = e)
            /\ (forall s, In s old ->
                  In s (Teacher.students (TeacherRepository.load st1 row)))
            /\ (forall s, In s (Teacher.students (TeacherRepository.load st1 row)) ->
                  In s old \/ requestedKey l (Student.email s))
            /\ (forall tid sid, tid <> Teacher.rowId row ->
                  (In (tid, sid) (teacherStudents st1)
                   <-> In (tid, sid) (teacherStudents st)))).
  { intros Hkeys.
    assert (Hkeep : forall s, In s old ->
               In s (Teacher.students (TeacherRepository.load st1 row))).
    { intros s Hs; apply load_students_In; apply Hold, Hs. }
    split; [|split; [|split]].
    - intros e He; destruct (Hkeys e He) as (s & Hs & E); exists s; auto.
    - exact Hkeep.
    - intros s Hs; apply load_students_In in Hs; destruct Hs as [Hs He].
      rewrite Hjoin in He.
      destruct (Hadded s Hs) as [H|H]; [|right; apply Hreq, H].
      left; apply load_students_In; tauto.
    - intros tid sid _; rewrite Hjoin; reflexivity. }
  destruct (Nat.eqb (List.length (successful r)) 0) eqn:E1.
  { apply length_zero_eqb in E1; cbn [snd]; apply Hsame.
    intros e He; destruct (Hcov e He) as (s & Hs & _).
    rewrite E1 in Hs; destruct Hs. }
  set (new := filter (fun student =>
                        negb (JsArray.hasNumber (Student.id student)
                                                (map Student.id old)))
                     (successful r)).
  destruct (Nat.eqb (List.length new) 0) eqn:E2.
  { apply length_zero_eqb in E2; cbn [snd]; apply Hsame.
    intros e He; destruct (Hcov e He) as (s & Hs & E).
    exists s; split; [|exact E].
    apply Hfresh; [apply Hstored, Hs|].
    apply hasNumber_true_iff.
    destruct (JsArray.hasNumber (Student.id s) (map Student.id old)) eqn:Eh;
      [reflexivity|].
    assert (Hin : In s new) by (apply filter_In; rewrite Eh; auto).
    rewrite E2 in Hin; destruct Hin. }
  cbn [snd].
  assert (Hnew : forall s, In s new -> In s (successful r))
    by (intros s Hs; apply filter_In in Hs; tauto).
  assert (Hedge : forall s,
             In (Teacher.rowId row, Student.id s)
                (teacherStudents
                   (TeacherRepository.save
                      (Teacher.mk (Teacher.id (TeacherRepository.load st row))
                                  (Teacher.email (TeacherRepository.load st row))
                                  (old ++ new)) st1))
             <-> In (Student.id s) (map Student.id (old ++ new))).
  { intros s; rewrite save_edges; cbn [Teacher.id Teacher.students
                                        TeacherRepository.load].
    split; [intros [[_ [H|H]]|[_ H]]; [congruence | exact H | exact H]|].
    intros H; right; auto. }
  assert (Hload : forall s,
             In s (Teacher.students
                     (TeacherRepository.load
                        (TeacherRepository.save
                           (Teacher.mk
                              (Teacher.id (TeacherRepository.load st row))
                              (Teacher.email (TeacherRepository.load st row))
                              (old ++ new)) st1) row))
             <-> In s (studentTable st1)
                 /\ In (Student.id s) (map Student.id (old ++ new))).
  { intros s; rewrite load_students_In, Hedge; reflexivity. }
  split; [|split; [|split]].
  - intros e He; destruct (Hcov e He) as (s & Hs & E).
    exists s; split; [|exact E].
    apply Hload; split; [apply Hstored, Hs|].
    rewrite map_app, in_app_iff.
    destruct (JsArray.hasNumber (Student.id s) (map Student.id old)) eqn:Eh.
    + left; apply hasNumber_true_iff, Eh.
    + right; apply in_map, filter_In; rewrite Eh; auto.
  - intros s Hs; apply Hload; split; [apply Hold, Hs|].
    apply in_map, in_or_app; left; exact Hs.
  - intros s Hs; apply Hload in Hs; destruct Hs as [Hs Hid].
    apply in_map_iff in Hid; destruct Hid as (s' & E & Hs').
    assert (Hs1 : In s' (studentTable st1)).
    { apply in_app_or in Hs'; destruct Hs' as [H|H];
        [apply Hold, H | apply Hstored, Hnew, H]. }
    assert (s' = s)
      by (apply (NoDup_map_injective Student.id (studentTable st1)); auto).
    subst s'; apply in_app_or in Hs'; destruct Hs' as [H|H];
      [left; exact H | right; apply Hreq, Hnew, H].
  - intros tid sid Hne; rewrite save_edges, Hjoin.
    cbn [Teacher.id TeacherRepository.load]; tauto.
Qed.

(** X12: what a registration that goes through stores.  For a stored
    teacher and unique student ids, after [registerStudentsToTeacher] (the
    insert of new students being accepted) the teacher has a student for
    the normalized form of every valid entry of the list; every student
    the teacher had is still a member; every member is a former member or
    carries a requested e-mail; and no membership of another teacher is
    added or removed. *)
Theorem registerStudentsToTeacher_effect
        (teacherEmail : string) (l : list string) (st : Store)
        (row : Teacher.row) :
  uniqueStudentIds st ->
  isValidEmail (normalizeEmail teacherEmail) = true ->
  find (fun r => String.eqb (Teacher.rowEmail r) (normalizeEmail teacherEmail))
       (teacherTable st) = Some row ->
  let st2 := snd (registerStudentsToTeacher false teacherEmail l st) in
  membership teacherEmail st2
  = Some (Teacher.students (TeacherRepository.load st2 row))
  /\ (forall e, requestedKey l e ->
                exists s, In s (Teacher.students (TeacherRepository.load st2 row))
                          /\ Student.email s = e)
  /\ (forall s, In s (Teacher.students (TeacherRepository.load st row)) ->
                In s (Teacher.students (TeacherRepository.load st2 row)))
  /\ (forall s, In s (Teacher.students (TeacherRepository.load st2 row)) ->
                In s (Teacher.students (TeacherRepository.load st row))
                \/ requestedKey l (Student.email s))
  /\ (forall tid sid, tid <> Teacher.rowId row ->
        (In (tid, sid) (teacherStudents st2)
         <-> In (tid, sid) (teacherStudents st))).
Proof.
  intros Hui Hv Hfind; cbv zeta.
  split.
  { unfold membership, TeacherRepository.findOneByEmail.
    rewrite registerStudentsToTeacher_teacherTable, Hfind; reflexivity. }
  rewrite registerStudentsToTeacher_found, normalizeEmail_idem, Hv, Hfind.
  cbn [negb].
  destruct (Nat.eqb (List.length l) 0) eqn:E0.
  - apply length_zero_eqb in E0; subst l; cbn [snd].
    split; [|split; [|split]]; auto; try tauto.
    intros e (y & [] & _).
  - exact (registerFound_effect l st row Hui).
Qed.

Lemma registerStudentsToTeacher_effect_witness :
  uniqueStudentIds Scenario.school
  /\ isValidEmail (normalizeEmail " TeacherKen@Gmail.com") = true
  /\ exists s,
       In s (Teacher.students
               (TeacherRepository.load
                  (snd (registerStudentsToTeacher false " TeacherKen@Gmail.com"
                          ["StudentNew@Gmail.com"; "oops"] Scenario.school))
                  (Teacher.mkRow 1 "teacherken@gmail.com")))
       /\ Student.email s = "studentnew@gmail.com".
Proof.
  assert (Hui : uniqueStudentIds Scenario.school)
    by (unfold uniqueStudentIds; simpl; concrete_NoDup).
  assert (Hv : isValidEmail (normalizeEmail " TeacherKen@Gmail.com") = true)
    by reflexivity.
  split; [exact Hui|]; split; [exact Hv|].
  refine (proj1 (proj2 (registerStudentsToTeacher_effect
                          " TeacherKen@Gmail.com"
                          ["StudentNew@Gmail.com"; "oops"] Scenario.school
                          (Teacher.mkRow 1 "teacherken@gmail.com")
                          Hui Hv eq_refl))
                "studentnew@gmail.com" _).
  exists "StudentNew@Gmail.com"; repeat split; simpl; auto.
Defined.

End RegistrationEffect.

Section TeacherListings.
Import EmailUtils TeacherService.

Lemma activeEmails_registeredActive st row e :
  In e (activeEmails (TeacherRepository.load st row))
  <-> registeredActive st (Teacher.rowId row) e.
Proof.
  unfold activeEmails, registeredActive; rewrite in_map_iff; split.
  - intros (s & E & Hs); apply filter_In in Hs; destruct Hs as [Hs Ha].
    apply load_students_In in Hs; apply negb_true_iff in Ha.
    exists s; tauto.
  - intros (s & Hs & He & Ha & E); exists s; split; [exact E|].
    apply filter_In; split; [apply load_students_In; tauto|].
    rewrite Ha; reflexivity.
Qed.

Lemma sort_Sorted l : Sorted (ascending (fun e : string => e)) (JsArray.sort l).
Proof. apply (sortBy_Sorted (fun e : string => e)). Qed.

(** X13: [getTeacherStudents] rejects an address that is malformed after
    normalization, fails with [NotFoundException] when no teacher is
    stored under the normalized address, and otherwise returns, in
    ascending order, exactly the e-mails of the teacher's students that
    are not suspended. *)
Theorem getTeacherStudents_outcome (teacherEmail : string) (st : Store) :
  (isValidEmail (normalizeEmail teacherEmail) = false ->
   getTeacherStudents teacherEmail st
   = Err (BadRequestException ERROR_MESSAGES.INVALID_EMAIL_FORMAT))
  /\ (isValidEmail (normalizeEmail teacherEmail) = true ->
      ~ hasTeacher st (normalizeEmail teacherEmail) ->
      getTeacherStudents teacherEmail st
      = Err (NotFoundException ERROR_MESSAGES.TEACHER_NOT_FOUND))
  /\ (forall row,
        isValidEmail (normalizeEmail teacherEmail) = true ->
        find (fun r => String.eqb (Teacher.rowEmail r)
                                  (normalizeEmail teacherEmail))
             (teacherTable st) = Some row ->
        exists out,
          getTeacherStudents teacherEmail st = Ok out
          /\ Sorted (ascending (fun e => e)) out
          /\ forall e, In e out <-> registeredActive st (Teacher.rowId row) e).
Proof.
  unfold getTeacherStudents, findTeacherByEmail,
    TeacherRepository.findOneByEmail.
  split; [|split].
  - intros ->; reflexivity.
  - intros -> Hno; rewrite (find_no_teacher _ _ Hno); reflexivity.
  - intros row -> ->; cbn [negb bind option_map].
    eexists; split; [reflexivity|]; split; [apply sort_Sorted|].
    intros e; rewrite sort_In; apply activeEmails_registeredActive.
Qed.

Lemma findByEmailIn_length_all keys st :
  NoDup keys -> uniqueTeacherEmails st ->
  (forall k, In k keys -> hasTeacher st k) ->
  List.length (TeacherRepository.findByEmailIn keys st) = List.length keys.
Proof.
  intros Hk Hu Hall; unfold TeacherRepository.findByEmailIn.
  rewrite length_map.
  rewrite <- (length_map Teacher.rowEmail).
  apply Permutation_length, NoDup_Permutation;
    [apply NoDup_map_filter, Hu | exact Hk |].
  intros e; rewrite in_map_iff; split.
  - intros (r & E & Hr); apply filter_In in Hr; destruct Hr as [_ Hr].
    apply has_true_iff in Hr; rewrite E in Hr; exact Hr.
  - intros He; destruct (Hall e He) as (r & Hr & E).
    exists r; split; [exact E|]; apply filter_In; split; [exact Hr|].
    apply has_true_iff; rewrite E; exact He.
Qed.

(** The answer of [getCommonStudents] once the request holds a valid
    entry: nothing when the look-up returns another number of teachers
    than there are keys, else what all the teachers found share. *)
Lemma getCommonStudents_valid l st :
  filterValidEmails l <> [] ->
  exists out,
    getCommonStudents l st = Ok out
    /\ Sorted (ascending (fun e => e)) out
    /\ ((List.length (TeacherRepository.findByEmailIn (canonical l) st)
         <> List.length (canonical l) /\ out = [])
        \/ (List.length (TeacherRepository.findByEmailIn (canonical l) st)
            = List.length (canonical l)
            /\ forall e,
                 In e out
                 <-> forall t,
                       In t (TeacherRepository.findByEmailIn (canonical l) st) ->
                       In e (activeEmails t))).
Proof.
  intros Hv; unfold getCommonStudents.
  assert (Hl : l <> []) by (intros ->; apply Hv; reflexivity).
  destruct (Nat.eqb (List.length l) 0) eqn:E0;
    [apply length_zero_eqb in E0; contradiction|].
  destruct (Nat.eqb (List.length (filterValidEmails l)) 0) eqn:E1;
    [apply length_zero_eqb in E1; contradiction|].
  fold (canonical l).
  assert (Hc : canonical l <> [])
    by (intros E; apply canonical_nil_iff in E; contradiction).
  set (teachers := TeacherRepository.findByEmailIn (canonical l) st).
  destruct (Nat.eqb (List.length teachers) (List.length (canonical l))) eqn:E2;
    cbn [negb].
  2:{ apply Nat.eqb_neq in E2.
      exists []; split; [reflexivity|]; split; [constructor|]; left; auto. }
  apply Nat.eqb_eq in E2.
  destruct teachers as [|t0 ts] eqn:Et.
  { exfalso; apply Hc; apply length_zero_iff_nil; rewrite <- E2; reflexivity. }
  destruct (Nat.eqb (List.length (t0 :: ts)) 1) eqn:E3.
  - destruct ts; [|discriminate E3].
    eexists; split; [reflexivity|]; split; [apply sort_Sorted|].
    right; split; [exact E2|].
    intros e; rewrite sort_In; split.
    + intros He t [<-|[]]; exact He.
    + intros H; apply H; left; reflexivity.
  - cbn [map].
    eexists; split; [reflexivity|]; split; [apply sort_Sorted|].
    right; split; [exact E2|].
    intros e; rewrite sort_In, filter_In, forallb_forall.
    rewrite ofArray_firstSeen, firstSeen_In; split.
    + intros [H0 Hs] t [<-|Ht]; [exact H0|].
      specialize (Hs (JsSet.ofArray (activeEmails t))
                     (in_map (fun t => JsSet.ofArray (activeEmails t)) _ _ Ht)).
      apply has_true_iff in Hs.
      rewrite ofArray_firstSeen, firstSeen_In in Hs; exact Hs.
    + intros H; split; [apply H; left; reflexivity|].
      intros set Hset; apply in_map_iff in Hset.
      destruct Hset as (t & <- & Ht).
      apply has_true_iff; rewrite ofArray_firstSeen, firstSeen_In.
      apply H; right; exact Ht.
Qed.

Lemma findByEmailIn_rows l st t :
  In t (TeacherRepository.findByEmailIn (canonical l) st)
  <-> exists row, In row (teacherTable st)
                  /\ requestedKey l (Teacher.rowEmail row)
                  /\ t = TeacherRepository.load st row.
Proof.
  unfold TeacherRepository.findByEmailIn; rewrite in_map_iff; split.
  - intros (row & <- & Hr); apply filter_In in Hr; destruct Hr as [Hr Hk].
    apply has_true_iff, requestedKey_canonical in Hk; exists row; auto.
  - intros (row & Hr & Hk & ->); exists row; split; [reflexivity|].
    apply filter_In; split; [exact Hr|].
    apply has_true_iff, requestedKey_canonical, Hk.
Qed.

(** X14: the outcome of [getCommonStudents].  An empty request is
    rejected, and so is a request without a valid entry; every other
    request is answered with a list in ascending order (no look-up result
    makes the call fail), and each e-mail in it belongs to an active
    student of every stored teacher the request names. *)
Theorem getCommonStudents_outcome (l : list string) (st : Store) :
  (l = [] ->
   getCommonStudents l st
   = Err (BadRequestException ERROR_MESSAGES.EMPTY_TEACHER_LIST))
  /\ (l <> [] -> filterValidEmails l = [] ->
      getCommonStudents l st
      = Err (BadRequestException ERROR_MESSAGES.INVALID_EMAIL_FORMAT))
  /\ (filterValidEmails l <> [] ->
      exists out,
        getCommonStudents l st = Ok out
        /\ Sorted (ascending (fun e => e)) out
        /\ forall e row,
             In e out -> In row (teacherTable st) ->
             requestedKey l (Teacher.rowEmail row) ->
             registeredActive st (Teacher.rowId row) e).
Proof.
  split; [intros ->; reflexivity|]; split.
  - intros Hl Hv; unfold getCommonStudents.
    destruct (Nat.eqb (List.length l) 0) eqn:E0;
      [apply length_zero_eqb in E0; contradiction|].
    rewrite Hv; reflexivity.
  - intros Hv; destruct (getCommonStudents_valid l st Hv)
      as (out & Hout & Hsorted & Hcase).
    exists out; split; [exact Hout|]; split; [exact Hsorted|].
    intros e row He Hrow Hk.
    destruct Hcase as [[_ ->]|[_ Hiff]]; [destruct He|].
    apply activeEmails_registeredActive; apply (proj1 (Hiff e) He).
    apply findByEmailIn_rows; exists row; auto.
Qed.

(** X15: when teacher e-mails are unique and every valid entry of the
    request names a stored teacher, [getCommonStudents] returns exactly
    the e-mails that belong to an active student of each of these
    teachers. *)
Theorem getCommonStudents_intersection (l : list string) (st : Store) :
  uniqueTeacherEmails st ->
  filterValidEmails l <> [] ->
  (forall k, requestedKey l k -> hasTeacher st k) ->
  exists out,
    getCommonStudents l st = Ok out
    /\ forall e,
         In e out
         <-> forall row, In row (teacherTable st) ->
                         requestedKey l (Teacher.rowEmail row) ->
                         registeredActive st (Teacher.rowId row) e.
Proof.
  intros Hu Hv Hall.
  destruct (getCommonStudents_valid l st Hv) as (out & Hout & _ & Hcase).
  exists out; split; [exact Hout|].
  assert (Hlen : List.length (TeacherRepository.findByEmailIn (canonical l) st)
                 = List.length (canonical l)).
  { apply findByEmailIn_length_all; [apply normalizeEmails_NoDup | exact Hu |].
    intros k Hk; apply Hall, requestedKey_canonical, Hk. }
  destruct Hcase as [[Hne _]|[_ Hiff]]; [contradiction|].
  intros e; rewrite Hiff; split.
  - intros H row Hrow Hk; apply activeEmails_registeredActive, H.
    apply findByEmailIn_rows; exists row; auto.
  - intros H t Ht; apply findByEmailIn_rows in Ht.
    destruct Ht as (row & Hrow & Hk & ->).
    apply activeEmails_registeredActive, H; assumption.
Qed.

Lemma getCommonStudents_intersection_witness :
  uniqueTeacherEmails Scenario.school
  /\ filterValidEmails ["TeacherKen@gmail.com"; "teacherjoe@gmail.com"] <> []
  /\ exists out,
       getCommonStudents ["TeacherKen@gmail.com"; "teacherjoe@gmail.com"]
                         Scenario.school = Ok out
       /\ forall e,
            In e out
            <-> forall row, In row (teacherTable Scenario.school) ->
                  requestedKey ["TeacherKen@gmail.com"; "teacherjoe@gmail.com"]
                               (Teacher.rowEmail row) ->
                  registeredActive Scenario.school (Teacher.rowId row) e.
Proof.
  assert (Hu : uniqueTeacherEmails Scenario.school)
    by (unfold uniqueTeacherEmails; simpl; concrete_NoDup).
  assert (Hv : filterValidEmails ["TeacherKen@gmail.com"; "teacherjoe@gmail.com"]
               <> []) by (vm_compute; discriminate).
  split; [exact Hu|]; split; [exact Hv|].
  apply (getCommonStudents_intersection
           ["TeacherKen@gmail.com"; "teacherjoe@gmail.com"] Scenario.school
           Hu Hv).
  intros k (y & Hy & _ & <-); simpl in Hy.
  destruct Hy as [<-|[<-|[]]].
  - exists (Teacher.mkRow 1 "teacherken@gmail.com"); simpl; auto.
  - exists (Teacher.mkRow 2 "teacherjoe@gmail.com"); simpl; auto.
Defined.

Lemma filter_unique_key (k : string) (rows : list Teacher.row) (r : Teacher.row) :
  NoDup (map Teacher.rowEmail rows) ->
  find (fun x => String.eqb (Teacher.rowEmail x) k) rows = Some r ->
  filter (fun x => JsSet.has (Teacher.rowEmail x) [k]) rows = [r].
Proof.
  assert (Hhas : forall x, JsSet.has (Teacher.rowEmail x) [k]
                           = String.eqb (Teacher.rowEmail x) k).
  { intros x; unfold JsSet.has; cbn [existsb]; apply orb_false_r. }
  induction rows as [|x rows IH]; [discriminate|].
  cbn [map find filter]; intros Hnd Hf.
  inversion Hnd as [|? ? Hx Hnd']; subst.
  rewrite Hhas.
  destruct (String.eqb (Teacher.rowEmail x) k) eqn:E.
  - injection Hf as <-; f_equal.
    apply String.eqb_eq in E.
    apply filter_false; intros y Hy; rewrite Hhas.
    apply String.eqb_neq; intros Ey; apply Hx.
    rewrite E, <- Ey; apply in_map, Hy.
  - apply IH; assumption.
Qed.

(** X16: for one valid address of a stored teacher (teacher e-mails
    being unique), [getCommonStudents] on the one-entry list agrees with
    [getTeacherStudents]. *)
Theorem getCommonStudents_single_teacher (teacherEmail : string) (st : Store) :
  uniqueTeacherEmails st ->
  isValidEmail teacherEmail = true ->
  hasTeacher st (normalizeEmail teacherEmail) ->
  getCommonStudents [teacherEmail] st = getTeacherStudents teacherEmail st.
Proof.
  intros Hu Hv Hex.
  destruct (find_hasTeacher _ _ Hex) as (row & Hfind).
  unfold getTeacherStudents, findTeacherByEmail,
    TeacherRepository.findOneByEmail.
  rewrite (isValidEmail_normalizeEmail _ Hv), Hfind.
  cbn [negb bind option_map].
  unfold getCommonStudents, filterValidEmails, removeDuplicateEmails,
    normalizeEmails, removeDuplicateEmails.
  cbn [List.length Nat.eqb JsSet.ofArray fold_left JsSet.add JsSet.has
       existsb app filter].
  rewrite Hv.
  cbn [List.length Nat.eqb map JsSet.ofArray fold_left JsSet.add JsSet.has
       existsb app].
  unfold TeacherRepository.findByEmailIn.
  rewrite (filter_unique_key _ _ _ Hu Hfind); reflexivity.
Qed.

Lemma getCommonStudents_single_teacher_witness :
  uniqueTeacherEmails Scenario.school
  /\ isValidEmail "TeacherKen@Gmail.com" = true
  /\ hasTeacher Scenario.school (normalizeEmail "TeacherKen@Gmail.com")
  /\ getCommonStudents ["TeacherKen@Gmail.com"] Scenario.school
     = getTeacherStudents "TeacherKen@Gmail.com" Scenario.school.
Proof.
  assert (Hu : uniqueTeacherEmails Scenario.school)
    by (unfold uniqueTeacherEmails; simpl; concrete_NoDup).
  assert (Hv : isValidEmail "TeacherKen@Gmail.com" = true) by reflexivity.
  assert (Hex : hasTeacher Scenario.school
                           (normalizeEmail "TeacherKen@Gmail.com")).
  { exists (Teacher.mkRow 1 "teacherken@gmail.com"); simpl; auto. }
  split; [exact Hu|]; split; [exact Hv|]; split; [exact Hex|].
  exact (getCommonStudents_single_teacher "TeacherKen@Gmail.com"
           Scenario.school Hu Hv Hex).
Defined.

End TeacherListings.

Section Notifications.
Import EmailUtils StudentService TeacherService.

Lemma mentionedActive_In notification st e :
  In e (mentionedActive notification st)
  <-> activeEmail st e
      /\ exists m, In m (extractMentionedEmails notification)
                   /\ normalizeEmail m = e.
Proof.
  unfold mentionedActive, getStudentsByEmails, activeEmail.
  pose proof (proj2 (extractMentionedEmails_valid_NoDup notification)) as Hvalid.
  set (ms := extractMentionedEmails notification) in *.
  destruct (Nat.eqb (List.length ms) 0) eqn:E0.
  { apply length_zero_eqb in E0; rewrite E0.
    split; [intros [] | intros (_ & m & [] & _)]. }
  destruct (Nat.eqb (List.length (filterValidEmails ms)) 0) eqn:E1.
  { apply length_zero_eqb in E1; split; [intros []|].
    intros (_ & m & Hm & _).
    assert (H : In m (filterValidEmails ms))
      by (apply filterValidEmails_In; auto).
    rewrite E1 in H; destruct H. }
  unfold StudentRepository.queryByEmails; rewrite in_map_iff; split.
  - intros (s & E & Hs).
    apply (proj1 (sortBy_In Student.email s _)) in Hs.
    apply filter_In in Hs; destruct Hs as [Hs Hc].
    apply andb_true_iff in Hc; destruct Hc as [Hk Ha].
    cbn [orb] in Ha; apply negb_true_iff in Ha.
    apply has_true_iff, normalizeEmails_In in Hk.
    destruct Hk as (m & Hm & Em); apply filterValidEmails_In in Hm.
    split; [exists s; tauto|].
    exists m; split; [tauto | congruence].
  - intros ((s & Hs & Ha & E) & m & Hm & Em).
    exists s; split; [exact E|].
    apply (proj2 (sortBy_In Student.email s _)).
    apply filter_In; split; [exact Hs|].
    apply andb_true_iff; split; [|rewrite Ha; reflexivity].
    apply has_true_iff, normalizeEmails_In.
    exists m; split; [apply filterValidEmails_In; auto | congruence].
Qed.

(** X17: the recipients of a notification.  [getNotificationRecipients]
    returns a list in ascending order without repetition that holds
    exactly: the e-mails of the active students of the teacher, when the
    teacher address is well formed and a teacher is stored under it; and
    the normalized mentioned addresses that belong to a stored student
    who is not suspended. *)
Theorem getNotificationRecipients_exact
        (teacherEmail notification : string) (st : Store) :
  exists out,
    getNotificationRecipients teacherEmail notification st = Ok out
    /\ Sorted (ascending (fun e => e)) out
    /\ NoDup out
    /\ forall e,
         In e out
         <-> (isValidEmail (normalizeEmail teacherEmail) = true
              /\ exists row,
                   find (fun r => String.eqb (Teacher.rowEmail r)
                                             (normalizeEmail teacherEmail))
                        (teacherTable st) = Some row
                   /\ registeredActive st (Teacher.rowId row) e)
             \/ (activeEmail st e
                 /\ exists m, In m (extractMentionedEmails notification)
                              /\ normalizeEmail m = e).
Proof.
  rewrite getNotificationRecipients_unfold.
  eexists; split; [reflexivity|]; split; [apply sort_Sorted|]; split.
  - apply (Permutation_NoDup
             (Permutation_sym (sortBy_Permutation (fun e : string => e) _))).
    rewrite ofArray_firstSeen; apply firstSeen_NoDup.
  - intros e; rewrite sort_In, ofArray_firstSeen, firstSeen_In, in_app_iff.
    rewrite mentionedActive_In.
    apply or_iff_compat_r.
    unfold getTeacherStudents, findTeacherByEmail,
      TeacherRepository.findOneByEmail.
    rewrite normalizeEmail_idem.
    destruct (isValidEmail (normalizeEmail teacherEmail));
      cbn [negb bind];
      [|split; [intros [] | intros [H _]; discriminate H]].
    destruct (find _ (teacherTable st)) as [row|]; cbn [option_map].
    + rewrite sort_In, activeEmails_registeredActive; split.
      * intros H; split; [reflexivity|]; exists row; auto.
      * intros (_ & row' & [= <-] & H); exact H.
    + split; [intros [] | intros (_ & row & H & _); discriminate H].
Qed.

End Notifications.

Section SuspensionAndListings.
Import EmailUtils TeacherService.

Lemma registeredActive_suspendByEmail k st tid x :
  registeredActive (snd (StudentRepository.suspendByEmail k st)) tid x
  <-> registeredActive st tid x /\ x <> k.
Proof.
  unfold registeredActive, StudentRepository.suspendByEmail.
  cbn [snd studentTable teacherStudents]; split.
  - intros (s' & Hs' & He & Ha & E); apply in_map_iff in Hs'.
    destruct Hs' as (s & <- & Hs).
    destruct (String.eqb (Student.email s) k) eqn:Ek; [discriminate Ha|].
    apply String.eqb_neq in Ek.
    split; [exists s; tauto | congruence].
  - intros ((s & Hs & He & Ha & E) & Hne); exists s.
    split; [|tauto].
    apply in_map_iff; exists s; split; [|exact Hs].
    destruct (String.eqb (Student.email s) k) eqn:Ek; [|reflexivity].
    apply String.eqb_eq in Ek; congruence.
Qed.

(** X18: suspension and the listing of a teacher.  After a suspension
    that succeeds, [getTeacherStudents] fails for a teacher as it did
    before, and where it answered before it answers again: with the
    same e-mails except the suspended student's normalized address. *)
Theorem suspendStudent_then_getTeacherStudents
        (studentEmail teacherEmail : string) (st st' : Store) :
  TeacherService.suspendStudent studentEmail st = (Ok tt, st') ->
  match getTeacherStudents teacherEmail st with
  | Ok out =>
      exists out',
        getTeacherStudents teacherEmail st' = Ok out'
        /\ forall x, In x out' <-> In x out /\ x <> normalizeEmail studentEmail
  | Err e => getTeacherStudents teacherEmail st' = Err e
  end.
Proof.
  unfold TeacherService.suspendStudent, StudentService.suspendStudent.
  destruct (negb (isValidEmail (normalizeEmail studentEmail)));
    [discriminate|].
  pose proof (registeredActive_suspendByEmail
                (normalizeEmail studentEmail) st) as Hreg.
  assert (Htt : teacherTable
                  (snd (StudentRepository.suspendByEmail
                          (normalizeEmail studentEmail) st))
                = teacherTable st) by reflexivity.
  destruct (StudentRepository.suspendByEmail (normalizeEmail studentEmail) st)
    as [affected st1].
  cbn [snd] in *.
  destruct (Nat.eqb affected 0); intros [= <-].
  unfold getTeacherStudents, findTeacherByEmail,
    TeacherRepository.findOneByEmail.
  destruct (negb (isValidEmail (normalizeEmail teacherEmail)));
    cbn [bind]; [reflexivity|].
  rewrite Htt.
  destruct (find _ (teacherTable st)) as [row|]; cbn [option_map];
    [|reflexivity].
  eexists; split; [reflexivity|].
  intros x; rewrite !sort_In, !activeEmails_registeredActive; apply Hreg.
Qed.

Lemma suspendStudent_then_getTeacherStudents_witness :
  TeacherService.suspendStudent " StudentJon@gmail.com" Scenario.school
  = (Ok tt,
     snd (TeacherService.suspendStudent " StudentJon@gmail.com" Scenario.school))
  /\ match getTeacherStudents "teacherken@gmail.com" Scenario.school with
     | Ok out =>
         exists out',
           getTeacherStudents "teacherken@gmail.com"
             (snd (TeacherService.suspendStudent " StudentJon@gmail.com"
                     Scenario.school))
           = Ok out'
           /\ forall x,
                In x out'
                <-> In x out /\ x <> normalizeEmail " StudentJon@gmail.com"
     | Err e =>
         getTeacherStudents "teacherken@gmail.com"
           (snd (TeacherService.suspendStudent " StudentJon@gmail.com"
                   Scenario.school))
         = Err e
     end.
Proof.
  assert (H : TeacherService.suspendStudent " StudentJon@gmail.com"
                Scenario.school
              = (Ok tt,
                 snd (TeacherService.suspendStudent " StudentJon@gmail.com"
                        Scenario.school))) by reflexivity.
  split; [exact H|].
  exact (suspendStudent_then_getTeacherStudents
           " StudentJon@gmail.com" "teacherken@gmail.com" Scenario.school _ H).
Defined.

End SuspensionAndListings.

Section TeacherCreation.
Import EmailUtils TeacherService.

Lemma no_teacher_existsb e st :
  ~ hasTeacher st e ->
  existsb (fun r => String.eqb (Teacher.rowEmail r) e) (teacherTable st) = false.
Proof.
  intros Hno.
  destruct (existsb _ (teacherTable st)) eqn:E; [|reflexivity].
  apply existsb_exists in E; destruct E as (r & Hr & E).
  exfalso; apply Hno; exists r; split; [exact Hr | apply String.eqb_eq, E].
Qed.

Lemma find_appended {Row : Type} (hit : Row -> bool) (rows : list Row) (x : Row) :
  find hit rows = None -> hit x = true -> find hit (rows ++ [x]) = Some x.
Proof.
  intros Hnone Hx; induction rows as [|r rows IH]; cbn [app find] in *.
  - rewrite Hx; reflexivity.
  - destruct (hit r); [discriminate Hnone | apply IH, Hnone].
Qed.

(** X19: [createTeacher] rejects an address that is malformed after
    normalization and stores nothing.  For a well-formed address under
    which no teacher is stored, it stores one teacher under the
    normalized address and returns it with no students; students and
    memberships are not touched, the teachers stored before are still
    there, unique teacher e-mails stay unique, [findTeacherByEmail] then
    finds the teacher, and a registration to that address no longer fails
    with [NotFoundException]. *)
Theorem createTeacher_outcome (email : string) (st : Store) :
  (isValidEmail (normalizeEmail email) = false ->
   createTeacher email st
   = (Err (BadRequestException ERROR_MESSAGES.INVALID_EMAIL_FORMAT), st))
  /\ (isValidEmail (normalizeEmail email) = true ->
      ~ hasTeacher st (normalizeEmail email) ->
      exists t st',
        createTeacher email st = (Ok t, st')
        /\ Teacher.email t = normalizeEmail email
        /\ Teacher.students t = []
        /\ studentTable st' = studentTable st
        /\ teacherStudents st' = teacherStudents st
        /\ (forall k, hasTeacher st' k
                      <-> hasTeacher st k \/ k = normalizeEmail email)
        /\ (uniqueTeacherEmails st -> uniqueTeacherEmails st')
        /\ (exists found,
               findTeacherByEmail email st' = Ok (Some found)
               /\ Teacher.id found = Teacher.id t
               /\ Teacher.email found = normalizeEmail email)
        /\ (forall insertFails l,
               fst (registerStudentsToTeacher insertFails email l st')
               <> Err (NotFoundException ERROR_MESSAGES.TEACHER_NOT_FOUND))).
Proof.
  unfold createTeacher, TeacherRepository.insert; split; [intros ->; reflexivity|].
  intros Hv Hno; rewrite Hv, (no_teacher_existsb _ _ Hno); cbn [negb].
  set (row := Teacher.mkRow (TeacherRepository.nextId st) (normalizeEmail email)).
  set (st' := mkStore (studentTable st) (teacherTable st ++ [row])
                      (teacherStudents st)).
  assert (Hhas : forall k, hasTeacher st' k
                           <-> hasTeacher st k \/ k = normalizeEmail email).
  { intros k; unfold hasTeacher; cbn [st' teacherTable]; split.
    - intros (r & Hr & E); apply in_app_or in Hr; destruct Hr as [Hr|[<-|[]]].
      + left; exists r; auto.
      + right; symmetry; exact E.
    - intros [(r & Hr & E)| ->].
      + exists r; split; [apply in_or_app; left; exact Hr | exact E].
      + exists row; split; [apply in_or_app; right; left|]; reflexivity. }
  assert (Hfind : find (fun r => String.eqb (Teacher.rowEmail r)
                                            (normalizeEmail email))
                       (teacherTable st') = Some row).
  { cbn [st' teacherTable].
    apply find_appended; [exact (find_no_teacher _ _ Hno)|].
    cbn [row Teacher.rowEmail]; apply String.eqb_refl. }
  exists (Teacher.mk (Teacher.rowId row) (Teacher.rowEmail row) []), st'.
  split; [reflexivity|]; split; [reflexivity|]; split; [reflexivity|].
  split; [reflexivity|]; split; [reflexivity|]; split; [exact Hhas|].
  split; [|split].
  - unfold uniqueTeacherEmails; cbn [st' teacherTable]; intros Hu.
    rewrite map_app; apply NoDup_app; [exact Hu | repeat constructor; intros [] |].
    intros k Hk [<-|[]]; apply Hno.
    apply in_map_iff in Hk; destruct Hk as (r & E & Hr); exists r; auto.
  - exists (TeacherRepository.load st' row).
    unfold findTeacherByEmail, TeacherRepository.findOneByEmail.
    rewrite Hv, Hfind; cbn [negb option_map]; auto.
  - intros insertFails l; rewrite registerStudentsToTeacher_found.
    rewrite normalizeEmail_idem, Hv, Hfind; cbn [negb].
    destruct (Nat.eqb (List.length l) 0); [cbn [fst]; discriminate|].
    unfold registerFound.
    destruct (Nat.eqb (List.length (filterValidEmails l)) 0);
      [cbn [fst]; discriminate|].
    destruct (StudentService.bulkCreateStudents insertFails
                (filterValidEmails l) st') as [r st1].
    destruct (Nat.eqb (List.length (successful r)) 0);
      [cbn [fst]; discriminate|].
    destruct (Nat.eqb (List.length (filter _ (successful r))) 0);
      cbn [fst]; discriminate.
Qed.

End TeacherCreation.

(* ================================================================== *)
(** * Further properties of the e-mail utilities *)

Section AddressShape.
Import JsString RegExp VALIDATION_RULES EmailUtils.

Lemma giveBack_complete {R : Type} (k : nat -> option R) n m :
  1 <= m <= n -> k m <> None -> giveBack k n <> None.
Proof.
  induction n as [|n IH]; intros Hm Hk; [lia|].
  cbn [giveBack]; destruct (k (S n)) eqn:E; [discriminate|].
  apply IH; [|exact Hk].
  destruct (Nat.eq_dec m (S n)) as [->|]; [congruence | lia].
Qed.

Lemma run_app cls l rest :
  Forall (fun c => cls c = true) l ->
  run cls (l ++ rest) = List.length l + run cls rest.
Proof.
  induction 1 as [|c l Hc _ IH]; cbn [app run List.length]; [reflexivity|].
  rewrite Hc, IH; reflexivity.
Qed.

Lemma firstn_run_nonempty cls l m : 1 <= m <= run cls l -> firstn m l <> [].
Proof.
  destruct l as [|c l]; cbn [run]; [lia|].
  destruct m; [lia | discriminate].
Qed.

Lemma skipn_length_app {A : Type} (l rest : list A) :
  skipn (List.length l) (l ++ rest) = rest.
Proof. induction l as [|x l IH]; [reflexivity | exact IH]. Qed.

Lemma nonempty_length {A : Type} (l : list A) : l <> [] -> 1 <= List.length l.
Proof. destruct l; [congruence | cbn [List.length]; lia]. Qed.

Lemma isValidEmail_exec s :
  isValidEmail s = true
  <-> exec EMAIL_REGEX 0 (list_ascii_of_string s) [] <> None.
Proof.
  unfold isValidEmail, test.
  destruct (list_ascii_of_string s) as [|x l]; cbn [search].
  - destruct (exec EMAIL_REGEX 0 [] []) as [[e ms]|];
      split; congruence.
  - destruct (exec EMAIL_REGEX 0 (x :: l) []) as [[e ms]|];
      [split; congruence|].
    unfold EMAIL_REGEX; rewrite search_anchored; split; congruence.
Qed.

(** X20: what the validator accepts.  [isValidEmail] holds exactly for
    the strings made of a non-empty local part, [@], a non-empty domain,
    a dot and a non-empty last label, none of the three parts holding
    white space or [@]. *)
Theorem isValidEmail_addressShape (s : string) :
  isValidEmail s = true <-> addressShape s.
Proof.
  rewrite isValidEmail_exec; unfold addressShape.
  set (l := list_ascii_of_string s); clearbody l; split.
  - intros H.
    destruct (exec EMAIL_REGEX 0 l []) as [res|] eqn:E; [clear H|congruence].
    cbn [exec EMAIL_REGEX Nat.eqb] in E.
    apply giveBack_Some in E; destruct E as (m1 & Hm1 & E); cbv beta in E.
    destruct (skipn m1 l) as [|x l2] eqn:E1; [discriminate|].
    destruct (Ascii.eqb_spec x "@") as [->|]; [|discriminate].
    apply giveBack_Some in E; destruct E as (m2 & Hm2 & E); cbv beta in E.
    destruct (skipn m2 l2) as [|y l3] eqn:E2; [discriminate|].
    destruct (Ascii.eqb_spec y ".") as [->|]; [|discriminate].
    apply giveBack_Some in E; destruct E as (m3 & Hm3 & E); cbv beta in E.
    destruct (skipn m3 l3) as [|z l4] eqn:E3; [|discriminate].
    exists (firstn m1 l), (firstn m2 l2), (firstn m3 l3).
    split; [|split; [|split; [|split]]].
    + rewrite <- (firstn_skipn m1 l) at 1; rewrite E1; f_equal; f_equal.
      rewrite <- (firstn_skipn m2 l2) at 1; rewrite E2; f_equal; f_equal.
      rewrite <- (firstn_skipn m3 l3) at 1; rewrite E3; apply app_nil_r.
    + apply (firstn_run_nonempty notSpaceNorAt), Hm1.
    + apply (firstn_run_nonempty notSpaceNorAt), Hm2.
    + apply (firstn_run_nonempty notSpaceNorAt), Hm3.
    + repeat (apply Forall_app; split); apply run_firstn; lia.
  - intros (a & b & c & -> & Ha & Hb & Hc & Hall).
    apply Forall_app in Hall; destruct Hall as [Fa Hall].
    apply Forall_app in Hall; destruct Hall as [Fb Fc].
    apply nonempty_length in Ha, Hb, Hc.
    cbn [exec EMAIL_REGEX Nat.eqb].
    apply (giveBack_complete _ _ (List.length a)).
    { rewrite (run_app _ _ _ Fa); cbn [run]; lia. }
    cbv beta; rewrite skipn_length_app, Ascii.eqb_refl.
    apply (giveBack_complete _ _ (List.length b)).
    { rewrite (run_app _ _ _ Fb); lia. }
    cbv beta; rewrite skipn_length_app, Ascii.eqb_refl.
    apply (giveBack_complete _ _ (List.length c)).
    { pose proof (run_app notSpaceNorAt c [] Fc) as Hr.
      rewrite app_nil_r in Hr; cbn [run] in Hr; lia. }
    cbv beta; rewrite skipn_all; discriminate.
Qed.

End AddressShape.

Section NormalForm.
Import JsString EmailUtils.

(** X21: [normalizeEmail] computes a normal form.  Normalizing twice is
    normalizing once; the result is stable under [trim] and under
    [toLowerCase]; trimming or lower-casing the input beforehand changes
    nothing; and on an address the validator accepts, normalization
    only lowers the case and keeps the address valid. *)
Theorem normalizeEmail_normal_form (s : string) :
  normalizeEmail (normalizeEmail s) = normalizeEmail s
  /\ trim (normalizeEmail s) = normalizeEmail s
  /\ toLowerCase (normalizeEmail s) = normalizeEmail s
  /\ normalizeEmail (trim s) = normalizeEmail s
  /\ normalizeEmail (toLowerCase s) = normalizeEmail s
  /\ (isValidEmail s = true ->
      normalizeEmail s = toLowerCase s
      /\ isValidEmail (normalizeEmail s) = true).
Proof.
  unfold normalizeEmail.
  split; [rewrite trim_toLowerCase, trim_idem; apply toLowerCase_idem|].
  split; [rewrite trim_toLowerCase, trim_idem; reflexivity|].
  split; [apply toLowerCase_idem|].
  split; [rewrite trim_idem; reflexivity|].
  split; [rewrite trim_toLowerCase; apply toLowerCase_idem|].
  intros Hv; rewrite (isValidEmail_trim _ Hv); split; [reflexivity|].
  rewrite isValidEmail_toLowerCase; exact Hv.
Qed.

End NormalForm.

Section Mentions.
Import JsString RegExp VALIDATION_RULES EmailUtils.

(** Every hit of a scan is a match of the regular expression at the
    hit's index. *)
Lemma scan_hits r : forall rest pos skip h,
  In h (scan r pos rest skip) ->
  exists k, index h = pos + k
            /\ exec r (pos + k) (skipn k rest) [] = Some (lastIndex h, marks h).
Proof.
  induction rest as [|x rest IH]; intros pos skip h; cbn [scan].
  - destruct skip; [|intros []].
    destruct (exec r pos [] []) as [[e ms]|] eqn:E; [|intros []].
    intros [<-|[]]; exists 0; rewrite Nat.add_0_r; split; [reflexivity|].
    exact E.
  - assert (Hnext : forall skip',
               In h (scan r (S pos) rest skip') ->
               exists k, index h = pos + k
                         /\ exec r (pos + k) (skipn k (x :: rest)) []
                            = Some (lastIndex h, marks h)).
    { intros skip' H; destruct (IH _ _ _ H) as (k & Hi & He).
      exists (S k); rewrite Nat.add_succ_r; split; [exact Hi | exact He]. }
    destruct skip as [|skip']; [|apply Hnext].
    destruct (exec r pos (x :: rest) []) as [[e ms]|] eqn:E; [|apply Hnext].
    intros [<-|H]; [|exact (Hnext _ H)].
    exists 0; rewrite Nat.add_0_r; split; [reflexivity | exact E].
Qed.

Lemma run_stop cls l :
  match skipn (run cls l) l with
  | [] => True
  | c :: _ => cls c = false
  end.
Proof.
  induction l as [|c l IH]; cbn [run]; [exact I|].
  destruct (cls c) eqn:E; [exact IH | exact E].
Qed.

Lemma skipn_next {A : Type} (l : list A) : forall m x l',
  skipn m l = x :: l' -> skipn (S m) l = l'.
Proof.
  induction l as [|y l IH]; intros m x l' H.
  - rewrite skipn_nil in H; discriminate.
  - destruct m as [|m]; [injection H as _ <-; reflexivity|].
    exact (IH m x l' H).
Qed.

(** A match of [MENTION_REGEX] starts at an [@], captures what follows
    it up to the end of the match, and ends where the class [[^\s@]]
    ends. *)
Lemma exec_MENTION_REGEX pos rest e ms :
  exec MENTION_REGEX pos rest [] = Some (e, ms) ->
  exists rest1 n,
    rest = "@"%char :: rest1
    /\ e = S pos + n /\ ms = [S pos + n; S pos]
    /\ match skipn n rest1 with
       | [] => True
       | c :: _ => notSpaceNorAt c = false
       end.
Proof.
  cbn [exec MENTION_REGEX]; intros E.
  destruct rest as [|x rest1]; [discriminate|].
  destruct (Ascii.eqb_spec x "@") as [->|]; [|discriminate].
  apply giveBack_Some in E; destruct E as (m1 & Hm1 & E); cbv beta in E.
  destruct (skipn m1 rest1) as [|y r2] eqn:E1; [discriminate|].
  destruct (Ascii.eqb_spec y "@") as [->|]; [|discriminate].
  apply giveBack_Some in E; destruct E as (m2 & Hm2 & E); cbv beta in E.
  destruct (skipn m2 r2) as [|z r3] eqn:E2; [discriminate|].
  destruct (Ascii.eqb_spec z ".") as [->|]; [|discriminate].
  pose proof (run_stop notSpaceNorAt r3) as Hstop.
  destruct (run notSpaceNorAt r3) as [|m3]; [discriminate|].
  cbn [giveBack] in E; injection E as <- <-.
  apply skipn_next in E1, E2.
  exists rest1, (m1 + S (m2 + S (S m3))).
  split; [reflexivity|].
  split; [lia|]; split; [f_equal; lia|].
  replace (m1 + S (m2 + S (S m3))) with (S m3 + (S m2 + S m1)) by lia.
  rewrite <- !skipn_skipn, E1, E2; exact Hstop.
Qed.

(** X22: what [extractMentionedEmails] returns was mentioned.  Every
    address in the result passes the validator and stands in the
    notification right after an [@]; it runs up to the end of the text
    or to the next white space or [@], whatever other characters
    (punctuation included) come before that. *)
Theorem extractMentionedEmails_sound (notification e : string) :
  In e (extractMentionedEmails notification) ->
  isValidEmail e = true
  /\ exists before after,
       list_ascii_of_string notification
       = before ++ "@"%char :: list_ascii_of_string e ++ after
       /\ match after with
          | [] => True
          | c :: _ => notSpaceNorAt c = false
          end.
Proof.
  intros He; split; [exact (proj2 (extractMentionedEmails_valid_NoDup _) e He)|].
  revert He; unfold extractMentionedEmails, matchAll.
  destruct (String.eqb notification ""); [intros []|].
  set (input := list_ascii_of_string notification).
  intros He; apply removeDuplicateEmails_In, in_flat_map in He.
  destruct He as (m & Hm & He); apply in_map_iff in Hm.
  destruct Hm as (h & <- & Hh); cbn [snd] in He.
  apply scan_hits in Hh; destruct Hh as (k & Hk & Hexec); cbn [Nat.add] in *.
  apply exec_MENTION_REGEX in Hexec.
  destruct Hexec as (rest1 & n & Hrest & Hlast & Hmarks & Hstop).
  unfold group1 in He; rewrite Hmarks in He; cbn [rev app] in He.
  destruct (negb (String.eqb _ "") && isValidEmail _); [|destruct He].
  destruct He as [<-|[]].
  exists (firstn k input), (skipn n rest1); split; [|exact Hstop].
  rewrite list_ascii_of_string_of_list_ascii; unfold slice.
  rewrite (skipn_next _ _ _ _ Hrest).
  replace (S k + n - S k) with n by lia.
  rewrite firstn_skipn, <- Hrest; symmetry; apply firstn_skipn.
Qed.

Lemma extractMentionedEmails_sound_witness :
  In "student2@test.com!"
     (extractMentionedEmails "Hi @student1@test.com, @student2@test.com! bye")
  /\ exists before after,
       list_ascii_of_string "Hi @student1@test.com, @student2@test.com! bye"
       = before ++ "@"%char :: list_ascii_of_string "student2@test.com!" ++ after
       /\ match after with
          | [] => True
          | c :: _ => notSpaceNorAt c = false
          end.
Proof.
  assert (H : In "student2@test.com!"
                 (extractMentionedEmails
                    "Hi @student1@test.com, @student2@test.com! bye"))
    by (vm_compute; tauto).
  split; [exact H|].
  exact (proj2 (extractMentionedEmails_sound _ _ H)).
Defined.

End Mentions.

(* ================================================================== *)
(** * Registration when the insert is rejected *)

Section RegistrationMembers.
Import EmailUtils StudentService TeacherService.

(** The members of the teacher once the registration has run past the
    validation of the list: the members it had and the students the
    batch reports as successful. *)
Lemma registerFound_members insertFails l st row :
  uniqueStudentIds st ->
  filterValidEmails l <> [] ->
  forall s,
    In s (Teacher.students
            (TeacherRepository.load
               (snd (registerFound insertFails (TeacherRepository.load st row)
                                   l st)) row))
    <-> In s (Teacher.students (TeacherRepository.load st row))
        \/ In s (successful
                   (fst (bulkCreateStudents insertFails
                           (filterValidEmails l) st))).
Proof.
  intros Hui Hv; unfold registerFound.
  destruct (Nat.eqb (List.length (filterValidEmails l)) 0) eqn:E0;
    [apply length_zero_eqb in E0; contradiction|].
  pose proof (bulkCreateStudents_successful_stored insertFails
                (filterValidEmails l) st) as Hstored.
  pose proof (bulkCreateStudents_added_successful insertFails
                (filterValidEmails l) st) as Hadded.
  pose proof (bulkCreateStudents_ids insertFails (filterValidEmails l) st Hui)
    as Hui1.
  destruct (bulkCreateStudents_table_grows insertFails (filterValidEmails l) st)
    as (rows & Htab & _ & Hjoin).
  destruct (bulkCreateStudents insertFails (filterValidEmails l) st)
    as [r st1].
  cbn [fst snd] in *.
  set (old := Teacher.students (TeacherRepository.load st row)) in *.
  assert (Hold : forall s, In s old ->
                           In s (studentTable st1)
                           /\ In (Teacher.rowId row, Student.id s)
                                 (teacherStudents st1)).
  { intros s Hs; apply load_students_In in Hs; rewrite Htab, Hjoin.
    split; [apply in_or_app; left|]; tauto. }
  assert (Hfresh : forall s, In s (studentTable st1) ->
                             In (Student.id s) (map Student.id old) ->
                             In s old).
  { intros s Hs Hid; apply in_map_iff in Hid; destruct Hid as (s' & E & Hs').
    assert (s' = s); [|subst; exact Hs'].
    apply (NoDup_map_injective Student.id (studentTable st1)); auto.
    apply (Hold s' Hs'). }
  assert (Hsame :
            (forall s, In s (successful r) -> In s old) ->
            forall s,
              In s (Teacher.students (TeacherRepository.load st1 row))
              <-> In s old \/ In s (successful r)).
  { intros Hin s; rewrite load_students_In; split.
    - intros [Hs He]; rewrite Hjoin in He.
      destruct (Hadded s Hs) as [H|H]; [|right; exact H].
      left; apply load_students_In; tauto.
    - intros [H|H]; [apply Hold, H | apply Hold, Hin, H]. }
  destruct (Nat.eqb (List.length (successful r)) 0) eqn:E1.
  { apply length_zero_eqb in E1; cbn [snd]; apply Hsame.
    intros s Hs; rewrite E1 in Hs; destruct Hs. }
  set (new := filter (fun student =>
                        negb (JsArray.hasNumber (Student.id student)
                                                (map Student.id old)))
                     (successful r)).
  destruct (Nat.eqb (List.length new) 0) eqn:E2.
  { apply length_zero_eqb in E2; cbn [snd]; apply Hsame.
    intros s Hs; apply Hfresh; [apply Hstored, Hs|].
    apply hasNumber_true_iff.
    destruct (JsArray.hasNumber (Student.id s) (map Student.id old)) eqn:Eh;
      [reflexivity|].
    assert (Hin : In s new) by (apply filter_In; rewrite Eh; auto).
    rewrite E2 in Hin; destruct Hin. }
  cbn [snd]; intros s.
  assert (Hnew : forall x, In x new -> In x (successful r))
    by (intros x Hx; apply filter_In in Hx; tauto).
  rewrite load_students_In, save_edges.
  cbn [Teacher.id Teacher.students TeacherRepository.load
       TeacherRepository.save studentTable].
  split.
  - intros [Hs Hid].
    assert (Hid' : In (Student.id s) (map Student.id (old ++ new)))
      by (destruct Hid as [[_ [H|H]]|[_ H]]; [congruence | exact H | exact H]).
    apply in_map_iff in Hid'; destruct Hid' as (s' & E & Hs').
    assert (Hs1 : In s' (studentTable st1)).
    { apply in_app_or in Hs'; destruct Hs' as [H|H];
        [apply Hold, H | apply Hstored, Hnew, H]. }
    assert (s' = s)
      by (apply (NoDup_map_injective Student.id (studentTable st1)); auto).
    subst s'; apply in_app_or in Hs'; destruct Hs' as [H|H]; auto.
  - intros H.
    assert (Hs : In s (studentTable st1))
      by (destruct H as [H|H]; [apply Hold, H | apply Hstored, H]).
    split; [exact Hs|]; right; split; [reflexivity|].
    rewrite map_app, in_app_iff.
    destruct (JsArray.hasNumber (Student.id s) (map Student.id old)) eqn:Eh;
      [left; apply hasNumber_true_iff, Eh|].
    destruct H as [H|H]; [left; apply in_map, H|].
    right; apply in_map, filter_In; rewrite Eh; auto.
Qed.

Lemma bulkCreateStudents_rejected l st :
  filterValidEmails l <> [] ->
  bulkCreateStudents true l st
  = (mkBatch (StudentRepository.findByEmailIn (canonical l) st)
             (failed (fst (bulkCreateStudents true l st)))
             (List.length l),
     st).
Proof.
  intros Hv; rewrite bulkCreateStudents_cases by exact Hv; cbv zeta.
  destruct (missingEmails (canonical l) st); reflexivity.
Qed.

(** X23: registration when the database rejects the insert of the new
    students.  For a stored teacher and a list with a valid entry,
    [registerStudentsToTeacher] still succeeds: no student is created,
    and the teacher's members become the members it had together with
    the students already stored under a requested e-mail. *)
Theorem registerStudentsToTeacher_insert_rejected
        (teacherEmail : string) (l : list string) (st : Store)
        (row : Teacher.row) :
  uniqueStudentIds st ->
  isValidEmail (normalizeEmail teacherEmail) = true ->
  find (fun r => String.eqb (Teacher.rowEmail r) (normalizeEmail teacherEmail))
       (teacherTable st) = Some row ->
  filterValidEmails l <> [] ->
  let after := registerStudentsToTeacher true teacherEmail l st in
  fst after = Ok tt
  /\ studentTable (snd after) = studentTable st
  /\ forall s,
       In s (Teacher.students (TeacherRepository.load (snd after) row))
       <-> In s (Teacher.students (TeacherRepository.load st row))
           \/ (In s (studentTable st) /\ requestedKey l (Student.email s)).
Proof.
  intros Hui Hv Hfind Hvalid; cbv zeta.
  assert (Hl : Nat.eqb (List.length l) 0 = false).
  { destruct (Nat.eqb (List.length l) 0) eqn:E; [|reflexivity].
    apply length_zero_eqb in E; subst l; exfalso; apply Hvalid; reflexivity. }
  rewrite registerStudentsToTeacher_found, Hl, normalizeEmail_idem, Hv, Hfind.
  cbn [negb]; clear Hl.
  assert (Hvv : filterValidEmails (filterValidEmails l) <> []).
  { intros E; apply Hvalid.
    destruct (filterValidEmails l) as [|x xs] eqn:El; [reflexivity|].
    assert (Hx : In x (filterValidEmails (x :: xs))).
    { apply filterValidEmails_In; split; [left; reflexivity|].
      assert (Hin : In x (filterValidEmails l)) by (rewrite El; left; reflexivity).
      apply filterValidEmails_In in Hin; tauto. }
    rewrite E in Hx; destruct Hx. }
  split; [apply registerFound_Ok, Hvalid|].
  split.
  - unfold registerFound.
    destruct (Nat.eqb (List.length (filterValidEmails l)) 0); [reflexivity|].
    rewrite (bulkCreateStudents_rejected _ st Hvv); cbn [successful].
    destruct (Nat.eqb (List.length _) 0); [reflexivity|].
    destruct (Nat.eqb (List.length (filter _ _)) 0); reflexivity.
  - intros s; rewrite (registerFound_members true l st row Hui Hvalid).
    rewrite (bulkCreateStudents_rejected _ st Hvv); cbn [fst successful].
    unfold StudentRepository.findByEmailIn.
    rewrite filter_In, has_true_iff, <- requestedKey_canonical.
    rewrite requestedKey_filterValidEmails; reflexivity.
Qed.

Lemma registerStudentsToTeacher_insert_rejected_witness :
  uniqueStudentIds Scenario.school
  /\ isValidEmail (normalizeEmail "teacherken@gmail.com") = true
  /\ filterValidEmails ["StudentAgnes@gmail.com"; "studentnew@gmail.com"] <> []
  /\ fst (registerStudentsToTeacher true "teacherken@gmail.com"
            ["StudentAgnes@gmail.com"; "studentnew@gmail.com"] Scenario.school)
     = Ok tt
  /\ studentTable
       (snd (registerStudentsToTeacher true "teacherken@gmail.com"
               ["StudentAgnes@gmail.com"; "studentnew@gmail.com"]
               Scenario.school))
     = studentTable Scenario.school.
Proof.
  assert (Hui : uniqueStudentIds Scenario.school)
    by (unfold uniqueStudentIds; simpl; concrete_NoDup).
  assert (Hv : isValidEmail (normalizeEmail "teacherken@gmail.com") = true)
    by reflexivity.
  assert (Hl : filterValidEmails
                 ["StudentAgnes@gmail.com"; "studentnew@gmail.com"] <> [])
    by (vm_compute; discriminate).
  split; [exact Hui|]; split; [exact Hv|]; split; [exact Hl|].
  pose proof (registerStudentsToTeacher_insert_rejected
                "teacherken@gmail.com"
                ["StudentAgnes@gmail.com"; "studentnew@gmail.com"]
                Scenario.school (Teacher.mkRow 1 "teacherken@gmail.com")
                Hui Hv eq_refl Hl) as (Hok & Htab & _).
  split; [exact Hok | exact Htab].
Defined.

End RegistrationMembers.

(* ================================================================== *)
(** * Laws of the list utilities *)

Section ListUtilities.
Import EmailUtils.

(** X24: [removeDuplicateEmails] keeps the first occurrence of every
    string.  Its result has no repetition and the same members as the
    input; applying it twice is applying it once; and on a
    concatenation it returns the result for the first list followed by
    the result for the second one without the members of the first. *)
Theorem removeDuplicateEmails_laws (l l' : list string) :
  NoDup (removeDuplicateEmails l)
  /\ (forall x, In x (removeDuplicateEmails l) <-> In x l)
  /\ removeDuplicateEmails (removeDuplicateEmails l) = removeDuplicateEmails l
  /\ removeDuplicateEmails (l ++ l')
     = removeDuplicateEmails l
       ++ filter (fun y => negb (JsSet.has y l)) (removeDuplicateEmails l').
Proof.
  split; [apply removeDuplicateEmails_NoDup|].
  split; [intros x; apply removeDuplicateEmails_In|].
  split; [apply removeDuplicateEmails_fixed, removeDuplicateEmails_NoDup|].
  unfold removeDuplicateEmails, JsSet.ofArray.
  rewrite fold_left_app, fold_add_spec; f_equal.
  fold (JsSet.ofArray l); fold (JsSet.ofArray l').
  rewrite (ofArray_firstSeen l'); apply filter_ext; intros y; f_equal.
  apply has_ext; intros z; rewrite ofArray_firstSeen; apply firstSeen_In.
Qed.

(** X25: [normalizeEmails] returns the distinct normal forms of the
    entries.  Its members are exactly the normalized entries of the
    input, each one unchanged by [normalizeEmail], without repetition;
    applying it twice, or to a list normalized entry by entry, gives the
    same list. *)
Theorem normalizeEmails_laws (l : list string) :
  NoDup (normalizeEmails l)
  /\ (forall x, In x (normalizeEmails l)
                <-> exists y, In y l /\ normalizeEmail y = x)
  /\ (forall x, In x (normalizeEmails l) -> normalizeEmail x = x)
  /\ normalizeEmails (normalizeEmails l) = normalizeEmails l
  /\ normalizeEmails (map normalizeEmail l) = normalizeEmails l.
Proof.
  split; [apply normalizeEmails_NoDup|].
  split; [intros x; apply normalizeEmails_In|].
  split; [intros x; apply normalizeEmails_normalized|].
  split.
  - apply normalizeEmails_fixed; [apply normalizeEmails_NoDup|].
    intros x; apply normalizeEmails_normalized.
  - unfold normalizeEmails; rewrite map_map; f_equal.
    apply map_ext; intros x; apply normalizeEmail_idem.
Qed.

(** X26: validating and normalizing again changes nothing.  The keys the
    services compute ([filterValidEmails], then [normalizeEmails]) all
    pass the validator, so a second [filterValidEmails] keeps them all
    and in place, and running the two steps again returns the same
    keys; [filterValidEmails] itself is idempotent. *)
Theorem validated_keys_stable (l : list string) :
  filterValidEmails (filterValidEmails l) = filterValidEmails l
  /\ filterValidEmails (normalizeEmails (filterValidEmails l))
     = normalizeEmails (filterValidEmails l)
  /\ normalizeEmails
       (filterValidEmails (normalizeEmails (filterValidEmails l)))
     = normalizeEmails (filterValidEmails l)
  /\ forall k, In k (normalizeEmails (filterValidEmails l)) ->
               isValidEmail k = true /\ normalizeEmail k = k.
Proof.
  split; [|split; [|split]].
  - unfold filterValidEmails at 1 2.
    rewrite removeDuplicateEmails_fixed by apply filterValidEmails_NoDup.
    apply filter_true; intros x Hx; apply filterValidEmails_In in Hx; tauto.
  - exact (filterValidEmails_canonical l).
  - exact (canonical_idem l).
  - intros k Hk; split; [exact (canonical_valid k l Hk)|].
    exact (normalizeEmails_normalized k _ Hk).
Qed.

End ListUtilities.
